(** * auto-git-commit-message: diff partitioning, noise filtering,
      server lifecycle and commit-message clean-up

    Shallow embedding of [git_diff_llm.py] and
    [auto_commit_message/server_utils.py].

    Python [str] values are sequences of Unicode code points; they are
    modelled as [list N].  The built-in string methods the program uses
    ([splitlines], [split(" ")], [startswith], [join], [strip], slicing)
    are given their CPython meaning.  A [dict] is an insertion-ordered
    association list.  External effects (the liveness probe, [pgrep],
    the clock, process spawning, the model call, printing) go through a
    small state-and-exception monad over a [World] that records a trace. *)

From Stdlib Require Import List NArith Bool Lia Arith.
From Stdlib Require String Ascii.
Import ListNotations String.StringSyntax.

Set Implicit Arguments.

(* ================================================================= *)
(** ** Python strings *)

Module PyStr.

Definition pystr := list N.

(** An ASCII literal of the source as a sequence of code points. *)
Definition lit (s : String.string) : pystr :=
  map Ascii.N_of_ascii (String.list_ascii_of_string s).

Arguments lit s%_string_scope.

Definition LF : N := 10.
Definition CR : N := 13.
Definition SPACE : N := 32.

Definition pystr_eqb (a b : pystr) : bool :=
  if list_eq_dec N.eq_dec a b then true else false.

(** Truthiness of a [str]: the empty string is false. *)
Definition truthy (s : pystr) : bool :=
  match s with [] => false | _ :: _ => true end.

(** Line boundaries recognised by [str.splitlines]. *)
Definition is_linebreak (c : N) : bool :=
  existsb (N.eqb c) [10; 11; 12; 13; 28; 29; 30; 133; 8232; 8233]%N.

(** [str.isspace] on one code point; also the class [\s] of [re] on
    [str] patterns. *)
Definition is_space (c : N) : bool :=
  existsb (N.eqb c)
    [9; 10; 11; 12; 13; 28; 29; 30; 31; 32; 133; 160; 5760;
     8192; 8193; 8194; 8195; 8196; 8197; 8198; 8199; 8200; 8201; 8202;
     8232; 8233; 8239; 8287; 12288]%N.

(** [s.splitlines()]: lines without their terminators; ["\r\n"] is one
    terminator; a terminator at the very end opens no further line. *)
Fixpoint splitlines (s : pystr) : list pystr :=
  match s with
  | [] => []
  | c :: s' =>
      if is_linebreak c then
        if N.eqb c CR then
          match s' with
          | d :: s'' =>
              if N.eqb d LF then [] :: splitlines s'' else [] :: splitlines s'
          | [] => [] :: splitlines s'
          end
        else [] :: splitlines s'
      else
        match splitlines s' with
        | [] => [[c]]
        | l :: ls => (c :: l) :: ls
        end
  end.

(** [s.split(sep)] for a one-character separator: cuts at every
    occurrence, so the result always has at least one token. *)
Fixpoint split (sep : N) (s : pystr) : list pystr :=
  match s with
  | [] => [[]]
  | c :: s' =>
      if N.eqb c sep then [] :: split sep s'
      else
        match split sep s' with
        | [] => [[c]]
        | l :: ls => (c :: l) :: ls
        end
  end.

(** [s.startswith(p)]. *)
Fixpoint startswith (p s : pystr) : bool :=
  match p, s with
  | [], _ => true
  | _ :: _, [] => false
  | a :: p', b :: s' => N.eqb a b && startswith p' s'
  end.

(** [sep.join(ls)]. *)
Fixpoint join (sep : pystr) (ls : list pystr) : pystr :=
  match ls with
  | [] => []
  | l :: ls' =>
      match ls' with
      | [] => l
      | _ :: _ => l ++ sep ++ join sep ls'
      end
  end.

(** [s.lstrip()], [s.rstrip()], [s.strip()] with no argument. *)
Fixpoint lstrip (s : pystr) : pystr :=
  match s with
  | [] => []
  | c :: s' => if is_space c then lstrip s' else s
  end.

Definition rstrip (s : pystr) : pystr := rev (lstrip (rev s)).

Definition strip (s : pystr) : pystr := rstrip (lstrip s).

(** The slice [s[n:]]. *)
Definition slice_from (n : nat) (s : pystr) : pystr := skipn n s.

End PyStr.
Import PyStr.

(* ================================================================= *)
(** ** Insertion-ordered dictionaries *)

Module PyDict.

(** A [dict] with [str] keys, as the list of its items in insertion
    order; a well-formed one has no key twice. *)
Definition dict (V : Type) := list (pystr * V).

Section Ops.
Context {V : Type}.

(** [d[k] = v]: an existing key keeps its position and gets the new
    value; a new key goes to the end. *)
Fixpoint setitem (k : pystr) (v : V) (d : dict V) : dict V :=
  match d with
  | [] => [(k, v)]
  | (k', v') :: d' =>
      if pystr_eqb k' k then (k', v) :: d' else (k', v') :: setitem k v d'
  end.

(** [d.get(k)] *)
Fixpoint getitem (k : pystr) (d : dict V) : option V :=
  match d with
  | [] => None
  | (k', v') :: d' => if pystr_eqb k' k then Some v' else getitem k d'
  end.

Definition keys (d : dict V) : list pystr := map fst d.
Definition values (d : dict V) : list V := map snd d.

End Ops.

End PyDict.
Import PyDict.

(* ================================================================= *)
(** ** [split_diff_by_file] and [preprocess_diff] *)

Definition NL : pystr := [LF].

Definition diff_git : pystr := lit "diff --git".

(** [line.startswith("diff --git")]. *)
Definition is_header (line : pystr) : bool := startswith diff_git line.

(** State of the loop of [split_diff_by_file]. *)
Record split_state := mk_split_state {
  file_diffs : dict pystr;
  current_file : option pystr;
  lines : list pystr
}.

(** [if current_file and lines: file_diffs[current_file] = "\n".join(lines)] *)
Definition save_current (st : split_state) : dict pystr :=
  match current_file st with
  | Some f =>
      if truthy f && negb (Nat.eqb (length (lines st)) 0)
      then setitem f (join NL (lines st)) (file_diffs st)
      else file_diffs st
  | None => file_diffs st
  end.

(** The file name a header line yields: [parts[2][2:]] when
    [len(parts) >= 3], nothing otherwise. *)
Definition header_name (line : pystr) : option pystr :=
  let parts := split SPACE line in
  if Nat.leb 3 (length parts)
  then Some (slice_from 2 (nth 2 parts []))
  else None.

(** One iteration of the [for line in ...] loop. *)
Definition split_step (st : split_state) (line : pystr) : split_state :=
  if is_header line then
    {| file_diffs := save_current st;
       current_file :=
         match header_name line with
         | Some f => Some f
         | None => current_file st
         end;
       lines := [line] |}
  else
    {| file_diffs := file_diffs st;
       current_file := current_file st;
       lines := lines st ++ [line] |}.

Definition split_init : split_state :=
  {| file_diffs := []; current_file := None; lines := [] |}.

(** The loop followed by the final save, on the list of lines. *)
Definition split_diff_lines (ls : list pystr) : dict pystr :=
  save_current (fold_left split_step ls split_init).

Definition split_diff_by_file (diff_text : pystr) : dict pystr :=
  split_diff_lines (splitlines diff_text).

Definition default_distracting_files : list pystr :=
  [lit "pyproject.toml"; lit "uv.lock"].

(** [filename in distracting_files] *)
Definition py_in (k : pystr) (l : list pystr) : bool :=
  existsb (pystr_eqb k) l.

(** One iteration of the loop of [preprocess_diff] over
    [file_diffs.items()], on the pair
    [(filtered_file_diffs, append_note)]. *)
Definition filter_step (distracting_files : list pystr)
    (acc : dict pystr * bool) (item : pystr * pystr) : dict pystr * bool :=
  let (filename, file_diff) := item in
  if py_in filename distracting_files
  then (fst acc, true)
  else (setitem filename file_diff (fst acc), snd acc).

Definition filter_items (distracting_files : list pystr)
    (items : dict pystr) : dict pystr * bool :=
  fold_left (filter_step distracting_files) items ([], false).

Definition preprocess_diff_with (distracting_files : list pystr)
    (diff_text : pystr) : pystr * bool :=
  let file_diffs := split_diff_by_file diff_text in
  let (filtered_file_diffs, append_note) :=
    filter_items distracting_files file_diffs in
  (join NL (values filtered_file_diffs), append_note).

(** [preprocess_diff(diff_text, distracting_files=None)] *)
Definition preprocess_diff (diff_text : pystr)
    (distracting_files : option (list pystr)) : pystr * bool :=
  preprocess_diff_with
    (match distracting_files with
     | Some l => l
     | None => default_distracting_files
     end) diff_text.

(* ================================================================= *)
(** ** The regular expression of the response clean-up *)

Module PyRe.

(** The pattern language the program needs: a character class matched
    once, or a greedy star over a character class. *)
Inductive re_item :=
| ReChar (cls : N -> bool)
| ReStar (cls : N -> bool).

(** Backtracking match of a sequence of items at the start of [s];
    the result is the text left after the match the engine finds first
    (a star tries its longest repetition first). *)
Fixpoint re_match (items : list re_item) : pystr -> option pystr :=
  match items with
  | [] => fun s => Some s
  | ReChar cls :: r =>
      fun s =>
        match s with
        | c :: s' => if cls c then re_match r s' else None
        | [] => None
        end
  | ReStar cls :: r =>
      fix star (s : pystr) : option pystr :=
        match s with
        | c :: s' =>
            if cls c then
              match star s' with
              | Some rest => Some rest
              | None => re_match r s
              end
            else re_match r s
        | [] => re_match r []
        end
  end.

(** [re.sub(pattern, repl, s)] for a pattern anchored by [^] (without
    [re.MULTILINE]): only a match at position 0 is possible, so at most
    one replacement happens. *)
Definition re_sub_anchored (items : list re_item) (repl s : pystr) : pystr :=
  match re_match items s with
  | Some rest => repl ++ rest
  | None => s
  end.

Local Open Scope N_scope.

Definition ascii_swapcase (c : N) : N :=
  if (65 <=? c) && (c <=? 90) then c + 32
  else if (97 <=? c) && (c <=? 122) then c - 32
  else c.

(** Non-ASCII code points that [re.IGNORECASE] lets an ASCII letter of
    a [str] pattern match: U+0130 and U+0131 for [i], U+017F for [s],
    U+212A for [k]. *)
Definition ignorecase_extra (c : N) : list N :=
  if (c =? 105) || (c =? 73) then [304; 305]
  else if (c =? 115) || (c =? 83) then [383]
  else if (c =? 107) || (c =? 75) then [8490]
  else [].

(** A literal ASCII character of the pattern under [re.IGNORECASE]. *)
Definition ignorecase_literal (c x : N) : bool :=
  (x =? c) || (x =? ascii_swapcase c) || existsb (N.eqb x) (ignorecase_extra c).

Local Close Scope N_scope.

End PyRe.
Import PyRe.

Definition commit_message_prefix : pystr := lit "**Commit Message:**".

(** [r'^\s*\*\*Commit Message:\*\*\s*'] with [flags=re.IGNORECASE]. *)
Definition commit_prefix_pattern : list re_item :=
  ReStar is_space
    :: map (fun c => ReChar (ignorecase_literal c)) commit_message_prefix
    ++ [ReStar is_space].

Definition documentation_note : pystr :=
  lit " and updated documentation accordingly".

(** Lines 241-245 of [generate_commit_message]: the note, then the
    [re.sub]. *)
Definition finish_message (append_note : bool) (response : pystr) : pystr :=
  let response :=
    if append_note then response ++ documentation_note else response in
  re_sub_anchored commit_prefix_pattern [] response.

(* ================================================================= *)
(** ** Effects: the world, exceptions, a state-and-exception monad *)

Inductive exn :=
| RuntimeError (msg : pystr)
| SystemExit (code : N)
| InferenceError (tag : N).

(** What [print] is given. *)
Inductive message :=
| MsgStartingServer
| MsgKillingProcess (pid : list N)
| MsgNoDiffProvided
| MsgGeneratedCommitMessage (commit_msg : pystr).

Inductive event :=
| EvProbe (at_ms : N) (alive : bool)      (* GET /api/tags answered *)
| EvPgrep                                  (* pgrep -f "ollama serve" *)
| EvSpawn (handle : N)                     (* Popen(["ollama","serve"]) *)
| EvSleep                                  (* time.sleep(0.5) *)
| EvStopCalled                             (* server.stop() entered *)
| EvTerminate (handle : N)                 (* proc.terminate() *)
| EvWait (handle : N)                      (* proc.wait() *)
| EvReadInput                              (* the diff is read *)
| EvInference (prompt : pystr)             (* llm.generate(prompt) *)
| EvPrint (msg : message)
| EvClipboard (text : pystr).

(** How the surroundings answer.  Probes and sleeps are numbered in the
    order they happen.  [env_wall] is the wall clock: what [time.time()]
    returns, in ms, once the run has lasted the given number of ms; it
    is any function, so the clock may be set back or forward while the
    program runs.  [env_polls] is the number of polls for which the
    loop of [OllamaServer.start] is followed; a run that polls more
    often ends as [OutOfFuel]. *)
Record Env := mk_Env {
  env_probe : nat -> N * bool;     (* duration in ms, answer *)
  env_oversleep : nat -> N;        (* ms slept beyond the 500 asked *)
  env_pgrep : option (list N);     (* output, or CalledProcessError *)
  env_popen : N;                   (* handle of the spawned process *)
  env_input : pystr;               (* text of the file or of stdin *)
  env_llm : pystr -> exn + pystr;  (* the model call *)
  env_wall : N -> N;               (* reading of [time.time()], ms *)
  env_polls : nat                  (* polls of [start] followed *)
}.

Record World := mk_World {
  proc : option N;        (* [self.proc] of the one [OllamaServer] *)
  now : N;                (* time elapsed since the run began, ms *)
  probes : nat;           (* liveness probes issued so far *)
  sleeps : nat;           (* sleeps so far *)
  trace : list event      (* what happened, oldest first *)
}.

Inductive outcome (A : Type) :=
| Done (a : A)
| Raised (e : exn)
| OutOfFuel.

Arguments Done {A} a.
Arguments Raised {A} e.
Arguments OutOfFuel {A}.

Definition M (A : Type) := World -> outcome A * World.

Definition ret {A} (a : A) : M A := fun w => (Done a, w).

Definition bind {A B} (m : M A) (k : A -> M B) : M B :=
  fun w =>
    match m w with
    | (Done a, w') => k a w'
    | (Raised e, w') => (Raised e, w')
    | (OutOfFuel, w') => (OutOfFuel, w')
    end.

Definition raise {A} (e : exn) : M A := fun w => (Raised e, w).

(** [try: body finally: cleanup].  The clean-up runs on every exit of
    the body; an exception of the clean-up replaces the body's result. *)
Definition try_finally {A} (body : M A) (cleanup : M unit) : M A :=
  fun w =>
    match body w with
    | (OutOfFuel, w') => (OutOfFuel, w')
    | (r, w') =>
        match cleanup w' with
        | (Done _, w'') => (r, w'')
        | (Raised e, w'') => (Raised e, w'')
        | (OutOfFuel, w'') => (OutOfFuel, w'')
        end
    end.

Declare Scope monad_scope.
Delimit Scope monad_scope with monad.
Notation "x <- m ;; k" := (bind m (fun x => k))
  (at level 61, m at next level, right associativity) : monad_scope.
Notation "m ;;; k" := (bind m (fun _ => k))
  (at level 61, right associativity) : monad_scope.
Open Scope monad_scope.

Definition emit (e : event) : M unit :=
  fun w =>
    (Done tt,
     {| proc := proc w; now := now w; probes := probes w;
        sleeps := sleeps w; trace := trace w ++ [e] |}).

Definition print (m : message) : M unit := emit (EvPrint m).

Definition get_proc : M (option N) := fun w => (Done (proc w), w).

Definition set_proc (p : option N) : M unit :=
  fun w =>
    (Done tt,
     {| proc := p; now := now w; probes := probes w;
        sleeps := sleeps w; trace := trace w |}).

(** [time.time()], in ms: the reading of the wall clock. *)
Definition time_time (env : Env) : M N :=
  fun w => (Done (env_wall env (now w)), w).

(* ================================================================= *)
(** ** [OllamaServer] *)

Module OllamaServer.

(** What [get_pid] returns: [False], or the stripped [bytes] output of
    [pgrep]. *)
Inductive pid_value :=
| PyFalse
| PyBytes (b : list N).

Definition pid_truthy (p : pid_value) : bool :=
  match p with
  | PyFalse => false
  | PyBytes b => truthy b
  end.

(** Whitespace of [bytes.strip()]. *)
Definition is_ascii_space (c : N) : bool :=
  existsb (N.eqb c) [9; 10; 11; 12; 13; 32]%N.

Fixpoint bytes_lstrip (b : list N) : list N :=
  match b with
  | [] => []
  | c :: b' => if is_ascii_space c then bytes_lstrip b' else b
  end.

Definition bytes_strip (b : list N) : list N :=
  rev (bytes_lstrip (rev (bytes_lstrip b))).

(** [__init__]: [self.proc = None]. *)
Definition init : M unit := set_proc None.

Definition get_pid (env : Env) : M pid_value :=
  emit EvPgrep ;;;
  match env_pgrep env with
  | Some output => ret (PyBytes (bytes_strip output))
  | None => ret PyFalse
  end.

(** The world after the next liveness probe: the clock has moved by
    the time the probe took. *)
Definition after_probe (env : Env) (w : World) : World :=
  let t := (now w + fst (env_probe env (probes w)))%N in
  {| proc := proc w; now := t; probes := S (probes w); sleeps := sleeps w;
     trace := trace w ++ [EvProbe t (snd (env_probe env (probes w)))] |}.

(** One liveness probe; it answers [true] exactly on HTTP 200. *)
Definition is_running (env : Env) : M bool :=
  fun w => (Done (snd (env_probe env (probes w))), after_probe env w).

Definition after_sleep (env : Env) (w : World) : World :=
  {| proc := proc w;
     now := (now w + 500 + env_oversleep env (sleeps w))%N;
     probes := probes w; sleeps := S (sleeps w);
     trace := trace w ++ [EvSleep] |}.

(** [time.sleep(0.5)] *)
Definition sleep_half_second (env : Env) : M unit :=
  fun w => (Done tt, after_sleep env w).

Definition popen (env : Env) : M N :=
  emit (EvSpawn (env_popen env)) ;;; ret (env_popen env).

(** [timeout = 5], in ms. *)
Definition timeout : N := 5000.

Definition timeout_error : exn :=
  RuntimeError (lit "Failed to start Ollama server in time.").

(** The [while not self.is_running()] loop of [start]. *)
Fixpoint wait_until_running (env : Env) (fuel : nat) (start_time : N)
  : M unit :=
  match fuel with
  | O => fun w => (OutOfFuel, w)
  | S fuel' =>
      alive <- is_running env ;;
      if alive then ret tt
      else
        t <- time_time env ;;
        if (timeout <? t - start_time)%N then raise timeout_error
        else sleep_half_second env ;;;
             wait_until_running env fuel' start_time
  end.

Definition start_with_fuel (env : Env) (fuel : nat) : M unit :=
  alive <- is_running env ;;
  if alive then ret tt
  else
    print MsgStartingServer ;;;
    h <- popen env ;;
    set_proc (Some h) ;;;
    start_time <- time_time env ;;
    wait_until_running env fuel start_time.

(** [start], its loop followed for [env_polls env] polls.  Every sleep
    lasts 500 ms or more, so twelve polls are all the loop can make
    when the wall clock keeps pace with the elapsed time (see
    [start_fuel_enough]); a clock that is set back lets it poll
    longer. *)
Definition start (env : Env) : M unit := start_with_fuel env (env_polls env).

Definition stop : M unit :=
  emit EvStopCalled ;;;
  p <- get_proc ;;
  match p with
  | Some h =>
      emit (EvTerminate h) ;;;
      emit (EvWait h) ;;;
      set_proc None
  | None => ret tt
  end.

End OllamaServer.

(* ================================================================= *)
(** ** [generate_commit_message] and the entry point *)

(** [HelperLLM.generate]: one request to the model. *)
Definition llm_generate (env : Env) (prompt : pystr) : M pystr :=
  emit (EvInference prompt) ;;;
  match env_llm env prompt with
  | inl e => raise e
  | inr content => ret content
  end.

(** The [finally] block of [generate_commit_message]. *)
Definition generate_cleanup (pid : OllamaServer.pid_value) : M unit :=
  if OllamaServer.pid_truthy pid then
    print (MsgKillingProcess
             match pid with
             | OllamaServer.PyBytes b => b
             | OllamaServer.PyFalse => []
             end) ;;;
    OllamaServer.stop
  else ret tt.

(** The [try] block of [generate_commit_message]. *)
Definition generate_body (env : Env) (diff_text : pystr) : M pystr :=
  let (filtered_diff_text, append_note) := preprocess_diff diff_text None in
  response <- llm_generate env filtered_diff_text ;;
  ret (finish_message append_note response).

Definition generate_commit_message (env : Env) (diff_text : pystr)
  : M pystr :=
  pid <- OllamaServer.get_pid env ;;
  try_finally (generate_body env diff_text) (generate_cleanup pid).

(** The diff text: the content of the file named by [--diff], or of
    stdin.  [env_input] is the text once it has been read; a run in
    which [open] or [read] raises is not described. *)
Definition read_input (env : Env) : M pystr :=
  emit EvReadInput ;;; ret (env_input env).

(** [copy_to_clipboard]: the text is handed to [pbcopy].  A run in
    which [pbcopy] cannot be started is not described. *)
Definition copy_to_clipboard (text : pystr) : M unit :=
  emit (EvClipboard text).

(** The [if __name__ == "__main__"] block. *)
Definition main (env : Env) : M unit :=
  OllamaServer.init ;;;
  OllamaServer.start env ;;;
  diff_text <- read_input env ;;
  if negb (truthy (strip diff_text)) then
    print MsgNoDiffProvided ;;;
    raise (SystemExit 1)
  else
    commit_msg <- generate_commit_message env diff_text ;;
    print (MsgGeneratedCommitMessage commit_msg) ;;;
    copy_to_clipboard commit_msg ;;;
    OllamaServer.stop.

Definition world0 : World :=
  {| proc := None; now := 0; probes := 0; sleeps := 0; trace := [] |}.

(** Exit status of the interpreter for an outcome of [main]. *)
Definition exit_code (r : outcome unit) : option N :=
  match r with
  | Done _ => Some 0%N
  | Raised (SystemExit c) => Some c
  | Raised _ => Some 1%N
  | OutOfFuel => None
  end.

Definition is_inference (e : event) : bool :=
  match e with EvInference _ => true | _ => false end.

Definition is_probe (e : event) : bool :=
  match e with EvProbe _ _ => true | _ => false end.

Definition is_terminate (e : event) : bool :=
  match e with EvTerminate _ => true | _ => false end.

Definition is_stop_call (e : event) : bool :=
  match e with EvStopCalled => true | _ => false end.

(* ================================================================= *)
(** ** Vocabulary of the statements *)

(** The value [get_pid] returns in the surroundings [env]: the
    snapshot [generate_commit_message] takes before its [try]. *)
Definition pid_snapshot (env : Env) : OllamaServer.pid_value :=
  match env_pgrep env with
  | Some output => OllamaServer.PyBytes (OllamaServer.bytes_strip output)
  | None => OllamaServer.PyFalse
  end.

(** Events of the [finally] block, given the snapshot and [self.proc]
    at the time the block is entered. *)
Definition cleanup_events (pid : OllamaServer.pid_value) (p : option N)
  : list event :=
  if OllamaServer.pid_truthy pid then
    EvPrint (MsgKillingProcess
               match pid with
               | OllamaServer.PyBytes b => b
               | OllamaServer.PyFalse => []
               end)
      :: EvStopCalled
      :: match p with
         | Some h => [EvTerminate h; EvWait h]
         | None => []
         end
  else [].

(** Surroundings in which no server process exists and the model
    answers with a fixed text. *)
Definition env_no_server : Env :=
  {| env_probe := fun _ => (0%N, false);
     env_oversleep := fun _ => 0%N;
     env_pgrep := None;
     env_popen := 4242%N;
     env_input := [];
     env_llm := fun _ => inr (lit "Fix parser");
     env_wall := fun t => t;
     env_polls := 12 |}.

(** Surroundings in which a server is up and [pgrep] reports it. *)
Definition env_server_up : Env :=
  {| env_probe := fun _ => (3%N, true);
     env_oversleep := fun _ => 0%N;
     env_pgrep := Some (lit "917" ++ [LF]);
     env_popen := 4242%N;
     env_input := lit "  " ++ [LF];
     env_llm := fun _ => inr (lit "**Commit Message:** Fix off-by-one in parser");
     env_wall := fun t => t;
     env_polls := 12 |}.

(** Events of failed polls, each followed by its half-second sleep;
    [ts] are the times at which the probes answered. *)
Definition poll_trace (ts : list N) : list event :=
  flat_map (fun t => [EvProbe t false; EvSleep]) ts.

(** The world right after [start] has printed its notice and spawned
    the server: [self.proc] is the new handle. *)
Definition after_spawn (env : Env) (w : World) : World :=
  {| proc := Some (env_popen env); now := now w; probes := probes w;
     sleeps := sleeps w;
     trace := trace w ++ [EvPrint MsgStartingServer; EvSpawn (env_popen env)] |}.

(** The world once [OllamaServer(model_name)] has been constructed. *)
Definition fresh_server (w : World) : World :=
  {| proc := None; now := now w; probes := probes w; sleeps := sleeps w;
     trace := trace w |}.

(** Events [start] can produce after its first probe. *)
Definition is_start_event (e : event) : bool :=
  match e with
  | EvProbe _ _ | EvSleep | EvSpawn _ | EvPrint MsgStartingServer => true
  | _ => false
  end.

(** Surroundings in which the server comes up late: the probe after
    the spawn fails at 4.9 s, the next one succeeds at 5.5 s. *)
Definition env_late_server : Env :=
  {| env_probe := fun i =>
       match i with
       | O => (0%N, false)
       | S O => (4900%N, false)
       | _ => (100%N, true)
       end;
     env_oversleep := fun _ => 0%N;
     env_pgrep := None;
     env_popen := 4242%N;
     env_input := lit "diff --git a/a.py b/a.py";
     env_llm := fun _ => inr (lit "Fix parser");
     env_wall := fun t => t;
     env_polls := 12 |}.

(** The wall clock never falls behind the elapsed time: it is not set
    back and does not run slow. *)
Definition clock_keeps_pace (env : Env) : Prop :=
  forall t d, (env_wall env t + d <= env_wall env (t + d))%N.

(** A failed probe after which [start] finds its deadline passed:
    [time.time() - start_time > timeout] at the time [t] of the
    probe. *)
Definition late_failure (env : Env) (start_time : N) (e : event) : bool :=
  match e with
  | EvProbe t false =>
      (OllamaServer.timeout <? env_wall env t - start_time)%N
  | _ => false
  end.

(** Surroundings in which no server comes up and the wall clock is set
    back by three seconds, three seconds into the run. *)
Definition env_clock_set_back : Env :=
  {| env_probe := fun _ => (0%N, false);
     env_oversleep := fun _ => 0%N;
     env_pgrep := None;
     env_popen := 4242%N;
     env_input := [];
     env_llm := fun _ => inr (lit "Fix parser");
     env_wall := fun t => if (t <? 3000)%N then (t + 10000)%N
                          else (t + 7000)%N;
     env_polls := 24 |}.

(** ASCII lower-casing, and equality of two strings up to ASCII case. *)
Definition ascii_lower (c : N) : N :=
  if ((65 <=? c) && (c <=? 90))%N then (c + 32)%N else c.

Definition caseless_eq (a b : pystr) : Prop :=
  map ascii_lower a = map ascii_lower b.

(** *** Vocabulary for the statements about diffs *)

(** The [diff --git] lines of a diff text, in order. *)
Definition headers (D : pystr) : list pystr :=
  filter is_header (splitlines D).

(** In [diff --git a/<old> b/<new>] the token [a/<old>] is [parts[2]]
    and [b/<new>] is [parts[3]]; both without their two-character
    prefix. *)
Definition pre_change_path (h : pystr) : pystr :=
  slice_from 2 (nth 2 (split SPACE h) []).

Definition post_change_path (h : pystr) : pystr :=
  slice_from 2 (nth 3 (split SPACE h) []).

(** The file names the loop extracts, one per header line that has
    three tokens or more. *)
Definition extracted_paths (D : pystr) : list pystr :=
  flat_map (fun h => match header_name h with
                     | Some f => [f]
                     | None => []
                     end) (headers D).

(** Lines cut at the header lines: the lines before the first header,
    then every header with the content lines that follow it. *)
Fixpoint chunks (ls : list pystr) : list pystr * list (pystr * list pystr) :=
  match ls with
  | [] => ([], [])
  | l :: ls' =>
      let (pre, cs) := chunks ls' in
      if is_header l then ([], (l, pre) :: cs) else (l :: pre, cs)
  end.

(** The file name that is current after the header [h]. *)
Definition next_file (cur : option pystr) (h : pystr) : option pystr :=
  match header_name h with
  | Some f => Some f
  | None => cur
  end.

(** The saves the loop performs for a list of chunks: the file name
    current when the chunk is saved, and its lines. *)
Fixpoint saves (cur : option pystr) (cs : list (pystr * list pystr))
  : list (option pystr * list pystr) :=
  match cs with
  | [] => []
  | (h, body) :: cs' =>
      (next_file cur h, h :: body) :: saves (next_file cur h) cs'
  end.

Definition save_as (d : dict pystr) (s : option pystr * list pystr)
  : dict pystr :=
  save_current {| file_diffs := d; current_file := fst s; lines := snd s |}.

Definition chunk_lines (c : pystr * list pystr) : list pystr :=
  fst c :: snd c.

(** The entry a chunk with a well-formed header gives. *)
Definition chunk_entry (c : pystr * list pystr) : pystr * pystr :=
  (pre_change_path (fst c), join NL (chunk_lines c)).


(** No line boundary occurs in [l]. *)
Definition no_linebreak (l : pystr) : Prop :=
  Forall (fun c => is_linebreak c = false) l.

(** The only line boundary used in [s] is the line feed. *)
Definition only_LF (s : pystr) : Prop :=
  Forall (fun c => is_linebreak c = true -> c = LF) s.

(** The first line, if any, is a header. *)
Definition starts_with_header (ls : list pystr) : Prop :=
  match ls with
  | [] => True
  | l :: _ => is_header l = true
  end.




(** The entries [preprocess_diff] keeps. *)
Definition kept (distracting_files : list pystr) (e : pystr * pystr) : bool :=
  negb (py_in (fst e) distracting_files).

Definition distracting (o : option (list pystr)) : list pystr :=
  match o with
  | Some l => l
  | None => default_distracting_files
  end.

(** *** Vocabulary for whole runs *)

(** The world with further events recorded. *)
Definition add_events (evs : list event) (w : World) : World :=
  {| proc := proc w; now := now w; probes := probes w; sleeps := sleeps w;
     trace := trace w ++ evs |}.

(** What was recorded between the world [w] and a later world [w']. *)
Definition events_since (w w' : World) : list event :=
  skipn (length (trace w)) (trace w').

Definition count_events (p : event -> bool) (evs : list event) : nat :=
  length (filter p evs).

Definition is_spawn (e : event) : bool :=
  match e with EvSpawn _ => true | _ => false end.

Definition is_sleep (e : event) : bool :=
  match e with EvSleep => true | _ => false end.

Definition is_wait (e : event) : bool :=
  match e with EvWait _ => true | _ => false end.

Definition is_commit_print (e : event) : bool :=
  match e with EvPrint (MsgGeneratedCommitMessage _) => true | _ => false end.

Definition is_clipboard (e : event) : bool :=
  match e with EvClipboard _ => true | _ => false end.

Definition is_output (e : event) : bool :=
  match e with
  | EvPrint (MsgGeneratedCommitMessage _) | EvClipboard _ => true
  | _ => false
  end.

(** The world [generate_commit_message] leaves. *)
Definition after_generate (env : Env) (d : pystr) (w : World) : World :=
  {| proc := if OllamaServer.pid_truthy (pid_snapshot env)
             then None else proc w;
     now := now w; probes := probes w; sleeps := sleeps w;
     trace := trace w ++ EvPgrep :: EvInference (fst (preprocess_diff d None))
                      :: cleanup_events (pid_snapshot env) (proc w) |}.

(** The message [generate_commit_message] returns for the model's
    answer [content]. *)
Definition commit_message_for (d content : pystr) : pystr :=
  finish_message (snd (preprocess_diff d None)) content.

(** The events of the last [stop] of the entry point. *)
Definition stop_events (p : option N) : list event :=
  EvStopCalled :: match p with
                  | Some h => [EvTerminate h; EvWait h]
                  | None => []
                  end.

(** Surroundings in which the server has to be spawned, comes up at
    once, and the model call raises. *)
Definition env_model_fails : Env :=
  {| env_probe := fun i => match i with
                           | O => (2%N, false)
                           | _ => (40%N, true)
                           end;
     env_oversleep := fun _ => 0%N;
     env_pgrep := None;
     env_popen := 4242%N;
     env_input := lit "diff --git a/a.py b/a.py";
     env_llm := fun _ => inl (InferenceError 7);
     env_wall := fun t => t;
     env_polls := 12 |}.

(** [k] appended to [l] unless it is there already: what an
    assignment [d[k] = v] does to the order of the keys. *)
Definition push_new (l : list pystr) (k : pystr) : list pystr :=
  if in_dec (list_eq_dec N.eq_dec) k l then l else l ++ [k].

(** The distinct elements of a list in the order of their first
    appearance. *)
Definition first_seen (l : list pystr) : list pystr :=
  fold_left push_new l [].

(** The name under which a save is stored, if it is stored. *)
Definition stored_name (s : option pystr * list pystr) : list pystr :=
  match fst s with
  | Some f => if truthy f && negb (Nat.eqb (length (snd s)) 0) then [f] else []
  | None => []
  end.

(** A literal of case-insensitive characters taken off the front of
    [s]. *)
Fixpoint strip_literal_ci (p s : pystr) : option pystr :=
  match p with
  | [] => Some s
  | c :: p' =>
      match s with
      | x :: s' => if ignorecase_literal c x then strip_literal_ci p' s' else None
      | [] => None
      end
  end.

(** The note without its leading blank. *)
Definition documentation_tail : pystr :=
  lit "and updated documentation accordingly".

(** An entry together with the chunk it was saved from: the chunk has
    the shape of the chunks of a text, and a name its header yields is
    the key. *)
Definition entry_of_chunk (kc : pystr * (pystr * list pystr)) : Prop :=
  is_header (fst (snd kc)) = true /\
  Forall (fun l => is_header l = false) (snd (snd kc)) /\
  Forall no_linebreak (chunk_lines (snd kc)) /\
  forall k, header_name (fst (snd kc)) = Some k -> k = fst kc.

Definition saved_entry (kc : pystr * (pystr * list pystr)) : pystr * pystr :=
  (fst kc, join NL (chunk_lines (snd kc))).

(** *** [HelperLLM.invoke] *)

(** The values [invoke] can meet: [None], a [str], or any other
    object, of which only its truth value and its [str()] matter. *)
Inductive pyval :=
| PyNone
| PyStrVal (s : pystr)
| PyOther (truth : bool) (as_str : pystr).

Definition pyval_truthy (v : pyval) : bool :=
  match v with
  | PyNone => false
  | PyStrVal s => truthy s
  | PyOther t _ => t
  end.

(** [a or b] *)
Definition py_or (a b : pyval) : pyval :=
  if pyval_truthy a then a else b.

(** [d.get(k)]: [None] for a missing key. *)
Definition dict_get (k : pystr) (d : dict pyval) : pyval :=
  match getitem k d with
  | Some v => v
  | None => PyNone
  end.

(** [str(v)] *)
Definition py_str (v : pyval) : pystr :=
  match v with
  | PyNone => lit "None"
  | PyStrVal s => s
  | PyOther _ r => r
  end.

(** The argument [input] of [invoke]: a [dict], or anything else. *)
Inductive invoke_input :=
| InputDict (d : dict pyval)
| InputValue (v : pyval).

(** The prompt [invoke] hands to [generate]. *)
Definition invoke_prompt (input : invoke_input) : pystr :=
  let prompt :=
    match input with
    | InputDict d =>
        py_or (py_or (dict_get (lit "text") d) (dict_get (lit "query") d))
              (PyStrVal [])
    | InputValue v => v
    end in
  match prompt with
  | PyStrVal s => s
  | _ => py_str prompt
  end.

(** [HelperLLM.invoke(input, config)]; [config] is not used. *)
Definition invoke (env : Env) (input : invoke_input) : M pystr :=
  llm_generate env (invoke_prompt input).

(* ================================================================= *)
(** * Properties *)

(** ** The monad and the server operations *)

Lemma get_pid_run (env : Env) (w : World) :
  OllamaServer.get_pid env w =
  (Done (pid_snapshot env),
   {| proc := proc w; now := now w; probes := probes w;
      sleeps := sleeps w; trace := trace w ++ [EvPgrep] |}).
Proof.
  unfold OllamaServer.get_pid, pid_snapshot, bind, emit, ret.
  destruct (env_pgrep env); reflexivity.
Qed.

Lemma stop_run (w : World) :
  OllamaServer.stop w =
  (Done tt,
   {| proc := None; now := now w; probes := probes w; sleeps := sleeps w;
      trace := trace w ++ EvStopCalled ::
                 match proc w with
                 | Some h => [EvTerminate h; EvWait h]
                 | None => []
                 end |}).
Proof.
  unfold OllamaServer.stop, bind, emit, get_proc, set_proc, ret; simpl.
  destruct w as [p n pr sl tr]; simpl.
  destruct p; simpl; rewrite <- ?app_assoc; reflexivity.
Qed.

Lemma generate_cleanup_run (pid : OllamaServer.pid_value) (w : World) :
  exists w',
    generate_cleanup pid w = (Done tt, w') /\
    trace w' = trace w ++ cleanup_events pid (proc w) /\
    proc w' = (if OllamaServer.pid_truthy pid then None else proc w).
Proof.
  unfold generate_cleanup, cleanup_events.
  destruct (OllamaServer.pid_truthy pid).
  - unfold bind, print, emit. rewrite stop_run. simpl.
    eexists; split; [reflexivity|]. simpl.
    rewrite <- app_assoc. auto.
  - eexists; split; [reflexivity|]. rewrite app_nil_r. auto.
Qed.

Lemma generate_body_run (env : Env) (d : pystr) (w : World) :
  generate_body env d w =
  (match env_llm env (fst (preprocess_diff d None)) with
   | inl e => Raised e
   | inr content => Done (finish_message (snd (preprocess_diff d None)) content)
   end,
   {| proc := proc w; now := now w; probes := probes w; sleeps := sleeps w;
      trace := trace w ++ [EvInference (fst (preprocess_diff d None))] |}).
Proof.
  unfold generate_body.
  destruct (preprocess_diff d None) as [f note]; simpl.
  unfold bind, llm_generate, bind, emit, raise, ret; simpl.
  destruct (env_llm env f); reflexivity.
Qed.

(** Full description of one run of [generate_commit_message]. *)
Lemma generate_commit_message_run (env : Env) (d : pystr) (w : World) :
  exists w',
    generate_commit_message env d w =
      (match env_llm env (fst (preprocess_diff d None)) with
       | inl e => Raised e
       | inr content =>
           Done (finish_message (snd (preprocess_diff d None)) content)
       end, w') /\
    trace w' =
      trace w ++ EvPgrep :: EvInference (fst (preprocess_diff d None))
              :: cleanup_events (pid_snapshot env) (proc w) /\
    proc w' =
      (if OllamaServer.pid_truthy (pid_snapshot env) then None else proc w).
Proof.
  unfold generate_commit_message, bind. rewrite get_pid_run.
  unfold try_finally. rewrite generate_body_run.
  match goal with
  | |- context [generate_cleanup ?p ?w0] =>
      destruct (generate_cleanup_run p w0) as (w' & E & T & P)
  end.
  exists w'. rewrite E. simpl in T, P.
  split; [destruct (env_llm env _); reflexivity|].
  split; [|exact P].
  rewrite T, <- !app_assoc. reflexivity.
Qed.

(** ** C1: the [finally] block of [generate_commit_message] *)

(** C1, refuted as stated: with no server process found by the
    snapshot ([get_pid] returns [False]), the claim wants [stop] to be
    called in the [finally] block; the run calls it not at all. *)
Lemma generate_no_server_no_stop :
  let d := lit "diff --git a/a.py b/a.py" in
  let r := generate_commit_message env_no_server d world0 in
  pid_snapshot env_no_server = OllamaServer.PyFalse /\
  existsb is_stop_call (trace (snd r)) = false /\
  ~ (existsb is_stop_call (trace (snd r)) = true <->
     pid_snapshot env_no_server = OllamaServer.PyFalse).
Proof.
  vm_compute. split; [reflexivity|]. split; [reflexivity|].
  intros [_ H]. specialize (H eq_refl). discriminate H.
Qed.

(** C1, as the code has it: the [finally] block runs after the [try]
    block whether the model call returned or raised, and it calls
    [stop] exactly when the snapshot [get_pid()] taken before the
    [try] is truthy, that is when [pgrep] found a server process. *)
Theorem generate_commit_message_finally_stop (env : Env) (d : pystr) (w : World) :
  let r := generate_commit_message env d w in
  let filtered := fst (preprocess_diff d None) in
  let cleanup := cleanup_events (pid_snapshot env) (proc w) in
  trace (snd r) = trace w ++ EvPgrep :: EvInference filtered :: cleanup /\
  existsb is_stop_call cleanup = OllamaServer.pid_truthy (pid_snapshot env) /\
  existsb is_stop_call [EvPgrep; EvInference filtered] = false /\
  fst r = match env_llm env filtered with
          | inl e => Raised e
          | inr content =>
              Done (finish_message (snd (preprocess_diff d None)) content)
          end.
Proof.
  cbv zeta.
  destruct (generate_commit_message_run env d w) as (w' & E & T & _).
  rewrite E. simpl fst; simpl snd.
  split; [exact T|]. split; [|split; reflexivity].
  unfold cleanup_events.
  destruct (OllamaServer.pid_truthy (pid_snapshot env)); reflexivity.
Qed.

(** ** [OllamaServer.start] *)

Lemma wait_until_running_S (env : Env) (fuel : nat) (st : N) (w : World) :
  OllamaServer.wait_until_running env (S fuel) st w =
  let w1 := OllamaServer.after_probe env w in
  if snd (env_probe env (probes w)) then (Done tt, w1)
  else if (OllamaServer.timeout <? env_wall env (now w1) - st)%N
       then (Raised OllamaServer.timeout_error, w1)
       else OllamaServer.wait_until_running env fuel st
              (OllamaServer.after_sleep env w1).
Proof.
  simpl. unfold bind, OllamaServer.is_running.
  destruct (snd (env_probe env (probes w))); [reflexivity|].
  unfold time_time.
  destruct (OllamaServer.timeout <? _)%N; reflexivity.
Qed.

Lemma late_failure_poll_trace (env : Env) (st t : N) (ts : list N) :
  existsb (late_failure env st) (poll_trace (t :: ts)) =
  (OllamaServer.timeout <? env_wall env t - st)%N
  || existsb (late_failure env st) (poll_trace ts).
Proof. reflexivity. Qed.

(** What the polling loop leaves behind, by outcome: failed probes
    each followed by a sleep, none of them past the deadline, and then
    the probe that ends the loop. *)
Lemma wait_until_running_shape (env : Env) (fuel : nat) (st : N) :
  forall w,
    let r := OllamaServer.wait_until_running env fuel st w in
    proc (snd r) = proc w /\
    exists ts,
      existsb (late_failure env st) (poll_trace ts) = false /\
      match fst r with
      | Done _ =>
          (length ts < fuel)%nat /\
          exists t,
            trace (snd r) = trace w ++ poll_trace ts ++ [EvProbe t true]
      | Raised e =>
          e = OllamaServer.timeout_error /\
          (length ts < fuel)%nat /\
          exists t,
            trace (snd r) = trace w ++ poll_trace ts ++ [EvProbe t false] /\
            late_failure env st (EvProbe t false) = true
      | OutOfFuel =>
          length ts = fuel /\
          trace (snd r) = trace w ++ poll_trace ts
      end.
Proof.
  induction fuel as [|fuel IH]; intros w; cbv zeta.
  - simpl. split; [reflexivity|]. exists []. simpl.
    rewrite app_nil_r. auto.
  - rewrite wait_until_running_S. cbv zeta.
    destruct (snd (env_probe env (probes w))) eqn:Ealive.
    + simpl. split; [reflexivity|]. exists []. simpl.
      split; [reflexivity|]. split; [lia|].
      eexists. rewrite Ealive. reflexivity.
    + destruct (OllamaServer.timeout <? _)%N eqn:Elate.
      * simpl. split; [reflexivity|]. exists []. simpl.
        split; [reflexivity|]. split; [reflexivity|]. split; [lia|].
        eexists. rewrite Ealive. split; [reflexivity|]. exact Elate.
      * specialize (IH (OllamaServer.after_sleep env
                          (OllamaServer.after_probe env w))).
        cbv zeta in IH.
        destruct (OllamaServer.wait_until_running env fuel st _) as [r w2].
        simpl fst in *; simpl snd in *.
        destruct IH as (Hp & ts & Hin & Hr). split; [exact Hp|].
        simpl trace in Hr. rewrite Ealive in Hr.
        exists (now (OllamaServer.after_probe env w) :: ts).
        split; [rewrite late_failure_poll_trace, Elate; exact Hin|].
        destruct r as [u|e|].
        -- destruct Hr as (Hlen & t & Ht). split; [simpl; lia|].
           exists t. rewrite Ht, <- !app_assoc. reflexivity.
        -- destruct Hr as (He & Hlen & t & Ht & Hlt).
           split; [exact He|]. split; [simpl; lia|].
           exists t. split; [|exact Hlt].
           rewrite Ht, <- !app_assoc. reflexivity.
        -- destruct Hr as (Hlen & Ht). split; [simpl; lia|].
           rewrite Ht, <- !app_assoc. reflexivity.
Qed.

(** With a wall clock that keeps pace and fuel that covers the deadline
    the loop never runs out: every sleep moves the clock by 500 ms or
    more. *)
Lemma wait_until_running_fuel (env : Env) (st : N) :
  clock_keeps_pace env ->
  forall fuel w,
    (1 <= fuel)%nat ->
    (st <= env_wall env (now w))%N ->
    (5500 < 500 * N.of_nat fuel + (env_wall env (now w) - st))%N ->
    fst (OllamaServer.wait_until_running env fuel st w) <> OutOfFuel.
Proof.
  intros Hpace.
  induction fuel as [|fuel IH]; intros w Hpos Hst Hbig; [lia|].
  rewrite wait_until_running_S. cbv zeta.
  destruct (snd (env_probe env (probes w))); [simpl; discriminate|].
  destruct (OllamaServer.timeout <? _)%N eqn:Elate; [simpl; discriminate|].
  apply N.ltb_ge in Elate. unfold OllamaServer.timeout in Elate.
  simpl now in Elate.
  pose proof (Hpace (now w) (fst (env_probe env (probes w)))) as H1.
  pose proof (Hpace (now w + fst (env_probe env (probes w)))%N 500%N) as H2.
  pose proof (Hpace (now w + fst (env_probe env (probes w)) + 500)%N
                (env_oversleep env (sleeps w))) as H3.
  apply IH; unfold OllamaServer.after_sleep, OllamaServer.after_probe;
    simpl now; simpl sleeps; lia.
Qed.

Lemma wait_until_running_more_fuel (env : Env) (st : N) :
  forall fuel w,
    fst (OllamaServer.wait_until_running env fuel st w) <> OutOfFuel ->
    forall fuel', (fuel <= fuel')%nat ->
      OllamaServer.wait_until_running env fuel' st w =
      OllamaServer.wait_until_running env fuel st w.
Proof.
  induction fuel as [|fuel IH]; intros w Hok fuel' Hle.
  - simpl in Hok. congruence.
  - destruct fuel' as [|fuel']; [lia|].
    rewrite !wait_until_running_S in *. cbv zeta in *.
    destruct (snd (env_probe env (probes w))); [reflexivity|].
    destruct (OllamaServer.timeout <? _)%N; [reflexivity|].
    apply IH; [exact Hok | lia].
Qed.

(** A loop whose probes all fail cannot end normally. *)
Lemma wait_until_running_never_alive (env : Env) (st : N) :
  (forall i, snd (env_probe env i) = false) ->
  forall fuel w u,
    fst (OllamaServer.wait_until_running env fuel st w) <> Done u.
Proof.
  intros Hdead. induction fuel as [|fuel IH]; intros w u.
  - simpl. discriminate.
  - rewrite wait_until_running_S. cbv zeta. rewrite Hdead.
    destruct (OllamaServer.timeout <? _)%N; [simpl; discriminate|].
    apply IH.
Qed.

Lemma start_with_fuel_run (env : Env) (fuel : nat) (w : World) :
  OllamaServer.start_with_fuel env fuel w =
  if snd (env_probe env (probes w))
  then (Done tt, OllamaServer.after_probe env w)
  else OllamaServer.wait_until_running env fuel
         (env_wall env (now (OllamaServer.after_probe env w)))
         (after_spawn env (OllamaServer.after_probe env w)).
Proof.
  unfold OllamaServer.start_with_fuel, bind at 1, OllamaServer.is_running.
  destruct (snd (env_probe env (probes w))); [reflexivity|].
  unfold bind, print, emit, OllamaServer.popen, bind, emit, ret, set_proc,
    time_time, after_spawn.
  simpl. rewrite <- app_assoc. reflexivity.
Qed.

(** With a wall clock that keeps pace [start] ends within twelve
    polls: twelve rounds of fuel are enough, and more fuel changes
    nothing. *)
Lemma start_fuel_enough (env : Env) (w : World) :
  clock_keeps_pace env ->
  (12 <= env_polls env)%nat ->
  fst (OllamaServer.start env w) <> OutOfFuel /\
  OllamaServer.start env w = OllamaServer.start_with_fuel env 12 w.
Proof.
  intros Hpace Hpolls. unfold OllamaServer.start.
  assert (H : forall w1, fst (OllamaServer.wait_until_running env 12
                 (env_wall env (now w1)) (after_spawn env w1)) <> OutOfFuel).
  { intros w1. apply wait_until_running_fuel; [exact Hpace| |simpl now..]; lia. }
  assert (E : OllamaServer.start_with_fuel env (env_polls env) w =
              OllamaServer.start_with_fuel env 12 w).
  { rewrite !start_with_fuel_run.
    destruct (snd (env_probe env (probes w))); [reflexivity|].
    apply wait_until_running_more_fuel; [apply H | exact Hpolls]. }
  split; [|exact E].
  rewrite E, start_with_fuel_run.
  destruct (snd (env_probe env (probes w))); [simpl; discriminate|].
  apply H.
Qed.

(** The ways [start] can end, for any amount of fuel. *)
Lemma start_with_fuel_cases (env : Env) (fuel : nat) (w : World) :
  let r := OllamaServer.start_with_fuel env fuel w in
  let w1 := OllamaServer.after_probe env w in
  let st := env_wall env (now w1) in
  (snd (env_probe env (probes w)) = true /\ r = (Done tt, w1)) \/
  (snd (env_probe env (probes w)) = false /\
   proc (snd r) = Some (env_popen env) /\
   exists ts,
     existsb (late_failure env st) (poll_trace ts) = false /\
     (length ts <= fuel)%nat /\
     ((exists t,
         fst r = Done tt /\ (length ts < fuel)%nat /\
         trace (snd r) =
           trace (after_spawn env w1) ++ poll_trace ts ++ [EvProbe t true]) \/
      (exists t,
         fst r = Raised OllamaServer.timeout_error /\
         (length ts < fuel)%nat /\
         trace (snd r) =
           trace (after_spawn env w1) ++ poll_trace ts ++ [EvProbe t false] /\
         late_failure env st (EvProbe t false) = true) \/
      (fst r = OutOfFuel /\
       trace (snd r) = trace (after_spawn env w1) ++ poll_trace ts))).
Proof.
  cbv zeta. rewrite start_with_fuel_run.
  destruct (snd (env_probe env (probes w))) eqn:E; [left; auto|].
  right. split; [reflexivity|].
  pose proof (wait_until_running_shape env fuel
                (env_wall env (now (OllamaServer.after_probe env w)))
                (after_spawn env (OllamaServer.after_probe env w))) as S.
  cbv zeta in S.
  destruct (OllamaServer.wait_until_running env fuel _ _) as [r w2].
  simpl fst in *; simpl snd in *.
  destruct S as (Hp & ts & Hin & Hr). split; [rewrite Hp; reflexivity|].
  exists ts. split; [exact Hin|].
  destruct r as [[]|e|].
  - destruct Hr as (Hlen & t & Ht). split; [lia|]. left. exists t. auto.
  - destruct Hr as (He & Hlen & t & Ht & Hlt). subst e.
    split; [lia|]. right. left. exists t. auto.
  - destruct Hr as (Hlen & Ht). split; [lia|]. right. right. auto.
Qed.

(** The ways [start] can end. *)
Lemma start_cases (env : Env) (w : World) :
  let r := OllamaServer.start env w in
  let w1 := OllamaServer.after_probe env w in
  let st := env_wall env (now w1) in
  (snd (env_probe env (probes w)) = true /\ r = (Done tt, w1)) \/
  (snd (env_probe env (probes w)) = false /\
   proc (snd r) = Some (env_popen env) /\
   exists ts,
     existsb (late_failure env st) (poll_trace ts) = false /\
     ((exists t,
         fst r = Done tt /\
         trace (snd r) =
           trace (after_spawn env w1) ++ poll_trace ts ++ [EvProbe t true]) \/
      (exists t,
         fst r = Raised OllamaServer.timeout_error /\
         trace (snd r) =
           trace (after_spawn env w1) ++ poll_trace ts ++ [EvProbe t false] /\
         late_failure env st (EvProbe t false) = true) \/
      (fst r = OutOfFuel /\
       trace (snd r) = trace (after_spawn env w1) ++ poll_trace ts))).
Proof.
  cbv zeta. unfold OllamaServer.start.
  destruct (start_with_fuel_cases env (env_polls env) w)
    as [H | (Hf & Hp & ts & Hin & _ & H)]; [left; exact H|].
  right. split; [exact Hf|]. split; [exact Hp|].
  exists ts. split; [exact Hin|].
  destruct H as [(t & Hd & _ & Ht) | [(t & Hr & _ & Ht) | H]].
  - left. exists t. auto.
  - right. left. exists t. auto.
  - right. right. exact H.
Qed.

Lemma poll_trace_start_events (ts : list N) :
  forallb is_start_event (poll_trace ts) = true.
Proof. induction ts as [|t ts IH]; simpl; auto. Qed.

(** [start] begins with a liveness probe and only probes, sleeps,
    prints its notice and spawns. *)
Lemma start_trace (env : Env) (w : World) :
  exists t b evs,
    trace (snd (OllamaServer.start env w)) = trace w ++ EvProbe t b :: evs /\
    forallb is_start_event evs = true.
Proof.
  destruct (start_cases env w) as [[_ E] | (_ & _ & ts & _ & H)].
  - rewrite E. simpl. eexists _, _, []. split; reflexivity.
  - assert (Hshape : exists tl,
        trace (snd (OllamaServer.start env w)) =
        trace (after_spawn env (OllamaServer.after_probe env w)) ++
        poll_trace ts ++ tl /\ forallb is_start_event tl = true).
    { destruct H as [(t & _ & H) | [(t & _ & H & _) | (_ & H)]].
      - exists [EvProbe t true]. auto.
      - exists [EvProbe t false]. auto.
      - exists []. rewrite app_nil_r. auto. }
    destruct Hshape as (tl & Hshape & Htl). rewrite Hshape. simpl.
    eexists _, _, _. rewrite <- !app_assoc. simpl. split; [reflexivity|].
    simpl. rewrite forallb_app, poll_trace_start_events. exact Htl.
Qed.

Lemma start_events_no_inference (evs : list event) :
  forallb is_start_event evs = true -> existsb is_inference evs = false.
Proof.
  induction evs as [|e evs IH]; simpl; [reflexivity|].
  intros H. apply andb_prop in H. destruct H as [He Hevs].
  rewrite (IH Hevs). destruct e; try reflexivity; discriminate He.
Qed.

Lemma start_events_no_terminate (evs : list event) :
  forallb is_start_event evs = true -> existsb is_terminate evs = false.
Proof.
  induction evs as [|e evs IH]; simpl; [reflexivity|].
  intros H. apply andb_prop in H. destruct H as [He Hevs].
  rewrite (IH Hevs). destruct e; try reflexivity; discriminate He.
Qed.

(** An exception of [start] ends the entry point on the spot. *)
Lemma main_start_raises (env : Env) (w : World) (e : exn) :
  fst (OllamaServer.start env (fresh_server w)) = Raised e ->
  main env w = OllamaServer.start env (fresh_server w).
Proof.
  intros H. unfold main, bind at 1, OllamaServer.init, set_proc.
  fold (fresh_server w). unfold bind at 1.
  destruct (OllamaServer.start env (fresh_server w)) as [r w1].
  simpl in H. subst r. reflexivity.
Qed.

(** The entry point on a blank diff, once [start] has returned. *)
Lemma main_on_blank_input (env : Env) (w w1 : World) :
  truthy (strip (env_input env)) = false ->
  OllamaServer.start env (fresh_server w) = (Done tt, w1) ->
  main env w =
  (Raised (SystemExit 1),
   {| proc := proc w1; now := now w1; probes := probes w1;
      sleeps := sleeps w1;
      trace := trace w1 ++ [EvReadInput; EvPrint MsgNoDiffProvided] |}).
Proof.
  intros Hblank H. unfold main, bind at 1, OllamaServer.init, set_proc.
  fold (fresh_server w). unfold bind at 1. rewrite H.
  unfold bind at 1, read_input, bind at 1, emit, ret. cbv iota beta.
  rewrite Hblank. simpl. unfold bind, print, emit, raise. simpl.
  rewrite <- app_assoc. reflexivity.
Qed.

(** ** C4: a blank diff at the entry point *)

(** C4, refuted as stated: on a whitespace-only diff the entry point
    exits with status 1 and its diagnostic, but the first thing it did
    was a liveness probe of the inference server. *)
Lemma main_blank_input_probes_first :
  truthy (strip (env_input env_server_up)) = false /\
  main env_server_up world0 =
    (Raised (SystemExit 1),
     {| proc := None; now := 3; probes := 1; sleeps := 0;
        trace := [EvProbe 3 true; EvReadInput; EvPrint MsgNoDiffProvided] |}) /\
  existsb is_probe
    (firstn 1 (trace (snd (main env_server_up world0)))) = true.
Proof. vm_compute. repeat split. Qed.

(** With no server reachable the blank diff is not even looked at: the
    entry point spawns a server, polls, and ends with the start-up
    error, leaving the spawned process recorded. *)
Lemma main_blank_input_server_down :
  truthy (strip (env_input env_no_server)) = false /\
  fst (main env_no_server world0) = Raised OllamaServer.timeout_error /\
  proc (snd (main env_no_server world0)) = Some 4242%N /\
  In (EvSpawn 4242%N) (trace (snd (main env_no_server world0))) /\
  ~ In (EvPrint MsgNoDiffProvided) (trace (snd (main env_no_server world0))) /\
  ~ In EvReadInput (trace (snd (main env_no_server world0))).
Proof.
  vm_compute. repeat split; auto 20.
  - intros H. repeat (destruct H as [H|H]; [discriminate H|]). exact H.
  - intros H. repeat (destruct H as [H|H]; [discriminate H|]). exact H.
Qed.

(** C4, as the code has it: [server.start()] comes first.  When it
    has returned and the diff read is empty or whitespace-only, the
    entry point prints its diagnostic and exits with status 1; what
    precedes is a liveness probe and the other steps of [start], and
    neither the process snapshot nor an inference call happens. *)
Theorem main_blank_input_exit (env : Env) (w : World) :
  truthy (strip (env_input env)) = false ->
  fst (OllamaServer.start env (fresh_server w)) = Done tt ->
  let r := main env w in
  fst r = Raised (SystemExit 1) /\
  exit_code (fst r) = Some 1%N /\
  exists t b evs,
    trace (snd r) =
      trace w ++ EvProbe t b :: evs ++ [EvReadInput; EvPrint MsgNoDiffProvided] /\
    forallb is_start_event evs = true /\
    existsb is_inference
      (EvProbe t b :: evs ++ [EvReadInput; EvPrint MsgNoDiffProvided]) = false.
Proof.
  intros Hblank Hstart. cbv zeta.
  destruct (OllamaServer.start env (fresh_server w)) as [r1 w1] eqn:E.
  simpl in Hstart. subst r1.
  rewrite (main_on_blank_input env w Hblank E). simpl.
  split; [reflexivity|]. split; [reflexivity|].
  destruct (start_trace env (fresh_server w)) as (t & b & evs & T & F).
  rewrite E in T. simpl in T.
  exists t, b, evs. rewrite T, <- app_assoc. simpl.
  split; [reflexivity|]. split; [exact F|].
  rewrite existsb_app, (start_events_no_inference _ F). reflexivity.
Qed.

Lemma main_blank_input_exit_witness :
  truthy (strip (env_input env_server_up)) = false /\
  fst (main env_server_up world0) = Raised (SystemExit 1).
Proof.
  split; [reflexivity|].
  apply (main_blank_input_exit env_server_up world0); reflexivity.
Defined.

(** ** C8: the start-up deadline *)

Lemma events_since_app (w w' : World) (evs : list event) :
  trace w' = trace w ++ evs -> events_since w w' = evs.
Proof.
  intros E. unfold events_since. rewrite E, skipn_app, Nat.sub_diag.
  rewrite skipn_all. reflexivity.
Qed.

(** A list without elements of a kind [P] does not split at one. *)
Lemma none_of_kind (A : Type) (P : A -> bool) (l pre post : list A) (e : A) :
  existsb P l = false -> l = pre ++ e :: post -> P e = true -> False.
Proof.
  intros Hl -> He. rewrite existsb_app in Hl. simpl in Hl.
  rewrite He, orb_true_r in Hl. discriminate Hl.
Qed.

(** An element of a kind [P] in a list that has one element of that
    kind sits where that element is. *)
Lemma split_at_only (A : Type) (P : A -> bool) (a b : list A) (x : A) :
  existsb P a = false -> existsb P b = false ->
  forall pre e post, a ++ x :: b = pre ++ e :: post -> P e = true ->
    pre = a /\ e = x /\ post = b.
Proof.
  intros Ha Hb. induction a as [|y a IH]; intros pre e post E He.
  - destruct pre as [|p pre]; simpl in E.
    + injection E as <- <-. auto.
    + injection E as _ E. exfalso.
      exact (@none_of_kind _ _ _ _ _ _ Hb E He).
  - simpl in Ha. apply orb_false_iff in Ha. destruct Ha as [Hy Ha].
    destruct pre as [|p pre]; simpl in E.
    + injection E as <- _. congruence.
    + injection E as <- E. destruct (IH Ha pre e post E He) as (-> & -> & ->).
      auto.
Qed.

(** The probe before the spawn is not past the deadline: the clock is
    read right after it. *)
Lemma first_probe_not_late (env : Env) (w : World) (b : bool) :
  late_failure env (env_wall env (now (OllamaServer.after_probe env w)))
    (EvProbe (now (OllamaServer.after_probe env w)) b) = false.
Proof.
  destruct b; [reflexivity|]. simpl. rewrite N.sub_diag. reflexivity.
Qed.

(** What [start] records: events none of which is a failed probe past
    the deadline, and then the probe that ends it. *)
Lemma start_ends_at_late_failure (env : Env) (w : World) :
  let r := OllamaServer.start env w in
  let st := env_wall env (now (OllamaServer.after_probe env w)) in
  exists body tl,
    events_since w (snd r) = body ++ tl /\
    existsb (late_failure env st) body = false /\
    ((fst r = Done tt /\ exists t, tl = [EvProbe t true]) \/
     (fst r = Raised OllamaServer.timeout_error /\
      exists t, tl = [EvProbe t false] /\
                late_failure env st (EvProbe t false) = true) \/
     (fst r = OutOfFuel /\ tl = [])).
Proof.
  cbv zeta.
  destruct (start_cases env w) as [[Ha E] | (Hf & _ & ts & Hin & H)].
  - rewrite E. exists [], [EvProbe (now (OllamaServer.after_probe env w)) true].
    split; [apply events_since_app; simpl; rewrite Ha; reflexivity|].
    split; [reflexivity|]. left. split; [reflexivity|]. eauto.
  - pose proof (first_probe_not_late env w false) as H0.
    set (st := env_wall env (now (OllamaServer.after_probe env w))) in *.
    exists ([EvProbe (now (OllamaServer.after_probe env w)) false;
             EvPrint MsgStartingServer; EvSpawn (env_popen env)]
              ++ poll_trace ts).
    assert (Hbody : existsb (late_failure env st)
              ([EvProbe (now (OllamaServer.after_probe env w)) false;
                EvPrint MsgStartingServer; EvSpawn (env_popen env)]
                 ++ poll_trace ts) = false).
    { rewrite existsb_app, Hin. cbn [existsb].
      rewrite H0. reflexivity. }
    assert (Htr : forall tl,
              trace (snd (OllamaServer.start env w)) =
                trace (after_spawn env (OllamaServer.after_probe env w))
                  ++ poll_trace ts ++ tl ->
              events_since w (snd (OllamaServer.start env w)) =
                ([EvProbe (now (OllamaServer.after_probe env w)) false;
                  EvPrint MsgStartingServer; EvSpawn (env_popen env)]
                   ++ poll_trace ts) ++ tl).
    { intros tl T. apply events_since_app. rewrite T. simpl.
      rewrite Hf, <- !app_assoc. reflexivity. }
    destruct H as [(t & Hd & T) | [(t & Hr & T & Hl) | (Ho & T)]].
    + exists [EvProbe t true]. split; [exact (Htr _ T)|].
      split; [exact Hbody|]. left. eauto.
    + exists [EvProbe t false]. split; [exact (Htr _ T)|].
      split; [exact Hbody|]. right. left. eauto.
    + exists []. split; [apply Htr; rewrite app_nil_r; exact T|].
      split; [exact Hbody|]. right. right. auto.
Qed.

(** The polls of [start] after the spawn, one by one. *)
Lemma start_polls (env : Env) (w : World) :
  snd (env_probe env (probes w)) = false ->
  let r := OllamaServer.start env w in
  let w1 := OllamaServer.after_probe env w in
  let st := env_wall env (now w1) in
  exists ts tl,
    events_since w (snd r) =
      EvProbe (now w1) false :: EvPrint MsgStartingServer
        :: EvSpawn (env_popen env) :: poll_trace ts ++ tl /\
    existsb (late_failure env st) (poll_trace ts) = false /\
    ((fst r = Done tt /\ exists t, tl = [EvProbe t true]) \/
     (fst r = Raised OllamaServer.timeout_error /\
      exists t, tl = [EvProbe t false] /\
                late_failure env st (EvProbe t false) = true) \/
     (fst r = OutOfFuel /\ tl = [] /\ length ts = env_polls env)).
Proof.
  intros Hf. cbv zeta. unfold OllamaServer.start.
  rewrite start_with_fuel_run, Hf.
  pose proof (wait_until_running_shape env (env_polls env)
                (env_wall env (now (OllamaServer.after_probe env w)))
                (after_spawn env (OllamaServer.after_probe env w))) as S.
  cbv zeta in S.
  destruct (OllamaServer.wait_until_running env (env_polls env) _ _)
    as [r w2].
  simpl fst in *; simpl snd in *.
  destruct S as (_ & ts & Hin & Hr). exists ts.
  assert (Htr : forall tl,
            trace w2 =
              trace (after_spawn env (OllamaServer.after_probe env w))
                ++ poll_trace ts ++ tl ->
            events_since w w2 =
              EvProbe (now (OllamaServer.after_probe env w)) false
                :: EvPrint MsgStartingServer
                :: EvSpawn (env_popen env) :: poll_trace ts ++ tl).
  { intros tl T. apply events_since_app. rewrite T. simpl.
    rewrite Hf, <- !app_assoc. reflexivity. }
  destruct r as [[]|e|].
  - destruct Hr as (_ & t & T). exists [EvProbe t true].
    split; [exact (Htr _ T)|]. split; [exact Hin|]. left. eauto.
  - destruct Hr as (-> & _ & t & T & Hl). exists [EvProbe t false].
    split; [exact (Htr _ T)|]. split; [exact Hin|]. right. left. eauto.
  - destruct Hr as (Hlen & T). exists [].
    split; [apply Htr; rewrite app_nil_r; exact T|].
    split; [exact Hin|]. right. right. auto.
Qed.

(** C8, refuted as stated: the server is spawned at time 0, no probe
    answers [true] within 5000 ms (the one at 4900 ms fails), and the
    probe at 5500 ms succeeds; [start] returns normally. *)
Lemma start_accepts_late_server :
  let r := OllamaServer.start env_late_server world0 in
  fst r = Done tt /\
  trace (snd r) =
    [EvProbe 0 false; EvPrint MsgStartingServer; EvSpawn 4242;
     EvProbe 4900 false; EvSleep; EvProbe 5500 true] /\
  forallb (fun e => match e with
                    | EvProbe t true => (OllamaServer.timeout <? t)%N
                    | _ => true
                    end) (trace (snd r)) = true.
Proof. vm_compute. repeat split. Qed.

(** The deadline is counted on the wall clock: when that clock is set
    back by three seconds during the polling, [start] gives up after
    nineteen probes and seventeen sleeps, 8.5 s after the spawn. *)
Lemma start_polls_longer_when_clock_set_back :
  let r := OllamaServer.start env_clock_set_back world0 in
  fst r = Raised OllamaServer.timeout_error /\
  count_events is_probe (trace (snd r)) = 19%nat /\
  count_events is_sleep (trace (snd r)) = 17%nat /\
  last (trace (snd r)) EvSleep = EvProbe 8500 false /\
  ~ clock_keeps_pace env_clock_set_back.
Proof.
  cbv zeta. split; [vm_compute; reflexivity|].
  split; [vm_compute; reflexivity|].
  split; [vm_compute; reflexivity|].
  split; [vm_compute; reflexivity|].
  intros H. specialize (H 2999%N 1%N). vm_compute in H. apply H. reflexivity.
Qed.

(** C8, as the code has it.  After the spawn [start] reads the clock
    and polls; a failed probe at which the clock reads more than
    5000 ms above that first reading is the last thing [start] does,
    and it raises the start-up timeout to its caller there; it raises
    in no other way, and the entry point then ends with that error
    without any inference call.  A probe answered [true] ends [start]
    normally however late it comes.  When the clock keeps pace with
    the elapsed time, twelve polls are all [start] can make, and it
    raises if no probe ever answers [true].  In every case what
    [start] does after the spawn is a run of failed probes that are
    not past the deadline, each followed by a half-second sleep, and
    then the probe that ends it. *)
Theorem start_raises_on_timeout (env : Env) (w : World) :
  let r := OllamaServer.start env (fresh_server w) in
  let w1 := OllamaServer.after_probe env (fresh_server w) in
  let start_time := env_wall env (now w1) in
  let evs := events_since w (snd r) in
  (forall pre e post,
     evs = pre ++ e :: post ->
     late_failure env start_time e = true ->
     post = [] /\ fst r = Raised OllamaServer.timeout_error) /\
  (forall e, fst r = Raised e ->
     e = OllamaServer.timeout_error /\
     (exists ts t,
        trace (snd r) =
          trace w1 ++ [EvPrint MsgStartingServer; EvSpawn (env_popen env)]
                   ++ poll_trace ts ++ [EvProbe t false] /\
        late_failure env start_time (EvProbe t false) = true /\
        existsb (late_failure env start_time) (poll_trace ts) = false) /\
     fst (main env w) = Raised e /\
     exists evs0,
       trace (snd (main env w)) = trace w ++ evs0 /\
       existsb is_inference evs0 = false) /\
  (fst r = Done tt ->
   existsb (late_failure env start_time) evs = false /\
   exists evs0 t, evs = evs0 ++ [EvProbe t true]) /\
  (clock_keeps_pace env -> (12 <= env_polls env)%nat ->
   fst r <> OutOfFuel /\
   ((forall i, snd (env_probe env i) = false) ->
    fst r = Raised OllamaServer.timeout_error)) /\
  (snd (env_probe env (probes w)) = false ->
   exists ts tl,
     evs = EvProbe (now w1) false :: EvPrint MsgStartingServer
             :: EvSpawn (env_popen env) :: poll_trace ts ++ tl /\
     existsb (late_failure env start_time) (poll_trace ts) = false /\
     ((fst r = Done tt /\ exists t, tl = [EvProbe t true]) \/
      (fst r = Raised OllamaServer.timeout_error /\
       exists t, tl = [EvProbe t false] /\
                 late_failure env start_time (EvProbe t false) = true) \/
      (fst r = OutOfFuel /\ tl = [] /\ length ts = env_polls env))).
Proof.
  cbv zeta.
  destruct (start_ends_at_late_failure env (fresh_server w))
    as (body & tl & Hev & Hbody & Hend).
  cbv zeta in Hev, Hbody, Hend.
  change (events_since (fresh_server w)) with (events_since w) in Hev.
  split; [|split; [|split; [|split]]];
    [| | | |exact (start_polls env (fresh_server w))].
  - intros pre e post E Hlate. rewrite Hev in E.
    destruct Hend as [(_ & t & ->) | [(Hr & t & -> & _) | (_ & ->)]].
    + exfalso.
      assert (Hall : existsb
                (late_failure env
                   (env_wall env
                      (now (OllamaServer.after_probe env (fresh_server w)))))
                (body ++ [EvProbe t true]) = false)
        by (rewrite existsb_app, Hbody; reflexivity).
      exact (@none_of_kind _ _ _ _ _ _ Hall E Hlate).
    + destruct (@split_at_only _ _ _ [] _ Hbody eq_refl _ _ _ E Hlate)
        as (_ & _ & ->).
      auto.
    + exfalso. rewrite app_nil_r in E.
      exact (@none_of_kind _ _ _ _ _ _ Hbody E Hlate).
  - intros e He.
    pose proof (main_start_raises env w He) as Hmain.
    destruct (start_trace env (fresh_server w)) as (t0 & b0 & evs & T & F).
    assert (Hevs : fst (main env w) = Raised e /\
                   exists evs0, trace (snd (main env w)) = trace w ++ evs0 /\
                                existsb is_inference evs0 = false).
    { rewrite Hmain. split; [exact He|].
      exists (EvProbe t0 b0 :: evs). split; [exact T|].
      simpl. apply start_events_no_inference, F. }
    destruct (start_cases env (fresh_server w))
      as [[_ E] | (_ & _ & ts & Hin & [(t & Hd & _) | [(t & Hr & Ht & Hl) | (Ho & _)]])].
    + rewrite E in He. discriminate He.
    + rewrite Hd in He. discriminate He.
    + rewrite Hr in He. injection He as <-.
      split; [reflexivity|]. split; [|exact Hevs].
      exists ts, t. split; [|split; [exact Hl|exact Hin]].
      rewrite Ht. unfold after_spawn. simpl. rewrite <- app_assoc.
      reflexivity.
    + rewrite Ho in He. discriminate He.
  - intros Hd. rewrite Hev.
    destruct Hend as [(_ & t & ->) | [(Hr & _) | (Ho & _)]];
      [|congruence..].
    split; [rewrite existsb_app, Hbody; reflexivity|eauto].
  - intros Hpace Hpolls.
    destruct (@start_fuel_enough env (fresh_server w) Hpace Hpolls) as [Hfuel _].
    split; [exact Hfuel|]. intros Hdead.
    destruct (start_cases env (fresh_server w))
      as [[Ha _] | (_ & _ & ts & _ & [(t & Hd & _) | [(t & Hr & _) | (Ho & _)]])].
    + rewrite Hdead in Ha. discriminate Ha.
    + exfalso. unfold OllamaServer.start in Hd.
      rewrite start_with_fuel_run, Hdead in Hd.
      revert Hd. apply wait_until_running_never_alive. exact Hdead.
    + exact Hr.
    + contradiction.
Qed.

Lemma start_raises_on_timeout_witness :
  let r := OllamaServer.start env_no_server (fresh_server world0) in
  let evs := events_since world0 (snd r) in
  (evs = firstn 25 evs ++ EvProbe 5500 false :: [] /\
   late_failure env_no_server 0 (EvProbe 5500 false) = true) /\
  (clock_keeps_pace env_no_server /\
   (12 <= env_polls env_no_server)%nat /\
   (forall i, snd (env_probe env_no_server i) = false)) /\
  fst r = Raised OllamaServer.timeout_error /\
  fst (main env_no_server world0) = Raised OllamaServer.timeout_error.
Proof.
  cbv zeta.
  assert (Hsplit :
            events_since world0
              (snd (OllamaServer.start env_no_server (fresh_server world0))) =
            firstn 25
              (events_since world0
                 (snd (OllamaServer.start env_no_server
                         (fresh_server world0))))
              ++ EvProbe 5500 false :: [])
    by (vm_compute; reflexivity).
  assert (Hlate : late_failure env_no_server 0 (EvProbe 5500 false) = true)
    by reflexivity.
  assert (Hpace : clock_keeps_pace env_no_server)
    by (intros t d; simpl; lia).
  assert (Hpolls : (12 <= env_polls env_no_server)%nat)
    by (simpl; lia).
  assert (Hdead : forall i, snd (env_probe env_no_server i) = false)
    by (intros i; reflexivity).
  destruct (start_raises_on_timeout env_no_server world0)
    as (Hend & Hshape & _ & Htotal & _).
  destruct (Hend _ _ _ Hsplit Hlate) as [_ Hraised].
  destruct (Htotal Hpace Hpolls) as [_ Hraise].
  split; [split; [exact Hsplit|exact Hlate]|].
  split; [split; [exact Hpace|split; [exact Hpolls|exact Hdead]]|].
  split; [exact (Hraise Hdead)|].
  destruct (Hshape _ Hraised) as (_ & _ & Hmain & _).
  exact Hmain.
Defined.

(** ** C10: ownership after a failed start *)

(** C10: when [start] has spawned a process and raises its timeout,
    [self.proc] is that process and [start] has terminated nothing; a
    following [stop] terminates that process and only it.  [stop] with
    no recorded process terminates nothing, which is also what happens
    after [start] returned early on a server already running. *)
Theorem failed_start_keeps_proc (env : Env) (w : World) :
  let r := OllamaServer.start env (fresh_server w) in
  (forall e, fst r = Raised e ->
     proc (snd r) = Some (env_popen env) /\
     (exists evs,
        trace (snd r) = trace w ++ evs /\
        In (EvSpawn (env_popen env)) evs /\
        existsb is_terminate evs = false) /\
     fst (OllamaServer.stop (snd r)) = Done tt /\
     proc (snd (OllamaServer.stop (snd r))) = None /\
     trace (snd (OllamaServer.stop (snd r))) =
       trace (snd r) ++
       [EvStopCalled; EvTerminate (env_popen env); EvWait (env_popen env)]) /\
  (forall w0, proc w0 = None ->
     trace (snd (OllamaServer.stop w0)) = trace w0 ++ [EvStopCalled]) /\
  (snd (env_probe env (probes w)) = true ->
     fst r = Done tt /\
     proc (snd r) = None /\
     existsb is_terminate [EvStopCalled] = false /\
     trace (snd (OllamaServer.stop (snd r))) = trace (snd r) ++ [EvStopCalled]).
Proof.
  cbv zeta. split; [|split].
  - intros e He.
    destruct (start_cases env (fresh_server w))
      as [[_ E] | (_ & Hp & ts & _ &
                   [(t & Hd & _) | [(t & Hr & Ht & _) | (Ho & _)]])].
    + rewrite E in He. discriminate He.
    + rewrite Hd in He. discriminate He.
    + split; [exact Hp|]. split.
      * eexists. rewrite Ht. unfold after_spawn. simpl.
        rewrite <- !app_assoc. split; [reflexivity|]. split.
        -- apply in_or_app. right. simpl. auto.
        -- rewrite existsb_app. simpl. rewrite existsb_app. simpl.
           rewrite (start_events_no_terminate _ (poll_trace_start_events ts)).
           reflexivity.
      * rewrite stop_run, Hp. simpl. auto.
    + rewrite Ho in He. discriminate He.
  - intros w0 H0. rewrite stop_run, H0. reflexivity.
  - intros Halive.
    destruct (start_cases env (fresh_server w)) as [[_ E] | (Hf & _)].
    + rewrite E, stop_run. simpl. repeat split.
    + simpl in Hf. rewrite Halive in Hf. discriminate Hf.
Qed.

Lemma failed_start_keeps_proc_witness :
  fst (OllamaServer.start env_no_server (fresh_server world0)) =
    Raised OllamaServer.timeout_error /\
  proc (snd (OllamaServer.start env_no_server (fresh_server world0))) =
    Some (env_popen env_no_server) /\
  snd (env_probe env_server_up (probes world0)) = true /\
  proc (snd (OllamaServer.start env_server_up (fresh_server world0))) = None.
Proof.
  destruct (failed_start_keeps_proc env_no_server world0) as (H1 & _ & _).
  destruct (failed_start_keeps_proc env_server_up world0) as (_ & _ & H3).
  split; [reflexivity|].
  split; [exact (proj1 (H1 OllamaServer.timeout_error eq_refl))|].
  split; [reflexivity|].
  exact (proj1 (proj2 (H3 eq_refl))).
Defined.

(** ** C7: the note and the boilerplate prefix *)

Lemma re_match_star_cons (cls : N -> bool) (r : list re_item)
    (c : N) (s : pystr) :
  re_match (ReStar cls :: r) (c :: s) =
  if cls c then
    match re_match (ReStar cls :: r) s with
    | Some rest => Some rest
    | None => re_match r (c :: s)
    end
  else re_match r (c :: s).
Proof. reflexivity. Qed.

Lemma re_match_star_nil (cls : N -> bool) (r : list re_item) :
  re_match (ReStar cls :: r) [] = re_match r [].
Proof. reflexivity. Qed.

(** A trailing [\s*] eats exactly the leading whitespace. *)
Lemma re_match_trailing_space (s : pystr) :
  re_match [ReStar is_space] s = Some (lstrip s).
Proof.
  induction s as [|c s IH]; [reflexivity|].
  rewrite re_match_star_cons. simpl lstrip.
  destruct (is_space c); [rewrite IH|]; reflexivity.
Qed.

(** A greedy star followed by a continuation that matches right after
    the run of class characters. *)
Lemma re_match_star_run (cls : N -> bool) (r : list re_item)
    (ws s rest : pystr) :
  Forall (fun c => cls c = true) ws ->
  re_match r s = Some rest ->
  (forall c s', s = c :: s' -> cls c = false) ->
  re_match (ReStar cls :: r) (ws ++ s) = Some rest.
Proof.
  intros Hws Hr Hs. induction Hws as [|c ws Hc _ IH]; simpl app.
  - destruct s as [|c s'].
    + rewrite re_match_star_nil. exact Hr.
    + rewrite re_match_star_cons, (Hs c s' eq_refl). exact Hr.
  - rewrite re_match_star_cons, Hc, IH. reflexivity.
Qed.

Lemma ignorecase_literal_lower (c x : N) :
  ascii_lower x = ascii_lower c -> ignorecase_literal c x = true.
Proof.
  unfold ascii_lower, ignorecase_literal, ascii_swapcase.
  intros H. apply orb_true_iff. left. apply orb_true_iff.
  rewrite !N.eqb_eq.
  repeat match goal with
         | _ : context [(?a <=? ?b)%N] |- _ => destruct (N.leb_spec a b)
         | |- context [(?a <=? ?b)%N] => destruct (N.leb_spec a b)
         end; simpl in *; lia.
Qed.

(** The literal part of the pattern accepts any spelling of it that
    differs in ASCII case only. *)
Lemma re_match_literal (r : list re_item) (tail : pystr) :
  forall p pre,
    caseless_eq pre p ->
    re_match (map (fun c => ReChar (ignorecase_literal c)) p ++ r)
             (pre ++ tail) = re_match r tail.
Proof.
  unfold caseless_eq.
  induction p as [|c p IH]; intros [|x pre] H; try discriminate H.
  - reflexivity.
  - simpl in H. injection H as Hx Hrest.
    simpl. rewrite (ignorecase_literal_lower _ _ Hx). apply IH, Hrest.
Qed.

(** The whole pattern on [whitespace, prefix, tail]. *)
Lemma re_sub_commit_prefix (ws pre tail : pystr) :
  Forall (fun c => is_space c = true) ws ->
  caseless_eq pre commit_message_prefix ->
  re_sub_anchored commit_prefix_pattern [] (ws ++ pre ++ tail) = lstrip tail.
Proof.
  intros Hws Hpre. unfold re_sub_anchored, commit_prefix_pattern.
  rewrite (@re_match_star_run is_space _ ws (pre ++ tail) (lstrip tail) Hws).
  - reflexivity.
  - rewrite (re_match_literal _ _ Hpre). apply re_match_trailing_space.
  - intros c s' E.
    destruct pre as [|x pre]; [discriminate Hpre|].
    injection Hpre as Hx _. injection E as <- _.
    unfold ascii_lower in Hx. simpl in Hx.
    destruct ((65 <=? x) && (x <=? 90))%N eqn:B.
    + apply andb_prop in B. destruct B as [B1 B2].
      apply N.leb_le in B1, B2. lia.
    + subst x. reflexivity.
Qed.

(** C7: with an omission the note is put after the raw response, and
    then a leading ["**Commit Message:**"], in any ASCII case and with
    the whitespace after it, is removed; a response that starts with
    neither whitespace nor an asterisk only gets the note; the worked
    example gives ["Fix off-by-one in parser"]; and this is what
    [generate_commit_message] returns when the model call succeeds. *)
Theorem finish_message_strips_prefix :
  (forall response,
     finish_message true response =
     finish_message false (response ++ documentation_note)) /\
  (forall note pre tail,
     caseless_eq pre commit_message_prefix ->
     finish_message note (pre ++ tail) =
     lstrip (tail ++ if note then documentation_note else [])) /\
  (forall note c response,
     is_space c = false -> c <> 42%N ->
     finish_message note (c :: response) =
     (c :: response) ++ if note then documentation_note else []) /\
  finish_message false (lit "**Commit Message:** Fix off-by-one in parser") =
    lit "Fix off-by-one in parser" /\
  (forall env d w content,
     env_llm env (fst (preprocess_diff d None)) = inr content ->
     fst (generate_commit_message env d w) =
     Done (finish_message (snd (preprocess_diff d None)) content)).
Proof.
  split; [reflexivity|]. split; [|split; [|split]].
  - intros note pre tail Hpre. unfold finish_message.
    assert (E : forall t, re_sub_anchored commit_prefix_pattern [] (pre ++ t)
                          = lstrip t).
    { intros t. apply (@re_sub_commit_prefix [] pre t (Forall_nil _) Hpre). }
    destruct note.
    + rewrite <- app_assoc. apply E.
    + rewrite app_nil_r. apply E.
  - intros note c response Hc H42. unfold finish_message.
    assert (E : forall t, re_sub_anchored commit_prefix_pattern [] (c :: t)
                          = c :: t).
    { intros t.
      assert (L : ignorecase_literal 42 c = false).
      { unfold ignorecase_literal.
        change (ascii_swapcase 42) with 42%N.
        change (ignorecase_extra 42) with (@nil N). simpl.
        destruct (N.eqb_spec c 42); [contradiction|reflexivity]. }
      assert (P : exists r, commit_prefix_pattern =
                 ReStar is_space :: ReChar (ignorecase_literal 42) :: r)
        by (eexists; reflexivity).
      destruct P as [r P]. unfold re_sub_anchored. rewrite P.
      rewrite re_match_star_cons, Hc.
      change (re_match (ReChar (ignorecase_literal 42) :: r) (c :: t))
        with (if ignorecase_literal 42 c then re_match r t else None).
      rewrite L. reflexivity. }
    destruct note.
    + simpl app. apply E.
    + rewrite app_nil_r. apply E.
  - vm_compute. reflexivity.
  - intros env d w content H.
    destruct (generate_commit_message_run env d w) as (w' & E & _).
    rewrite E, H. reflexivity.
Qed.

Lemma finish_message_strips_prefix_witness :
  caseless_eq (lit "**COMMIT message:**") commit_message_prefix /\
  finish_message true (lit "**COMMIT message:**" ++ lit "  Add tests") =
    lit "Add tests and updated documentation accordingly" /\
  finish_message true (lit "Add tests") =
    lit "Add tests and updated documentation accordingly" /\
  fst (generate_commit_message env_server_up
         (lit "diff --git a/a.py b/a.py") world0) =
    Done (lit "Fix off-by-one in parser").
Proof.
  destruct finish_message_strips_prefix as (_ & Hstrip & Hkeep & _ & Hgen).
  split; [reflexivity|]. split; [|split].
  - rewrite (Hstrip true (lit "**COMMIT message:**") (lit "  Add tests"));
      reflexivity.
  - apply (Hkeep true 65%N (lit "dd tests")); [reflexivity|discriminate].
  - rewrite (Hgen env_server_up (lit "diff --git a/a.py b/a.py") world0
               (lit "**Commit Message:** Fix off-by-one in parser"));
      reflexivity.
Defined.

(** ** Dictionaries *)

Lemma pystr_eqb_eq (a b : pystr) : pystr_eqb a b = true <-> a = b.
Proof.
  unfold pystr_eqb. destruct (list_eq_dec N.eq_dec a b); split; congruence.
Qed.

Lemma pystr_eqb_refl (a : pystr) : pystr_eqb a a = true.
Proof. apply pystr_eqb_eq. reflexivity. Qed.

Lemma pystr_eqb_neq (a b : pystr) : a <> b -> pystr_eqb a b = false.
Proof.
  intros H. destruct (pystr_eqb a b) eqn:E; [|reflexivity].
  apply pystr_eqb_eq in E. contradiction.
Qed.

Section DictFacts.
Context {V : Type}.
Implicit Types (d : dict V) (k : pystr) (v : V).

Lemma setitem_fresh k v d :
  ~ In k (keys d) -> setitem k v d = d ++ [(k, v)].
Proof.
  induction d as [|[k' v'] d IH]; simpl; intros H; [reflexivity|].
  rewrite pystr_eqb_neq by tauto. rewrite IH by tauto. reflexivity.
Qed.

Lemma keys_setitem k v d :
  keys (setitem k v d) = if in_dec (list_eq_dec N.eq_dec) k (keys d)
                         then keys d else keys d ++ [k].
Proof.
  induction d as [|[k' v'] d IH]; simpl; [reflexivity|].
  destruct (pystr_eqb k' k) eqn:E.
  - apply pystr_eqb_eq in E. subst k'. simpl.
    destruct (list_eq_dec N.eq_dec k k); [|congruence].
    reflexivity.
  - simpl. fold (keys (setitem k v d)). rewrite IH.
    destruct (list_eq_dec N.eq_dec k' k) as [->|Hne].
    + rewrite pystr_eqb_refl in E. discriminate E.
    + destruct (in_dec (list_eq_dec N.eq_dec) k (keys d)); reflexivity.
Qed.

Lemma in_keys_setitem k v d k' :
  In k' (keys (setitem k v d)) <-> k' = k \/ In k' (keys d).
Proof.
  rewrite keys_setitem.
  destruct (in_dec (list_eq_dec N.eq_dec) k (keys d)) as [Hin|Hout].
  - split; [auto|]. intros [->|H]; assumption.
  - rewrite in_app_iff. simpl. split; intros H; intuition congruence.
Qed.

Lemma NoDup_keys_setitem k v d :
  NoDup (keys d) -> NoDup (keys (setitem k v d)).
Proof.
  intros H. rewrite keys_setitem.
  destruct (in_dec (list_eq_dec N.eq_dec) k (keys d)) as [Hin|Hout];
    [exact H|].
  apply NoDup_app; [exact H | repeat constructor; simpl; tauto |].
  intros x Hx [<-|[]]. contradiction.
Qed.



Lemma Forall_setitem (P : pystr * V -> Prop) k v d :
  Forall P d -> P (k, v) -> Forall P (setitem k v d).
Proof.
  intros Hd Hkv. induction Hd as [|[k' v'] d Hx Hd IH]; simpl.
  - constructor; [exact Hkv | constructor].
  - destruct (pystr_eqb k' k) eqn:E.
    + apply pystr_eqb_eq in E. subst k'. constructor; assumption.
    + constructor; assumption.
Qed.

End DictFacts.

Lemma map_values_setitem {V W : Type} (f : V -> W) k v (d : dict V) :
  map (fun kv => (fst kv, f (snd kv))) (setitem k v d) =
  setitem k (f v) (map (fun kv => (fst kv, f (snd kv))) d).
Proof.
  induction d as [|[k' v'] d IH]; simpl; [reflexivity|].
  destruct (pystr_eqb k' k); simpl; [reflexivity|]. rewrite IH. reflexivity.
Qed.

(** ** The loop of [split_diff_by_file] *)

Lemma split_step_content (st : split_state) (line : pystr) :
  is_header line = false ->
  split_step st line =
  {| file_diffs := file_diffs st; current_file := current_file st;
     lines := lines st ++ [line] |}.
Proof. unfold split_step. intros ->. reflexivity. Qed.

Lemma split_step_header (st : split_state) (line : pystr) :
  is_header line = true ->
  split_step st line =
  {| file_diffs := save_current st;
     current_file := match header_name line with
                     | Some f => Some f
                     | None => current_file st
                     end;
     lines := [line] |}.
Proof. unfold split_step. intros ->. reflexivity. Qed.

(** Content lines only lengthen the pending list. *)
Lemma fold_split_step_content (ls : list pystr) :
  Forall (fun l => is_header l = false) ls ->
  forall st,
    fold_left split_step ls st =
    {| file_diffs := file_diffs st; current_file := current_file st;
       lines := lines st ++ ls |}.
Proof.
  induction 1 as [|l ls Hl _ IH]; intros st; simpl.
  - rewrite app_nil_r. destruct st; reflexivity.
  - rewrite IH, (split_step_content _ _ Hl). simpl.
    rewrite <- app_assoc. reflexivity.
Qed.

(** While no file name is current the pending lines are never saved. *)
Lemma split_pending_irrelevant (rest : list pystr) :
  forall d l1 l2,
    save_current (fold_left split_step rest
                    {| file_diffs := d; current_file := None; lines := l1 |}) =
    save_current (fold_left split_step rest
                    {| file_diffs := d; current_file := None; lines := l2 |}).
Proof.
  induction rest as [|x rest IH]; intros d l1 l2; simpl; [reflexivity|].
  destruct (is_header x) eqn:E.
  - rewrite !(split_step_header _ _ E). reflexivity.
  - rewrite !(split_step_content _ _ E). simpl. apply IH.
Qed.

Lemma header_name_malformed (h : pystr) :
  (length (split SPACE h) < 3)%nat -> header_name h = None.
Proof.
  intros H. unfold header_name.
  destruct (Nat.leb_spec 3 (length (split SPACE h))); [lia|reflexivity].
Qed.

(** ** C3: a malformed first header *)

(** C3: when the first line starting with ["diff --git"] has fewer
    than three space-separated tokens, that line yields no file name,
    no entry is created for it, the state still has no current file,
    and the result is the one obtained with an ordinary content line
    in its place: the lines up to the next header are dropped with the
    preamble.  The function is total, so nothing is raised. *)
Theorem split_malformed_first_header
    (D : pystr) (pre : list pystr) (h : pystr) (rest : list pystr) :
  splitlines D = pre ++ h :: rest ->
  Forall (fun l => is_header l = false) pre ->
  is_header h = true ->
  (length (split SPACE h) < 3)%nat ->
  header_name h = None /\
  (let st := fold_left split_step (pre ++ [h]) split_init in
   current_file st = None /\ file_diffs st = [] /\
   current_file st = current_file (fold_left split_step pre split_init)) /\
  (forall c, is_header c = false ->
     split_diff_by_file D = split_diff_lines (pre ++ c :: rest)) /\
  split_diff_by_file D = split_diff_lines rest.
Proof.
  intros HD Hpre Hh Hmal.
  pose proof (header_name_malformed h Hmal) as Hname.
  split; [exact Hname|].
  assert (Hst : fold_left split_step (pre ++ [h]) split_init =
                {| file_diffs := []; current_file := None; lines := [h] |}).
  { rewrite fold_left_app, (fold_split_step_content Hpre). simpl.
    rewrite (split_step_header _ _ Hh), Hname. reflexivity. }
  split.
  - cbv zeta. rewrite Hst, (fold_split_step_content Hpre). simpl. auto.
  - assert (Hrun : split_diff_by_file D =
                   save_current (fold_left split_step rest
                     {| file_diffs := []; current_file := None;
                        lines := [h] |})).
    { unfold split_diff_by_file, split_diff_lines. rewrite HD.
      change (pre ++ h :: rest) with (pre ++ [h] ++ rest).
      rewrite app_assoc, fold_left_app, Hst. reflexivity. }
    split.
    + intros c Hc. rewrite Hrun. unfold split_diff_lines.
      change (pre ++ c :: rest) with (pre ++ [c] ++ rest).
      rewrite app_assoc, fold_left_app.
      rewrite (@fold_split_step_content (pre ++ [c])).
      * apply split_pending_irrelevant.
      * apply Forall_app. split; [exact Hpre|]. constructor; auto.
    + rewrite Hrun. unfold split_diff_lines, split_init.
      apply split_pending_irrelevant.
Qed.

Lemma split_malformed_first_header_witness :
  let D := lit "junk" ++ NL ++ lit "diff --git" ++ NL ++ lit "+x" ++ NL
           ++ lit "diff --git a/f.py b/f.py" ++ NL ++ lit "+y" in
  split_diff_by_file D =
    [(lit "f.py", lit "diff --git a/f.py b/f.py" ++ NL ++ lit "+y")] /\
  split_diff_by_file D =
    split_diff_lines [lit "+x"; lit "diff --git a/f.py b/f.py"; lit "+y"].
Proof.
  cbv zeta. split; [reflexivity|].
  apply (@split_malformed_first_header _ [lit "junk"] (lit "diff --git")
           [lit "+x"; lit "diff --git a/f.py b/f.py"; lit "+y"]).
  - reflexivity.
  - repeat constructor.
  - reflexivity.
  - simpl. lia.
Defined.

(** ** The loop as a sequence of saves *)

Lemma save_as_none (d : dict pystr) (seg : list pystr) :
  save_as d (None, seg) = d.
Proof. reflexivity. Qed.

Lemma save_as_some (d : dict pystr) (f : pystr) (l : pystr)
    (seg : list pystr) :
  save_as d (Some f, l :: seg) =
  if truthy f then setitem f (join NL (l :: seg)) d else d.
Proof.
  unfold save_as, save_current. simpl. rewrite andb_true_r. reflexivity.
Qed.

Lemma header_name_path (h : pystr) (f : pystr) :
  header_name h = Some f -> f = pre_change_path h.
Proof.
  unfold header_name, pre_change_path.
  destruct (Nat.leb 3 (length (split SPACE h))); congruence.
Qed.

(** The loop saves the pending lines under the current name, then
    every chunk under the name current after its header. *)
Lemma split_loop_saves (ls : list pystr) :
  forall st,
    save_current (fold_left split_step ls st) =
    fold_left save_as
      ((current_file st, lines st ++ fst (chunks ls))
         :: saves (current_file st) (snd (chunks ls)))
      (file_diffs st).
Proof.
  induction ls as [|l ls IH]; intros st.
  - simpl. rewrite app_nil_r. destruct st; reflexivity.
  - simpl fold_left. rewrite IH. simpl chunks.
    destruct (chunks ls) as [pre cs]. unfold split_step.
    destruct (is_header l).
    + simpl. rewrite app_nil_r. unfold save_as at 3. simpl.
      destruct st; reflexivity.
    + simpl. rewrite <- app_assoc. reflexivity.
Qed.

Lemma split_diff_lines_saves (ls : list pystr) :
  split_diff_lines ls = fold_left save_as (saves None (snd (chunks ls))) [].
Proof.
  unfold split_diff_lines. rewrite split_loop_saves. reflexivity.
Qed.

Lemma chunks_headers (ls : list pystr) :
  map fst (snd (chunks ls)) = filter is_header ls.
Proof.
  induction ls as [|l ls IH]; [reflexivity|].
  simpl. destruct (chunks ls) as [pre cs]. simpl in IH.
  destruct (is_header l); simpl; congruence.
Qed.

Lemma chunks_concat (ls : list pystr) :
  ls = fst (chunks ls) ++ concat (map chunk_lines (snd (chunks ls))).
Proof.
  induction ls as [|l ls IH]; [reflexivity|].
  simpl. destruct (chunks ls) as [pre cs]. simpl in IH.
  unfold chunk_lines in *. destruct (is_header l); simpl; congruence.
Qed.

Lemma chunks_shape (ls : list pystr) :
  Forall (fun l => is_header l = false) (fst (chunks ls)) /\
  Forall (fun c => is_header (fst c) = true /\
                   Forall (fun l => is_header l = false) (snd c))
         (snd (chunks ls)).
Proof.
  induction ls as [|l ls IH]; [simpl; auto|].
  simpl. destruct (chunks ls) as [pre cs]. simpl in IH.
  destruct IH as [Hpre Hcs].
  destruct (is_header l) eqn:E; simpl; split; auto.
Qed.

(** With three tokens or more in every header the name saved with a
    chunk is the one of its own header. *)
Lemma saves_wellformed (cs : list (pystr * list pystr)) :
  Forall (fun c => header_name (fst c) <> None) cs ->
  forall cur,
    saves cur cs =
    map (fun c => (Some (pre_change_path (fst c)), chunk_lines c)) cs.
Proof.
  induction 1 as [|[h b] cs Hh _ IH]; intros cur; [reflexivity|].
  simpl. unfold next_file. simpl in Hh.
  destruct (header_name h) as [f|] eqn:E; [|congruence].
  rewrite (header_name_path _ E), IH. reflexivity.
Qed.

(** Saving chunks with non-empty, pairwise distinct, new names appends
    their entries. *)
Lemma fold_save_as_distinct (cs : list (pystr * list pystr)) :
  forall d,
    Forall (fun c => pre_change_path (fst c) <> []) cs ->
    NoDup (keys d ++ map (fun c => pre_change_path (fst c)) cs) ->
    fold_left save_as
      (map (fun c => (Some (pre_change_path (fst c)), chunk_lines c)) cs) d =
    d ++ map chunk_entry cs.
Proof.
  induction cs as [|[h b] cs IH]; intros d Hne Hnd; simpl.
  - rewrite app_nil_r. reflexivity.
  - inversion Hne as [|? ? Hh Hcs]; subst. simpl in Hh.
    change (chunk_lines (h, b)) with (h :: b).
    rewrite save_as_some.
    destruct (pre_change_path h) as [|c0 p0] eqn:Ep; [congruence|].
    simpl truthy. cbv iota. rewrite <- Ep in *.
    rewrite setitem_fresh.
    + rewrite IH; [|exact Hcs|].
      * rewrite <- app_assoc. reflexivity.
      * unfold keys. rewrite map_app. simpl. rewrite <- app_assoc.
        exact Hnd.
    + intros Hin. simpl in Hnd. apply NoDup_remove_2 in Hnd.
      apply Hnd, in_or_app. left. exact Hin.
Qed.

Lemma header_name_some (h : pystr) :
  (3 <= length (split SPACE h))%nat ->
  header_name h = Some (pre_change_path h).
Proof.
  intros H. unfold header_name, pre_change_path.
  destruct (Nat.leb_spec 3 (length (split SPACE h))); [reflexivity|lia].
Qed.

(** The result when every header has three tokens or more and the
    names are non-empty and pairwise distinct: one entry per chunk. *)
Lemma split_diff_lines_distinct (ls : list pystr) :
  Forall (fun h => header_name h <> None /\ pre_change_path h <> [])
         (filter is_header ls) ->
  NoDup (map pre_change_path (filter is_header ls)) ->
  split_diff_lines ls = map chunk_entry (snd (chunks ls)).
Proof.
  intros Hwf Hnd. rewrite split_diff_lines_saves.
  rewrite <- chunks_headers in Hwf, Hnd.
  rewrite Forall_map in Hwf. rewrite map_map in Hnd.
  rewrite saves_wellformed.
  - rewrite fold_save_as_distinct; [reflexivity | | exact Hnd].
    eapply Forall_impl; [|exact Hwf]. intros c Hc. exact (proj2 Hc).
  - eapply Forall_impl; [|exact Hwf]. intros c Hc. exact (proj1 Hc).
Qed.

(** ** C2: one entry per header *)

(** C2, refuted as stated: two distinct [diff --git] lines, one entry.
    The second header has two tokens only; its lines replace the
    segment of [x]. *)
Lemma split_two_headers_one_entry :
  let D := lit "diff --git a/x b/x" ++ NL ++ lit "+1" ++ NL
           ++ lit "diff --git" ++ NL ++ lit "+2" in
  headers D = [lit "diff --git a/x b/x"; lit "diff --git"] /\
  NoDup (headers D) /\
  split_diff_by_file D = [(lit "x", lit "diff --git" ++ NL ++ lit "+2")] /\
  length (split_diff_by_file D) <> length (headers D).
Proof.
  cbv zeta. split; [reflexivity|]. split; [|split].
  - vm_compute. repeat constructor; simpl; intuition discriminate.
  - reflexivity.
  - vm_compute. discriminate.
Qed.

(** The name taken from a header is its token [parts[2]], the path
    before the change: for a rename the key is the old path. *)
Lemma split_rename_keeps_old_path :
  let h := lit "diff --git a/old.py b/new.py" in
  keys (split_diff_by_file (h ++ NL ++ lit "+x")) = [lit "old.py"] /\
  post_change_path h = lit "new.py".
Proof. vm_compute. split; reflexivity. Qed.

(** C2, as the code has it, for diffs without renames: when in every
    [diff --git] line the two paths agree once their prefixes are cut,
    and the paths are non-empty and pairwise distinct, the mapping has
    one entry per header line and its keys, in order, are the
    post-change paths. *)
Theorem split_keys_are_paths (D : pystr) :
  Forall (fun h => pre_change_path h = post_change_path h /\
                   post_change_path h <> []) (headers D) ->
  NoDup (map post_change_path (headers D)) ->
  keys (split_diff_by_file D) = map post_change_path (headers D) /\
  length (split_diff_by_file D) = length (headers D).
Proof.
  intros Hwf Hnd.
  assert (Hmap : map pre_change_path (headers D) =
                 map post_change_path (headers D)).
  { apply map_ext_in. intros h Hh.
    rewrite Forall_forall in Hwf. apply (Hwf h Hh). }
  assert (E : split_diff_by_file D =
              map chunk_entry (snd (chunks (splitlines D)))).
  { apply split_diff_lines_distinct.
    - eapply Forall_impl; [|exact Hwf]. intros h (Heq & Hne).
      rewrite header_name_some.
      + split; congruence.
      + unfold post_change_path in Hne.
        destruct (Nat.le_gt_cases 3 (length (split SPACE h))) as [H|H];
          [exact H|].
        rewrite nth_overflow in Hne by lia. contradiction Hne. reflexivity.
    - fold (headers D). rewrite Hmap. exact Hnd. }
  assert (K : keys (split_diff_by_file D) = map pre_change_path (headers D)).
  { rewrite E. unfold keys, headers. rewrite <- chunks_headers, !map_map.
    reflexivity. }
  split.
  - rewrite K. exact Hmap.
  - rewrite <- (length_map fst (split_diff_by_file D)).
    fold (keys (split_diff_by_file D)). rewrite K. apply length_map.
Qed.

Lemma split_keys_are_paths_witness :
  let D := lit "diff --git a/a.py b/a.py" ++ NL ++ lit "+1" ++ NL
           ++ lit "diff --git a/b.py b/b.py" ++ NL ++ lit "-2" in
  keys (split_diff_by_file D) = [lit "a.py"; lit "b.py"] /\
  length (split_diff_by_file D) = 2%nat.
Proof.
  cbv zeta.
  assert (H : headers (lit "diff --git a/a.py b/a.py" ++ NL ++ lit "+1" ++ NL
                       ++ lit "diff --git a/b.py b/b.py" ++ NL ++ lit "-2") =
              [lit "diff --git a/a.py b/a.py"; lit "diff --git a/b.py b/b.py"])
    by reflexivity.
  destruct (@split_keys_are_paths
              (lit "diff --git a/a.py b/a.py" ++ NL ++ lit "+1" ++ NL
               ++ lit "diff --git a/b.py b/b.py" ++ NL ++ lit "-2"))
    as [Hk Hl].
  - rewrite H. repeat constructor; discriminate.
  - rewrite H. vm_compute. repeat constructor; simpl; intuition discriminate.
  - rewrite Hk, Hl, H. split; reflexivity.
Defined.

(** ** C9: the same path in several headers *)

Lemma save_as_keys (d : dict pystr) (s : option pystr * list pystr) :
  NoDup (keys d) ->
  NoDup (keys (save_as d s)) /\
  forall k, In k (keys (save_as d s)) <->
            In k (keys d) \/
            (fst s = Some k /\ truthy k = true /\ snd s <> []).
Proof.
  intros Hnd. destruct s as [[f|] seg]; unfold save_as, save_current; simpl.
  - destruct seg as [|l seg]; simpl.
    + rewrite andb_false_r. split; [exact Hnd|].
      intros k. split; [auto|]. intros [H|(_ & _ & H)]; [exact H|congruence].
    + rewrite andb_true_r. destruct (truthy f) eqn:T.
      * split; [apply NoDup_keys_setitem, Hnd|].
        intros k. rewrite in_keys_setitem. split.
        -- intros [->|H]; [right|left; exact H].
           repeat split; [exact T|discriminate].
        -- intros [H|(E & _)]; [right; exact H|left; congruence].
      * split; [exact Hnd|]. intros k. split; [auto|].
        intros [H|(E & T' & _)]; [exact H|]. congruence.
  - split; [exact Hnd|]. intros k. split; [auto|].
    intros [H|(E & _)]; [exact H|discriminate E].
Qed.

Lemma fold_save_as_keys (ss : list (option pystr * list pystr)) :
  forall d,
    NoDup (keys d) ->
    NoDup (keys (fold_left save_as ss d)) /\
    forall k, In k (keys (fold_left save_as ss d)) <->
              In k (keys d) \/
              (truthy k = true /\
               exists seg, In (Some k, seg) ss /\ seg <> []).
Proof.
  induction ss as [|s ss IH]; intros d Hnd; simpl.
  - split; [exact Hnd|]. intros k. split; [auto|].
    intros [H|(_ & seg & [] & _)]. exact H.
  - destruct (save_as_keys d s Hnd) as [Hnd' Hk'].
    destruct (IH _ Hnd') as [Hnd'' Hk'']. split; [exact Hnd''|].
    intros k. rewrite Hk'', Hk'. split.
    + intros [[H|(E & T & Hne)]|(T & seg & Hin & Hne)]; auto.
      * right. split; [exact T|]. exists (snd s). split; [|exact Hne].
        left. destruct s; simpl in *; congruence.
      * right. split; [exact T|]. exists seg. auto.
    + intros [H|(T & seg & [E|Hin] & Hne)]; auto.
      * left. right. subst s. auto.
      * right. split; [exact T|]. exists seg. auto.
Qed.

(** The names under which chunks are saved are names that headers
    yield, or the name current at the start. *)
Lemma saves_names_from (cs : list (pystr * list pystr)) :
  forall cur k seg,
    In (Some k, seg) (saves cur cs) ->
    cur = Some k \/ exists c, In c cs /\ header_name (fst c) = Some k.
Proof.
  induction cs as [|[h b] cs IH]; intros cur k seg; simpl; [tauto|].
  assert (Hnext : next_file cur h = Some k ->
                  cur = Some k \/
                  exists c, In c ((h, b) :: cs) /\ header_name (fst c) = Some k).
  { unfold next_file. destruct (header_name h) as [f|] eqn:Eh; intros E.
    - right. exists (h, b). split; [left; reflexivity|]. simpl. congruence.
    - left. exact E. }
  intros [E|Hin].
  - injection E as E _. apply Hnext, E.
  - destruct (IH _ _ _ Hin) as [E|(c & Hc & Hn)].
    + apply Hnext, E.
    + right. exists c. split; [right; exact Hc|exact Hn].
Qed.

(** Every name a header yields is the name of a save of a non-empty
    list of lines. *)
Lemma saves_names_to (cs : list (pystr * list pystr)) :
  forall cur k c,
    In c cs -> header_name (fst c) = Some k ->
    exists seg, In (Some k, seg) (saves cur cs) /\ seg <> [].
Proof.
  induction cs as [|[h b] cs IH]; intros cur k c; simpl; [tauto|].
  intros [<-|Hc] Hn.
  - simpl in Hn. unfold next_file. rewrite Hn.
    exists (h :: b). split; [left; reflexivity|discriminate].
  - destruct (IH (next_file cur h) k c Hc Hn) as (seg & Hin & Hne).
    exists seg. auto.
Qed.

Lemma in_extracted_paths (D k : pystr) :
  In k (extracted_paths D) <->
  exists h, In h (headers D) /\ header_name h = Some k.
Proof.
  unfold extracted_paths. rewrite in_flat_map. split.
  - intros (h & Hh & Hk). exists h. split; [exact Hh|].
    destruct (header_name h); simpl in Hk; [|tauto].
    destruct Hk as [->|[]]. reflexivity.
  - intros (h & Hh & Hk). exists h. split; [exact Hh|].
    rewrite Hk. left. reflexivity.
Qed.

(** The keys of the result: the non-empty extracted names, each once. *)
Lemma split_diff_by_file_keys (D : pystr) :
  NoDup (keys (split_diff_by_file D)) /\
  forall k, In k (keys (split_diff_by_file D)) <->
            In k (filter truthy (extracted_paths D)).
Proof.
  unfold split_diff_by_file. rewrite split_diff_lines_saves.
  destruct (@fold_save_as_keys (saves None (snd (chunks (splitlines D)))) [])
    as [Hnd Hk]; [constructor|].
  split; [exact Hnd|]. intros k.
  rewrite Hk, filter_In, in_extracted_paths. simpl. split.
  - intros [[]|(T & seg & Hin & _)].
    apply saves_names_from in Hin. destruct Hin as [E|(c & Hc & Hn)];
      [discriminate E|].
    split; [|exact T]. exists (fst c). split; [|exact Hn].
    unfold headers. rewrite <- chunks_headers. apply in_map, Hc.
  - intros [(h & Hh & Hn) T]. right. split; [exact T|].
    unfold headers in Hh. rewrite <- chunks_headers in Hh.
    apply in_map_iff in Hh. destruct Hh as (c & <- & Hc).
    eapply saves_names_to; eassumption.
Qed.







(** ** Lines and joins *)

Lemma splitlines_cons (c : N) (s : pystr) :
  splitlines (c :: s) =
  if is_linebreak c then
    if N.eqb c CR then
      match s with
      | d :: s'' =>
          if N.eqb d LF then [] :: splitlines s'' else [] :: splitlines s
      | [] => [] :: splitlines s
      end
    else [] :: splitlines s
  else
    match splitlines s with
    | [] => [[c]]
    | l :: ls => (c :: l) :: ls
    end.
Proof. reflexivity. Qed.

Lemma splitlines_nil_inv (s : pystr) : splitlines s = [] -> s = [].
Proof.
  destruct s as [|c s]; [reflexivity|]. rewrite splitlines_cons.
  destruct (is_linebreak c).
  - destruct (N.eqb c CR); [destruct s as [|d s]|]; try discriminate.
    destruct (N.eqb d LF); discriminate.
  - destruct (splitlines s); discriminate.
Qed.

(** The lines [splitlines] returns contain no line boundary. *)
Lemma splitlines_no_linebreak (s : pystr) :
  Forall no_linebreak (splitlines s).
Proof.
  enough (H : Forall no_linebreak (splitlines s) /\
              forall c, Forall no_linebreak (splitlines (c :: s)))
    by apply H.
  induction s as [|c s [IH1 IH2]].
  - split; [constructor|]. intros c. rewrite splitlines_cons.
    destruct (is_linebreak c) eqn:E.
    + destruct (N.eqb c CR); repeat constructor.
    + repeat constructor. exact E.
  - split; [apply IH2|]. intros c'. rewrite splitlines_cons.
    destruct (is_linebreak c') eqn:E.
    + destruct (N.eqb c' CR).
      * destruct (N.eqb c LF); constructor; auto; constructor.
      * constructor; auto. constructor.
    + specialize (IH2 c). destruct (splitlines (c :: s)) as [|l ls].
      * repeat constructor. exact E.
      * inversion IH2; subst. constructor; [constructor|]; assumption.
Qed.

Lemma join_cons_cons (sep l : pystr) (l' : pystr) (ls : list pystr) :
  join sep (l :: l' :: ls) = l ++ sep ++ join sep (l' :: ls).
Proof. reflexivity. Qed.

Lemma join_head_cons (sep : pystr) (c : N) (l : pystr) (ls : list pystr) :
  join sep ((c :: l) :: ls) = c :: join sep (l :: ls).
Proof. destruct ls; reflexivity. Qed.

Lemma join_app (sep : pystr) (a b : list pystr) :
  a <> [] -> b <> [] -> join sep (a ++ b) = join sep a ++ sep ++ join sep b.
Proof.
  intros Ha Hb. induction a as [|l a IH]; [congruence|].
  destruct a as [|l' a].
  - simpl app. destruct b as [|l' b]; [congruence|]. reflexivity.
  - change ((l :: l' :: a) ++ b) with (l :: l' :: (a ++ b)).
    rewrite !join_cons_cons.
    change (l' :: a ++ b) with ((l' :: a) ++ b).
    rewrite IH by discriminate. rewrite <- !app_assoc. reflexivity.
Qed.

(** Joining joined non-empty groups is joining all their lines. *)
Lemma join_concat (sep : pystr) (segs : list (list pystr)) :
  Forall (fun seg => seg <> []) segs ->
  join sep (map (join sep) segs) = join sep (concat segs).
Proof.
  induction 1 as [|seg segs Hseg Hsegs IH]; [reflexivity|].
  destruct segs as [|seg' segs].
  - simpl. rewrite app_nil_r. reflexivity.
  - change (map (join sep) (seg :: seg' :: segs))
      with (join sep seg :: join sep seg' :: map (join sep) segs).
    rewrite join_cons_cons.
    change (join sep seg' :: map (join sep) segs)
      with (map (join sep) (seg' :: segs)).
    rewrite IH.
    change (concat (seg :: seg' :: segs))
      with (seg ++ concat (seg' :: segs)).
    rewrite (@join_app sep seg (concat (seg' :: segs)));
      [reflexivity|exact Hseg|].
    inversion Hsegs; subst. simpl. destruct seg'; [congruence|discriminate].
Qed.

(** With line feeds as the only terminators, joining the lines gives
    the text back, up to one final line feed. *)
Lemma join_splitlines (s : pystr) :
  only_LF s ->
  s = join NL (splitlines s) \/ s = join NL (splitlines s) ++ NL.
Proof.
  induction 1 as [|c s Hc Hs IH]; [left; reflexivity|].
  rewrite splitlines_cons. destruct (is_linebreak c) eqn:E.
  - rewrite (Hc eq_refl). change (N.eqb LF CR) with false. cbv iota.
    destruct (splitlines s) as [|l ls] eqn:El.
    + apply splitlines_nil_inv in El. subst s. right. reflexivity.
    + rewrite join_cons_cons. simpl app.
      destruct IH as [IH|IH]; [left|right]; rewrite IH at 1; reflexivity.
  - destruct (splitlines s) as [|l ls] eqn:El.
    + apply splitlines_nil_inv in El. subst s. left. reflexivity.
    + rewrite join_head_cons.
      destruct IH as [IH|IH]; [left|right]; rewrite IH at 1; reflexivity.
Qed.

Lemma rstrip_newline (s : pystr) : rstrip (s ++ NL) = rstrip s.
Proof. unfold rstrip, NL. rewrite rev_app_distr. reflexivity. Qed.

Lemma splitlines_single (l : pystr) :
  no_linebreak l -> l <> [] -> splitlines l = [l].
Proof.
  induction 1 as [|c l Hc Hl IH]; intros Hne; [congruence|].
  rewrite splitlines_cons, Hc.
  destruct l as [|c' l]; [reflexivity|].
  rewrite IH by discriminate. reflexivity.
Qed.

Lemma splitlines_line (l rest : pystr) :
  no_linebreak l -> splitlines (l ++ LF :: rest) = l :: splitlines rest.
Proof.
  induction 1 as [|c l Hc Hl IH]; [reflexivity|].
  simpl app. rewrite splitlines_cons, Hc, IH. reflexivity.
Qed.


Lemma chunks_no_preamble (ls : list pystr) :
  starts_with_header ls -> fst (chunks ls) = [].
Proof.
  destruct ls as [|l ls]; [reflexivity|]. simpl. intros H.
  destruct (chunks ls). rewrite H. reflexivity.
Qed.

Lemma extracted_paths_wellformed (D : pystr) :
  Forall (fun h => header_name h <> None) (headers D) ->
  extracted_paths D = map pre_change_path (headers D).
Proof.
  unfold extracted_paths. induction 1 as [|h hs Hh _ IH]; [reflexivity|].
  simpl. destruct (header_name h) as [f|] eqn:E; [|congruence].
  rewrite (header_name_path _ E), IH. reflexivity.
Qed.

(** ** C5: putting the segments together again *)

(** C5, refuted as stated: the line before the first header is in no
    segment, so neither the concatenation of the values nor their join
    with line feeds gives the text back, even up to trailing
    whitespace. *)
Lemma split_values_lose_preamble :
  let D := lit "hello" ++ NL ++ lit "diff --git a/x b/x" ++ NL ++ lit "+1" in
  values (split_diff_by_file D) = [lit "diff --git a/x b/x" ++ NL ++ lit "+1"] /\
  rstrip (concat (values (split_diff_by_file D))) <> rstrip D /\
  rstrip (join NL (values (split_diff_by_file D))) <> rstrip D.
Proof.
  cbv zeta. split; [reflexivity|]. split; vm_compute; discriminate.
Qed.

(** Plain concatenation also loses the line feed between two
    segments. *)
Lemma split_values_concat_glues_lines :
  let D := lit "diff --git a/x b/x" ++ NL ++ lit "+1" ++ NL
           ++ lit "diff --git a/y b/y" ++ NL ++ lit "+2" in
  concat (values (split_diff_by_file D)) =
    lit "diff --git a/x b/x" ++ NL ++ lit "+1"
    ++ lit "diff --git a/y b/y" ++ NL ++ lit "+2" /\
  rstrip (concat (values (split_diff_by_file D))) <> rstrip D /\
  join NL (values (split_diff_by_file D)) = D.
Proof.
  cbv zeta. split; [reflexivity|]. split; [|reflexivity].
  vm_compute. discriminate.
Qed.

(** C5, as the code has it: when the text starts with a header line
    and every header yields a non-empty name, the names being pairwise
    distinct, the values joined by line feeds, in order, are the lines
    of the text joined by line feeds; with line feeds as the only line
    terminators this is the text up to trailing whitespace. *)
Theorem split_values_rebuild_diff (D : pystr) :
  starts_with_header (splitlines D) ->
  Forall (fun h => exists f, header_name h = Some f /\ f <> []) (headers D) ->
  NoDup (extracted_paths D) ->
  join NL (values (split_diff_by_file D)) = join NL (splitlines D) /\
  (only_LF D ->
   rstrip (join NL (values (split_diff_by_file D))) = rstrip D).
Proof.
  intros Hstart Hwf Hnd.
  assert (Hnames : Forall (fun h => header_name h <> None) (headers D)).
  { eapply Forall_impl; [|exact Hwf]. intros h (f & -> & _). discriminate. }
  rewrite (extracted_paths_wellformed _ Hnames) in Hnd.
  assert (E : split_diff_by_file D =
              map chunk_entry (snd (chunks (splitlines D)))).
  { apply split_diff_lines_distinct; [|exact Hnd].
    eapply Forall_impl; [|exact Hwf]. intros h (f & Hf & Hne).
    rewrite Hf. split; [discriminate|].
    rewrite <- (header_name_path _ Hf). exact Hne. }
  assert (J : join NL (values (split_diff_by_file D)) =
              join NL (splitlines D)).
  { rewrite E. unfold values. rewrite map_map. simpl.
    rewrite <- (map_map chunk_lines (join NL)).
    rewrite join_concat.
    - rewrite (chunks_concat (splitlines D)) at 2.
      rewrite (chunks_no_preamble _ Hstart). reflexivity.
    - apply Forall_map, Forall_forall. intros c _. discriminate. }
  split; [exact J|].
  intros HLF. rewrite J.
  destruct (join_splitlines HLF) as [H|H]; rewrite H at 2;
    [reflexivity|].
  rewrite rstrip_newline. reflexivity.
Qed.

Lemma split_values_rebuild_diff_witness :
  let D := lit "diff --git a/x b/x" ++ NL ++ lit "+1" ++ NL
           ++ lit "diff --git a/y b/y" ++ NL ++ lit "+2" ++ NL in
  only_LF D /\
  rstrip (join NL (values (split_diff_by_file D))) = rstrip D.
Proof.
  cbv zeta.
  assert (HLF : only_LF (lit "diff --git a/x b/x" ++ NL ++ lit "+1" ++ NL
                         ++ lit "diff --git a/y b/y" ++ NL ++ lit "+2" ++ NL)).
  { unfold only_LF. vm_compute.
    repeat (constructor; [intros H; first [discriminate H | reflexivity]|]).
    constructor. }
  split; [exact HLF|].
  apply split_values_rebuild_diff; [reflexivity | | | exact HLF].
  - vm_compute. repeat constructor.
    + eexists. split; [reflexivity|discriminate].
    + eexists. split; [reflexivity|discriminate].
  - vm_compute. repeat constructor; simpl; intuition discriminate.
Defined.

(** ** The two passes of the filter *)








(** On a dictionary, whose keys are distinct, the loop of
    [preprocess_diff] keeps the entries that are not distracting and
    notes whether one was. *)
Lemma filter_items_run (S : list pystr) (items : dict pystr) :
  forall acc b,
    NoDup (keys acc ++ keys items) ->
    fold_left (filter_step S) items (acc, b) =
    (acc ++ filter (kept S) items,
     b || existsb (fun e => py_in (fst e) S) items).
Proof.
  induction items as [|[k v] items IH]; intros acc b Hnd; simpl.
  - rewrite app_nil_r, orb_false_r. reflexivity.
  - unfold kept at 1. simpl fst.
    destruct (py_in k S) eqn:E; simpl negb; cbv iota.
    + rewrite IH; [rewrite orb_true_r; reflexivity|].
      simpl in Hnd. apply NoDup_remove_1 in Hnd. exact Hnd.
    + rewrite IH.
      * rewrite setitem_fresh.
        -- rewrite <- app_assoc. reflexivity.
        -- simpl in Hnd. apply NoDup_remove_2 in Hnd.
           intros Hin. apply Hnd, in_or_app. left. exact Hin.
      * rewrite setitem_fresh.
        -- unfold keys. rewrite map_app. simpl. rewrite <- app_assoc.
           exact Hnd.
        -- simpl in Hnd. apply NoDup_remove_2 in Hnd.
           intros Hin. apply Hnd, in_or_app. left. exact Hin.
Qed.

Lemma filter_items_nodup (S : list pystr) (d : dict pystr) :
  NoDup (keys d) ->
  filter_items S d =
  (filter (kept S) d, existsb (fun e => py_in (fst e) S) d).
Proof.
  intros Hnd. unfold filter_items. rewrite filter_items_run; auto.
Qed.

Lemma keys_filter_kept (S : list pystr) (d : dict pystr) :
  keys (filter (kept S) d) = filter (fun k => negb (py_in k S)) (keys d).
Proof. unfold keys. rewrite filter_map_swap. reflexivity. Qed.




(** ** C6: filtering twice *)


(** A header with two tokens makes the second pass lose the segment
    the first pass kept under the earlier name. *)
Lemma preprocess_diff_twice_loses_segment :
  let D := lit "diff --git a/keep b/keep" ++ NL ++ lit "+1" ++ NL
           ++ lit "diff --git" ++ NL ++ lit "+2" in
  preprocess_diff D None = (lit "diff --git" ++ NL ++ lit "+2", false) /\
  preprocess_diff (fst (preprocess_diff D None)) None = ([], false).
Proof. cbv zeta. split; reflexivity. Qed.

Lemma preprocess_diff_with_run (S : list pystr) (D : pystr) :
  preprocess_diff_with S D =
  (join NL (values (fst (filter_items S (split_diff_by_file D)))),
   snd (filter_items S (split_diff_by_file D))).
Proof.
  unfold preprocess_diff_with.
  destruct (filter_items S (split_diff_by_file D)). reflexivity.
Qed.



(* ================================================================= *)
(** * Further properties of the server manager and the entry point *)

Lemma count_events_app (p : event -> bool) (a b : list event) :
  count_events p (a ++ b) = (count_events p a + count_events p b)%nat.
Proof. unfold count_events. rewrite filter_app, length_app. reflexivity. Qed.

Lemma count_events_poll_trace (p : event -> bool) (ts : list N) :
  (forall t, p (EvProbe t false) = false) -> p EvSleep = false ->
  count_events p (poll_trace ts) = 0%nat.
Proof.
  intros Hp Hs. unfold count_events.
  induction ts as [|t ts IH]; [reflexivity|].
  simpl. rewrite Hp, Hs. exact IH.
Qed.

Lemma stop_eq (w : World) :
  OllamaServer.stop w =
  (Done tt,
   {| proc := None; now := now w; probes := probes w; sleeps := sleeps w;
      trace := trace w ++ stop_events (proc w) |}).
Proof. apply stop_run. Qed.

Lemma generate_cleanup_eq (pid : OllamaServer.pid_value) (w : World) :
  generate_cleanup pid w =
  (Done tt,
   {| proc := if OllamaServer.pid_truthy pid then None else proc w;
      now := now w; probes := probes w; sleeps := sleeps w;
      trace := trace w ++ cleanup_events pid (proc w) |}).
Proof.
  unfold generate_cleanup, cleanup_events.
  destruct (OllamaServer.pid_truthy pid).
  - unfold bind, print, emit. rewrite stop_run. simpl.
    rewrite <- app_assoc. reflexivity.
  - unfold ret. rewrite app_nil_r. destruct w; reflexivity.
Qed.

(** One run of [generate_commit_message], outcome and world. *)
Lemma generate_commit_message_eq (env : Env) (d : pystr) (w : World) :
  generate_commit_message env d w =
  (match env_llm env (fst (preprocess_diff d None)) with
   | inl e => Raised e
   | inr content => Done (commit_message_for d content)
   end, after_generate env d w).
Proof.
  unfold generate_commit_message, bind. rewrite get_pid_run.
  unfold try_finally. rewrite generate_body_run, generate_cleanup_eq.
  unfold after_generate, commit_message_for. simpl.
  rewrite <- !app_assoc. simpl.
  destruct (env_llm env _); reflexivity.
Qed.

(** The entry point, step by step. *)
Lemma main_eq (env : Env) (w : World) :
  main env w =
  match OllamaServer.start env (fresh_server w) with
  | (Done _, w1) =>
      let w2 := add_events [EvReadInput] w1 in
      if negb (truthy (strip (env_input env))) then
        (Raised (SystemExit 1), add_events [EvPrint MsgNoDiffProvided] w2)
      else
        match env_llm env (fst (preprocess_diff (env_input env) None)) with
        | inl e => (Raised e, after_generate env (env_input env) w2)
        | inr content =>
            let m := commit_message_for (env_input env) content in
            let w4 := add_events [EvPrint (MsgGeneratedCommitMessage m);
                                  EvClipboard m]
                        (after_generate env (env_input env) w2) in
            (Done tt, add_events (stop_events (proc w4))
                        {| proc := None; now := now w4; probes := probes w4;
                           sleeps := sleeps w4; trace := trace w4 |})
        end
  | (Raised e, w1) => (Raised e, w1)
  | (OutOfFuel, w1) => (OutOfFuel, w1)
  end.
Proof.
  unfold main, bind at 1, OllamaServer.init, set_proc.
  fold (fresh_server w). unfold bind at 1.
  destruct (OllamaServer.start env (fresh_server w)) as [[[]|e|] w1];
    try reflexivity.
  unfold bind at 1, read_input, bind at 1, emit, ret. cbv iota beta zeta.
  fold (add_events [EvReadInput] w1).
  destruct (negb (truthy (strip (env_input env)))); [reflexivity|].
  unfold bind at 1. rewrite generate_commit_message_eq.
  destruct (env_llm env _) as [e|content]; [reflexivity|].
  unfold bind, print, copy_to_clipboard, emit. rewrite stop_eq.
  unfold add_events. simpl. rewrite <- !app_assoc. reflexivity.
Qed.

(** Everything [start] records, by its first probe and by the way it
    ends, for any amount of fuel. *)
Lemma start_with_fuel_events (env : Env) (fuel : nat) (w : World) :
  let r := OllamaServer.start_with_fuel env fuel w in
  let b0 := snd (env_probe env (probes w)) in
  let t0 := (now w + fst (env_probe env (probes w)))%N in
  if b0 then
    r = (Done tt, OllamaServer.after_probe env w) /\
    events_since w (snd r) = [EvProbe t0 true]
  else
    proc (snd r) = Some (env_popen env) /\
    exists ts tl,
      events_since w (snd r) =
        EvProbe t0 false :: EvPrint MsgStartingServer
          :: EvSpawn (env_popen env) :: poll_trace ts ++ tl /\
      ((exists t, tl = [EvProbe t true] /\ fst r = Done tt /\
                  (length ts < fuel)%nat) \/
       (exists t, tl = [EvProbe t false] /\
                  fst r = Raised OllamaServer.timeout_error /\
                  (length ts < fuel)%nat) \/
       (tl = [] /\ fst r = OutOfFuel)).
Proof.
  cbv zeta.
  destruct (start_with_fuel_cases env fuel w)
    as [[Ha E] | (Hf & Hp & ts & _ & _ & H)].
  - rewrite Ha. split; [exact E|]. rewrite E.
    apply events_since_app. simpl. rewrite Ha. reflexivity.
  - rewrite Hf. split; [exact Hp|].
    assert (Htr : forall tl,
              trace (snd (OllamaServer.start_with_fuel env fuel w)) =
                trace (after_spawn env (OllamaServer.after_probe env w))
                  ++ poll_trace ts ++ tl ->
              events_since w (snd (OllamaServer.start_with_fuel env fuel w)) =
                EvProbe (now w + fst (env_probe env (probes w))) false
                  :: EvPrint MsgStartingServer
                  :: EvSpawn (env_popen env) :: poll_trace ts ++ tl).
    { intros tl T. apply events_since_app. rewrite T. simpl.
      rewrite Hf, <- !app_assoc. reflexivity. }
    exists ts.
    destruct H as [(t & Hd & Hlen & T) | [(t & Hr & Hlen & T & _) | (Ho & T)]].
    + exists [EvProbe t true]. split; [exact (Htr _ T)|]. left. eauto.
    + exists [EvProbe t false]. split; [exact (Htr _ T)|]. right. left. eauto.
    + exists []. split; [apply Htr; rewrite app_nil_r; exact T|].
      right. right. auto.
Qed.

Lemma count_poll_trace_sleeps (ts : list N) :
  count_events is_sleep (poll_trace ts) = length ts /\
  count_events is_probe (poll_trace ts) = length ts.
Proof.
  unfold count_events. induction ts as [|t ts [IH1 IH2]]; [split; reflexivity|].
  simpl. rewrite IH1, IH2. split; reflexivity.
Qed.

(** [stop] twice: the first call terminates the recorded process and
    then waits for it, and does neither when none is recorded; it
    clears [self.proc], so the second call terminates nothing and
    waits for nothing.  A process is terminated and waited for at most
    once, and only the recorded one. *)
Theorem stop_twice_terminates_once (w : World) :
  let w1 := snd (OllamaServer.stop w) in
  let w2 := snd (OllamaServer.stop w1) in
  fst (OllamaServer.stop w) = Done tt /\
  fst (OllamaServer.stop w1) = Done tt /\
  proc w1 = None /\ proc w2 = None /\
  events_since w w1 =
    match proc w with
    | Some h => [EvStopCalled; EvTerminate h; EvWait h]
    | None => [EvStopCalled]
    end /\
  events_since w1 w2 = [EvStopCalled] /\
  events_since w w2 = events_since w w1 ++ [EvStopCalled] /\
  count_events is_terminate (events_since w w2) =
    match proc w with Some _ => 1%nat | None => 0%nat end /\
  count_events is_wait (events_since w w2) =
    match proc w with Some _ => 1%nat | None => 0%nat end /\
  forall h,
    In (EvTerminate h) (events_since w w2) \/
    In (EvWait h) (events_since w w2) ->
    proc w = Some h.
Proof.
  cbv zeta. rewrite !stop_eq. simpl.
  split; [reflexivity|]. split; [reflexivity|].
  split; [reflexivity|]. split; [reflexivity|].
  assert (E1 : events_since w
                 {| proc := None; now := now w; probes := probes w;
                    sleeps := sleeps w;
                    trace := trace w ++ stop_events (proc w) |} =
               stop_events (proc w)).
  { apply events_since_app. reflexivity. }
  assert (E : events_since w
                {| proc := None; now := now w; probes := probes w;
                   sleeps := sleeps w;
                   trace := (trace w ++ stop_events (proc w))
                            ++ stop_events None |} =
              stop_events (proc w) ++ [EvStopCalled]).
  { apply events_since_app. simpl. rewrite <- app_assoc. reflexivity. }
  rewrite E1, E.
  split; [destruct (proc w); reflexivity|].
  split; [apply events_since_app; reflexivity|].
  split; [reflexivity|].
  destruct (proc w) as [h|]; simpl.
  - split; [reflexivity|]. split; [reflexivity|]. intros h' [H|H];
      repeat (destruct H as [H|H]; [try discriminate H|]);
      try contradiction; injection H as <-; reflexivity.
  - split; [reflexivity|]. split; [reflexivity|]. intros h' [H|H];
      repeat (destruct H as [H|H]; [discriminate H|]); contradiction.
Qed.



(** When [start] returns, the last thing it saw is a probe answered
    with HTTP 200. *)
Theorem start_returns_after_live_probe (env : Env) (w : World) :
  fst (OllamaServer.start env w) = Done tt ->
  exists evs t,
    events_since w (snd (OllamaServer.start env w)) = evs ++ [EvProbe t true] /\
    count_events is_probe evs = count_events is_sleep evs +
      (if snd (env_probe env (probes w)) then 0 else 1)%nat /\
    forall t', ~ In (EvProbe t' true) evs.
Proof.
  intros Hdone.
  pose proof (start_with_fuel_events env (env_polls env) w) as H.
  cbv zeta in H. fold (OllamaServer.start env) in H.
  destruct (snd (env_probe env (probes w))).
  - destruct H as [_ He]. exists [], (now w + fst (env_probe env (probes w)))%N.
    rewrite He. split; [reflexivity|]. split; [reflexivity|]. intros t' [].
  - destruct H as (_ & ts & tl & He &
                   [(t & -> & _) | [(t & _ & Hr & _) | (_ & Hr)]]);
      [|rewrite Hdone in Hr; discriminate Hr..].
    exists ([EvProbe (now w + fst (env_probe env (probes w))) false;
             EvPrint MsgStartingServer; EvSpawn (env_popen env)]
              ++ poll_trace ts), t.
    rewrite He, <- app_assoc. split; [reflexivity|].
    rewrite !count_events_app.
    destruct (count_poll_trace_sleeps ts) as [Hs Hpr]. rewrite Hs, Hpr.
    split; [unfold count_events; simpl; lia|].
    intros t' Hin. apply in_app_or in Hin. destruct Hin as [Hin|Hin].
    + repeat (destruct Hin as [Hin|Hin]; [discriminate Hin|]). exact Hin.
    + unfold poll_trace in Hin. apply in_flat_map in Hin.
      destruct Hin as (x & _ & Hx).
      repeat (destruct Hx as [Hx|Hx]; [discriminate Hx|]). exact Hx.
Qed.

Lemma start_returns_after_live_probe_witness :
  fst (OllamaServer.start env_late_server world0) = Done tt /\
  exists evs t,
    events_since world0 (snd (OllamaServer.start env_late_server world0)) =
      evs ++ [EvProbe t true].
Proof.
  split; [reflexivity|].
  destruct (@start_returns_after_live_probe env_late_server world0 eq_refl)
    as (evs & t & E & _).
  exists evs, t. exact E.
Defined.

Lemma start_trace_grows (env : Env) (w : World) :
  trace (snd (OllamaServer.start env w)) =
  trace w ++ events_since w (snd (OllamaServer.start env w)).
Proof.
  destruct (start_trace env w) as (t & b & evs & T & _).
  rewrite (events_since_app _ _ _ T). exact T.
Qed.

(** What the entry point needs to know about its call of [start]. *)
Lemma start_summary (env : Env) (w : World) :
  let r := OllamaServer.start env (fresh_server w) in
  let b0 := snd (env_probe env (probes w)) in
  exists sev,
    trace (snd r) = trace w ++ sev /\
    count_events is_spawn sev = (if b0 then 0 else 1)%nat /\
    count_events is_terminate sev = 0%nat /\
    count_events is_output sev = 0%nat /\
    count_events is_inference sev = 0%nat /\
    (forall h, ~ In (EvTerminate h) sev) /\
    proc (snd r) = (if b0 then None else Some (env_popen env)) /\
    (fst r = Done tt \/
     fst r <> Done tt /\ b0 = false /\
     (fst r = Raised OllamaServer.timeout_error \/ fst r = OutOfFuel)).
Proof.
  cbv zeta.
  exists (events_since (fresh_server w)
            (snd (OllamaServer.start env (fresh_server w)))).
  split; [apply (start_trace_grows env (fresh_server w))|].
  pose proof (start_with_fuel_events env (env_polls env) (fresh_server w))
    as H.
  cbv zeta in H. fold (OllamaServer.start env) in H.
  simpl probes in H.
  destruct (snd (env_probe env (probes w))).
  - destruct H as [Hr He]. rewrite He, Hr. simpl.
    repeat split; try reflexivity; [|left; reflexivity].
    intros h [H|[]]. discriminate H.
  - destruct H as (Hp & ts & tl & He & Hend). rewrite He, Hp.
    change (EvProbe (now (fresh_server w)
                     + fst (env_probe env (probes w))) false
              :: EvPrint MsgStartingServer :: EvSpawn (env_popen env)
              :: poll_trace ts ++ tl)
      with ([EvProbe (now (fresh_server w)
                      + fst (env_probe env (probes w))) false;
             EvPrint MsgStartingServer; EvSpawn (env_popen env)]
              ++ poll_trace ts ++ tl).
    rewrite !count_events_app.
    rewrite !count_events_poll_trace by reflexivity.
    assert (Htl : exists l, tl = l /\
              (l = [] \/ exists t b, l = [EvProbe t b])).
    { exists tl. split; [reflexivity|].
      destruct Hend as [(t & -> & _) | [(t & -> & _) | (-> & _)]]; eauto. }
    destruct Htl as (l & Hl & Hshape).
    assert (Hc : forall p, (forall t b, p (EvProbe t b) = false) ->
                           count_events p tl = 0%nat).
    { intros p Hp0. rewrite Hl.
      destruct Hshape as [->|(t & b & ->)]; [reflexivity|].
      unfold count_events. simpl. rewrite Hp0. reflexivity. }
    rewrite !Hc by reflexivity.
    split; [reflexivity|]. split; [reflexivity|]. split; [reflexivity|].
    split; [reflexivity|]. split; [|split; [reflexivity|]].
    + intros h Hin. apply in_app_or in Hin. destruct Hin as [Hin|Hin].
      * repeat (destruct Hin as [Hin|Hin]; [discriminate Hin|]). exact Hin.
      * apply in_app_or in Hin. destruct Hin as [Hin|Hin].
        -- unfold poll_trace in Hin. apply in_flat_map in Hin.
           destruct Hin as (x & _ & Hx).
           repeat (destruct Hx as [Hx|Hx]; [discriminate Hx|]). exact Hx.
        -- rewrite Hl in Hin.
           destruct Hshape as [->|(t & b & ->)]; [destruct Hin|].
           destruct Hin as [Hin|[]]. discriminate Hin.
    + destruct Hend as [(t & _ & Hr & _) | [(t & _ & Hr & _) | (_ & Hr)]].
      * left. exact Hr.
      * right. rewrite Hr. repeat split; [discriminate|]. left. reflexivity.
      * right. rewrite Hr. repeat split; [discriminate|]. right. reflexivity.
Qed.

Lemma count_cleanup_events (pid : OllamaServer.pid_value) (p : option N) :
  count_events is_terminate (cleanup_events pid p) =
    (if OllamaServer.pid_truthy pid
     then match p with Some _ => 1 | None => 0 end else 0)%nat /\
  count_events is_spawn (cleanup_events pid p) = 0%nat /\
  count_events is_output (cleanup_events pid p) = 0%nat /\
  count_events is_inference (cleanup_events pid p) = 0%nat /\
  forall h, In (EvTerminate h) (cleanup_events pid p) -> p = Some h.
Proof.
  unfold cleanup_events.
  destruct (OllamaServer.pid_truthy pid); [|simpl; intuition].
  destruct p as [h0|]; simpl; repeat split; try reflexivity.
  - intros h H.
    repeat (destruct H as [H|H]; [try discriminate H|]);
      [injection H as <-; reflexivity|contradiction].
  - intros h H.
    repeat (destruct H as [H|H]; [discriminate H|]). contradiction.
Qed.

Lemma count_stop_events (p : option N) :
  count_events is_terminate (stop_events p) =
    match p with Some _ => 1%nat | None => 0%nat end /\
  count_events is_spawn (stop_events p) = 0%nat /\
  count_events is_output (stop_events p) = 0%nat /\
  count_events is_inference (stop_events p) = 0%nat /\
  forall h, In (EvTerminate h) (stop_events p) -> p = Some h.
Proof.
  destruct p as [h0|]; simpl; repeat split; try reflexivity.
  - intros h H.
    repeat (destruct H as [H|H]; [try discriminate H|]);
      [injection H as <-; reflexivity|contradiction].
  - intros h H.
    repeat (destruct H as [H|H]; [discriminate H|]). contradiction.
Qed.

(** The events of a whole run of the entry point, by the way it ends. *)
Lemma main_events (env : Env) (w : World) :
  let b0 := snd (env_probe env (probes w)) in
  let p1 := if b0 then None else Some (env_popen env) in
  let d := env_input env in
  let pid := pid_snapshot env in
  exists sev,
    count_events is_spawn sev = (if b0 then 0 else 1)%nat /\
    count_events is_terminate sev = 0%nat /\
    count_events is_output sev = 0%nat /\
    count_events is_inference sev = 0%nat /\
    (forall h, ~ In (EvTerminate h) sev) /\
    ((fst (OllamaServer.start env (fresh_server w)) <> Done tt /\
      fst (main env w) = fst (OllamaServer.start env (fresh_server w)) /\
      (fst (main env w) = Raised OllamaServer.timeout_error \/
       fst (main env w) = OutOfFuel) /\
      b0 = false /\
      trace (snd (main env w)) = trace w ++ sev /\
      proc (snd (main env w)) = p1) \/
     (fst (OllamaServer.start env (fresh_server w)) = Done tt /\
      truthy (strip d) = false /\
      fst (main env w) = Raised (SystemExit 1) /\
      trace (snd (main env w)) =
        trace w ++ sev ++ [EvReadInput; EvPrint MsgNoDiffProvided] /\
      proc (snd (main env w)) = p1) \/
     (fst (OllamaServer.start env (fresh_server w)) = Done tt /\
      truthy (strip d) = true /\
      exists e,
        env_llm env (fst (preprocess_diff d None)) = inl e /\
        fst (main env w) = Raised e /\
        trace (snd (main env w)) =
          trace w ++ sev ++ [EvReadInput; EvPgrep;
                             EvInference (fst (preprocess_diff d None))]
                  ++ cleanup_events pid p1 /\
        proc (snd (main env w)) =
          (if OllamaServer.pid_truthy pid then None else p1)) \/
     (fst (OllamaServer.start env (fresh_server w)) = Done tt /\
      truthy (strip d) = true /\
      exists content,
        env_llm env (fst (preprocess_diff d None)) = inr content /\
        fst (main env w) = Done tt /\
        trace (snd (main env w)) =
          trace w ++ sev ++ [EvReadInput; EvPgrep;
                             EvInference (fst (preprocess_diff d None))]
                  ++ cleanup_events pid p1
                  ++ [EvPrint (MsgGeneratedCommitMessage
                                 (commit_message_for d content));
                      EvClipboard (commit_message_for d content)]
                  ++ stop_events
                       (if OllamaServer.pid_truthy pid then None else p1) /\
        proc (snd (main env w)) = None)).
Proof.
  cbv zeta.
  destruct (start_summary env w)
    as (sev & T & Hs & Ht & Ho & Hi & Hn & Hp & Hr).
  cbv zeta in T, Hp, Hr.
  exists sev. do 5 (split; [assumption|]).
  rewrite main_eq.
  destruct (OllamaServer.start env (fresh_server w)) as [r1 w1].
  simpl fst in *; simpl snd in *.
  destruct Hr as [->|(Hne & Hf & Hr)].
  - right. cbv zeta.
    destruct (truthy (strip (env_input env))) eqn:B; simpl negb; cbv iota.
    + right. destruct (env_llm env _) as [e|content] eqn:L.
      * left. split; [reflexivity|]. split; [reflexivity|].
        exists e. split; [reflexivity|]. split; [reflexivity|].
        simpl. rewrite T, Hp, <- !app_assoc. split; reflexivity.
      * right. split; [reflexivity|]. split; [reflexivity|].
        exists content. split; [reflexivity|]. split; [reflexivity|].
        simpl. rewrite T, Hp, <- !app_assoc. simpl.
        rewrite <- ?app_assoc. split; reflexivity.
    + left. split; [reflexivity|]. split; [reflexivity|].
      split; [reflexivity|]. simpl. rewrite T, <- !app_assoc.
      split; [reflexivity|exact Hp].
  - left. split; [exact Hne|].
    destruct Hr as [->| ->]; simpl.
    + split; [reflexivity|]. split; [left; reflexivity|].
      split; [exact Hf|]. split; [exact T|exact Hp].
    + split; [reflexivity|]. split; [right; reflexivity|].
      split; [exact Hf|]. split; [exact T|exact Hp].
Qed.

Ltac count_run :=
  repeat rewrite count_events_app;
  repeat match goal with
         | |- context [count_events _ (cleanup_events ?pid ?q)] =>
             let H1 := fresh in let H2 := fresh in
             let H3 := fresh in let H4 := fresh in
             destruct (count_cleanup_events pid q) as (H1 & H2 & H3 & H4 & _);
             rewrite ?H1, ?H2, ?H3, ?H4; clear H1 H2 H3 H4
         | |- context [count_events _ (stop_events ?q)] =>
             let H1 := fresh in let H2 := fresh in
             let H3 := fresh in let H4 := fresh in
             destruct (count_stop_events q) as (H1 & H2 & H3 & H4 & _);
             rewrite ?H1, ?H2, ?H3, ?H4; clear H1 H2 H3 H4
         end;
  repeat match goal with
         | H : count_events _ _ = _ |- _ => rewrite H
         end;
  unfold count_events; simpl.

Lemma existsb_of_count (P Q : event -> bool) (l : list event) :
  (forall e, P e = true -> Q e = true) ->
  count_events Q l = 0%nat -> existsb P l = false.
Proof.
  intros HPQ. unfold count_events.
  induction l as [|e l IH]; simpl; [reflexivity|].
  destruct (Q e) eqn:Eq; [discriminate|]. intros H.
  rewrite (IH H), orb_false_r.
  destruct (P e) eqn:Ep; [|reflexivity].
  rewrite (HPQ e Ep) in Eq. discriminate Eq.
Qed.

Lemma commit_print_is_output (e : event) :
  is_commit_print e = true -> is_output e = true.
Proof. destruct e as [| | | | | | | | |m|]; try discriminate. destruct m; auto. Qed.

Lemma clipboard_is_output (e : event) :
  is_clipboard e = true -> is_output e = true.
Proof. destruct e; try discriminate. auto. Qed.

(** The order of a run of the entry point.  The model is called at
    most once, with the filtered diff as its prompt, and only after
    [server.start()] has returned, a non-blank diff has been read and
    the process snapshot has been taken.  A commit message is printed
    only after the model call, only when that call has returned an
    answer, and it is that answer with the note and without the
    boilerplate; nothing was printed or copied before it.  What goes
    to the clipboard is the text printed just before.  A run that ends
    normally has called the model once and has printed and copied the
    message, once each. *)
Theorem main_prints_after_inference (env : Env) (w : World) :
  let r := main env w in
  let evs := events_since w (snd r) in
  let d := env_input env in
  let prompt := fst (preprocess_diff d None) in
  (forall pre p post,
     evs = pre ++ EvInference p :: post ->
     p = prompt /\
     fst (OllamaServer.start env (fresh_server w)) = Done tt /\
     truthy (strip d) = true /\
     (exists pre', pre = pre' ++ [EvReadInput; EvPgrep]) /\
     count_events is_inference pre = 0%nat /\
     count_events is_inference post = 0%nat) /\
  (forall pre m post,
     evs = pre ++ EvPrint (MsgGeneratedCommitMessage m) :: post ->
     (exists content,
        env_llm env prompt = inr content /\
        m = commit_message_for d content) /\
     In (EvInference prompt) pre /\
     count_events is_output pre = 0%nat) /\
  (forall pre m post,
     evs = pre ++ EvClipboard m :: post ->
     exists pre',
       pre = pre' ++ [EvPrint (MsgGeneratedCommitMessage m)] /\
       count_events is_output pre' = 0%nat /\
       count_events is_output post = 0%nat) /\
  (fst r = Done tt ->
   exists content,
     env_llm env prompt = inr content /\
     count_events is_inference evs = 1%nat /\
     count_events is_output evs = 2%nat /\
     In (EvPrint (MsgGeneratedCommitMessage (commit_message_for d content)))
        evs /\
     In (EvClipboard (commit_message_for d content)) evs).
Proof.
  cbv zeta.
  destruct (main_events env w)
    as (sev & Hs & Ht & Ho & Hi & Hn &
        [(Hne & Hr & _ & _ & T & _)
        |[(_ & B & Hr & T & _)
         |[(Hst & B & e & L & Hr & T & _)
          |(Hst & B & content & L & Hr & T & _)]]]);
    rewrite (events_since_app _ _ _ T); clear T;
    set (d := env_input env) in *;
    set (prompt := fst (preprocess_diff d None)) in *.
  - (* [start] did not return *)
    assert (Hni : forall P, (forall e, P e = true -> is_inference e = true) ->
                            existsb P sev = false)
      by (intros P HP; exact (existsb_of_count P _ _ HP Hi)).
    assert (Hno : forall P, (forall e, P e = true -> is_output e = true) ->
                            existsb P sev = false)
      by (intros P HP; exact (existsb_of_count P _ _ HP Ho)).
    split; [|split; [|split]].
    + intros pre p post E. exfalso.
      exact (@none_of_kind _ is_inference _ _ _ _
               (Hni _ (fun _ H => H)) E eq_refl).
    + intros pre m post E. exfalso.
      exact (@none_of_kind _ is_commit_print _ _ _ _
               (Hno _ commit_print_is_output) E eq_refl).
    + intros pre m post E. exfalso.
      exact (@none_of_kind _ is_clipboard _ _ _ _
               (Hno _ clipboard_is_output) E eq_refl).
    + intros Hd. exfalso. apply Hne. rewrite <- Hr. exact Hd.
  - (* blank diff *)
    assert (Ci : count_events is_inference
                   (sev ++ [EvReadInput; EvPrint MsgNoDiffProvided]) = 0%nat)
      by (rewrite count_events_app, Hi; reflexivity).
    assert (Co : count_events is_output
                   (sev ++ [EvReadInput; EvPrint MsgNoDiffProvided]) = 0%nat)
      by (rewrite count_events_app, Ho; reflexivity).
    split; [|split; [|split]].
    + intros pre p post E. exfalso.
      exact (@none_of_kind _ is_inference _ _ _ _
               (existsb_of_count is_inference _ _ (fun _ H => H) Ci)
               E eq_refl).
    + intros pre m post E. exfalso.
      exact (@none_of_kind _ is_commit_print _ _ _ _
               (existsb_of_count _ _ _ commit_print_is_output Co)
               E eq_refl).
    + intros pre m post E. exfalso.
      exact (@none_of_kind _ is_clipboard _ _ _ _
               (existsb_of_count _ _ _ clipboard_is_output Co)
               E eq_refl).
    + intros Hd. rewrite Hr in Hd. discriminate Hd.
  - (* the model call raised *)
    destruct (count_cleanup_events (pid_snapshot env)
                (if snd (env_probe env (probes w))
                 then None else Some (env_popen env)))
      as (_ & _ & Cco & Cci & _).
    set (cl := cleanup_events (pid_snapshot env)
                 (if snd (env_probe env (probes w))
                  then None else Some (env_popen env))) in *.
    assert (Co : count_events is_output
                   (sev ++ [EvReadInput; EvPgrep; EvInference prompt] ++ cl)
                 = 0%nat)
      by (rewrite !count_events_app, Ho, Cco; reflexivity).
    split; [|split; [|split]].
    + intros pre p post E.
      change (sev ++ [EvReadInput; EvPgrep; EvInference prompt] ++ cl)
        with (sev ++ [EvReadInput; EvPgrep] ++ EvInference prompt :: cl) in E.
      rewrite app_assoc in E.
      assert (Ha : existsb is_inference (sev ++ [EvReadInput; EvPgrep]) = false).
      { apply (existsb_of_count is_inference is_inference); [auto|].
        rewrite count_events_app, Hi. reflexivity. }
      assert (Hb : existsb is_inference cl = false)
        by (apply (existsb_of_count is_inference is_inference); auto).
      destruct (@split_at_only _ is_inference _ _ _ Ha Hb _ _ _ E eq_refl)
        as (-> & Hp & ->).
      injection Hp as ->.
      split; [reflexivity|]. split; [exact Hst|]. split; [exact B|].
      split; [exists sev; reflexivity|].
      split; [rewrite count_events_app, Hi; reflexivity|exact Cci].
    + intros pre m post E. exfalso.
      exact (@none_of_kind _ is_commit_print _ _ _ _
               (existsb_of_count _ _ _ commit_print_is_output Co)
               E eq_refl).
    + intros pre m post E. exfalso.
      exact (@none_of_kind _ is_clipboard _ _ _ _
               (existsb_of_count _ _ _ clipboard_is_output Co)
               E eq_refl).
    + intros Hd. rewrite Hr in Hd. discriminate Hd.
  - (* the run ends normally *)
    destruct (count_cleanup_events (pid_snapshot env)
                (if snd (env_probe env (probes w))
                 then None else Some (env_popen env)))
      as (_ & _ & Cco & Cci & _).
    set (cl := cleanup_events (pid_snapshot env)
                 (if snd (env_probe env (probes w))
                  then None else Some (env_popen env))) in *.
    destruct (count_stop_events
                (if OllamaServer.pid_truthy (pid_snapshot env) then None
                 else if snd (env_probe env (probes w))
                      then None else Some (env_popen env)))
      as (_ & _ & Cso & Csi & _).
    set (st := stop_events
                 (if OllamaServer.pid_truthy (pid_snapshot env) then None
                  else if snd (env_probe env (probes w))
                       then None else Some (env_popen env))) in *.
    set (m0 := commit_message_for d content) in *.
    split; [|split; [|split]].
    + intros pre p post E.
      change (sev ++ [EvReadInput; EvPgrep; EvInference prompt] ++ cl
                ++ [EvPrint (MsgGeneratedCommitMessage m0); EvClipboard m0]
                ++ st)
        with (sev ++ [EvReadInput; EvPgrep] ++ EvInference prompt ::
                (cl ++ [EvPrint (MsgGeneratedCommitMessage m0);
                        EvClipboard m0] ++ st)) in E.
      rewrite app_assoc in E.
      assert (Ha : existsb is_inference (sev ++ [EvReadInput; EvPgrep]) = false).
      { apply (existsb_of_count is_inference is_inference); [auto|].
        rewrite count_events_app, Hi. reflexivity. }
      assert (Cb : count_events is_inference
                     (cl ++ [EvPrint (MsgGeneratedCommitMessage m0);
                             EvClipboard m0] ++ st) = 0%nat)
        by (rewrite !count_events_app, Cci, Csi; reflexivity).
      assert (Hb : existsb is_inference
                     (cl ++ [EvPrint (MsgGeneratedCommitMessage m0);
                             EvClipboard m0] ++ st) = false)
        by (apply (existsb_of_count is_inference is_inference); auto).
      destruct (@split_at_only _ is_inference _ _ _ Ha Hb _ _ _ E eq_refl)
        as (-> & Hp & ->).
      injection Hp as ->.
      split; [reflexivity|]. split; [exact Hst|]. split; [exact B|].
      split; [exists sev; reflexivity|].
      split; [rewrite count_events_app, Hi; reflexivity|exact Cb].
    + intros pre m post E.
      assert (E' : (sev ++ [EvReadInput; EvPgrep; EvInference prompt] ++ cl)
                     ++ EvPrint (MsgGeneratedCommitMessage m0)
                        :: (EvClipboard m0 :: st)
                   = pre ++ EvPrint (MsgGeneratedCommitMessage m) :: post)
        by (rewrite <- E, <- !app_assoc; reflexivity).
      assert (Ca : count_events is_output
                     (sev ++ [EvReadInput; EvPgrep; EvInference prompt] ++ cl)
                   = 0%nat)
        by (rewrite !count_events_app, Ho, Cco; reflexivity).
      assert (Hb : existsb is_commit_print (EvClipboard m0 :: st) = false).
      { simpl. apply (existsb_of_count _ _ _ commit_print_is_output Cso). }
      destruct (@split_at_only _ is_commit_print _ _ _
                  (existsb_of_count _ _ _ commit_print_is_output Ca)
                  Hb _ _ _ E' eq_refl) as (-> & Hm & _).
      injection Hm as ->.
      split; [exists content; auto|]. split; [|exact Ca].
      apply in_or_app. right. simpl. auto.
    + intros pre m post E.
      assert (E' : (sev ++ [EvReadInput; EvPgrep; EvInference prompt] ++ cl
                      ++ [EvPrint (MsgGeneratedCommitMessage m0)])
                     ++ EvClipboard m0 :: st
                   = pre ++ EvClipboard m :: post)
        by (rewrite <- E, <- !app_assoc; reflexivity).
      assert (Ca : count_events is_output
                     (sev ++ [EvReadInput; EvPgrep; EvInference prompt] ++ cl)
                   = 0%nat)
        by (rewrite !count_events_app, Ho, Cco; reflexivity).
      assert (Ha : existsb is_clipboard
                     (sev ++ [EvReadInput; EvPgrep; EvInference prompt] ++ cl
                        ++ [EvPrint (MsgGeneratedCommitMessage m0)]) = false).
      { rewrite !app_assoc, existsb_app, <- !app_assoc.
        rewrite (existsb_of_count _ _ _ clipboard_is_output Ca).
        reflexivity. }
      destruct (@split_at_only _ is_clipboard _ _ _ Ha
                  (existsb_of_count _ _ _ clipboard_is_output Cso)
                  _ _ _ E' eq_refl) as (-> & Hm & ->).
      injection Hm as ->.
      exists (sev ++ [EvReadInput; EvPgrep; EvInference prompt] ++ cl).
      split; [rewrite <- !app_assoc; reflexivity|]. split; [exact Ca|exact Cso].
    + intros _. exists content. split; [exact L|].
      split; [rewrite !count_events_app, Hi, Cci, Csi; reflexivity|].
      split; [rewrite !count_events_app, Ho, Cco, Cso; reflexivity|].
      split.
      * apply in_or_app. right. apply in_or_app. right.
        apply in_or_app. right. apply in_or_app. left. simpl. auto.
      * apply in_or_app. right. apply in_or_app. right.
        apply in_or_app. right. apply in_or_app. left. simpl. auto.
Qed.

Lemma main_prints_after_inference_witness :
  fst (main env_late_server world0) = Done tt /\
  exists content,
    env_llm env_late_server
      (fst (preprocess_diff (env_input env_late_server) None)) = inr content /\
    count_events is_output
      (events_since world0 (snd (main env_late_server world0))) = 2%nat.
Proof.
  split; [reflexivity|].
  destruct (proj2 (proj2 (proj2
              (main_prints_after_inference env_late_server world0))) eq_refl)
    as (content & L & _ & C & _).
  exists content. split; [exact L|exact C].
Defined.

(** A run that ends normally leaves no process recorded, and it has
    terminated every process it spawned exactly once. *)
Theorem main_success_releases_server (env : Env) (w : World) :
  fst (main env w) = Done tt ->
  let evs := events_since w (snd (main env w)) in
  proc (snd (main env w)) = None /\
  count_events is_terminate evs = count_events is_spawn evs /\
  count_events is_spawn evs =
    (if snd (env_probe env (probes w)) then 0 else 1)%nat.
Proof.
  intros Hdone. cbv zeta.
  destruct (main_events env w)
    as (sev & Hs & Ht & Ho & Hi & Hn &
        [(Hne & Hr & _)
        |[(_ & _ & Hr & _)
         |[(_ & _ & e & L & Hr & T & P)
          |(_ & _ & content & L & Hr & T & P)]]]);
    try (rewrite Hr in Hdone; discriminate Hdone).
  { exfalso. apply Hne. rewrite <- Hr. exact Hdone. }
  split; [exact P|]. rewrite (events_since_app _ _ _ T).
  count_run.
  destruct (OllamaServer.pid_truthy (pid_snapshot env));
    destruct (snd (env_probe env (probes w))); simpl; split; lia.
Qed.

Lemma main_success_releases_server_witness :
  fst (main env_late_server world0) = Done tt /\
  proc (snd (main env_late_server world0)) = None /\
  count_events is_terminate
    (events_since world0 (snd (main env_late_server world0))) = 1%nat.
Proof.
  split; [reflexivity|].
  destruct (@main_success_releases_server env_late_server world0 eq_refl)
    as (P & C & S).
  split; [exact P|]. rewrite C, S. reflexivity.
Defined.

(** The entry point never terminates a process it has not spawned:
    whatever happens, terminations are no more than spawns, the only
    handle terminated is the one [Popen] returned, and on a server
    that was already up nothing is spawned and nothing terminated. *)
Theorem main_terminates_only_own_process (env : Env) (w : World) :
  let evs := events_since w (snd (main env w)) in
  (count_events is_terminate evs <= count_events is_spawn evs <= 1)%nat /\
  (forall h, In (EvTerminate h) evs ->
     h = env_popen env /\ snd (env_probe env (probes w)) = false) /\
  (snd (env_probe env (probes w)) = true ->
     count_events is_spawn evs = 0%nat /\
     count_events is_terminate evs = 0%nat).
Proof.
  cbv zeta.
  assert (Hown : forall h (p : option N),
            p = Some h ->
            p = (if snd (env_probe env (probes w))
                 then None else Some (env_popen env)) ->
            h = env_popen env /\ snd (env_probe env (probes w)) = false).
  { intros h p -> E. destruct (snd (env_probe env (probes w)));
      [discriminate E|]. injection E as <-. auto. }
  assert (Hown' : forall h (p : option N),
            p = Some h ->
            p = (if OllamaServer.pid_truthy (pid_snapshot env) then None
                 else if snd (env_probe env (probes w))
                      then None else Some (env_popen env)) ->
            h = env_popen env /\ snd (env_probe env (probes w)) = false).
  { intros h p Hp E. destruct (OllamaServer.pid_truthy (pid_snapshot env));
      [congruence|]. exact (Hown h p Hp E). }
  destruct (main_events env w)
    as (sev & Hs & Ht & Ho & Hi & Hn &
        [(_ & _ & _ & _ & T & _)
        |[(_ & _ & _ & T & _)
         |[(_ & _ & e & _ & _ & T & _)
          |(_ & _ & content & _ & _ & T & _)]]]);
    rewrite (events_since_app _ _ _ T).
  - rewrite Hs, Ht. split; [|split].
    + destruct (snd (env_probe env (probes w))); lia.
    + intros h Hin. destruct (Hn h Hin).
    + intros ->. auto.
  - split; [|split].
    + count_run.
      destruct (snd (env_probe env (probes w))); lia.
    + intros h Hin. apply in_app_or in Hin. destruct Hin as [Hin|Hin];
        [destruct (Hn h Hin)|].
      repeat (destruct Hin as [Hin|Hin]; [discriminate Hin|]). destruct Hin.
    + intros E. count_run. rewrite ?E. auto.
  - split; [|split].
    + count_run.
      destruct (OllamaServer.pid_truthy (pid_snapshot env));
        destruct (snd (env_probe env (probes w))); simpl; lia.
    + intros h Hin. apply in_app_or in Hin. destruct Hin as [Hin|Hin];
        [destruct (Hn h Hin)|].
      apply in_app_or in Hin. destruct Hin as [Hin|Hin].
      * repeat (destruct Hin as [Hin|Hin]; [discriminate Hin|]). destruct Hin.
      * apply (proj2 (proj2 (proj2 (proj2
                 (count_cleanup_events _ _))))) in Hin.
        exact (Hown h _ Hin eq_refl).
    + intros E. count_run. rewrite ?E.
      destruct (OllamaServer.pid_truthy (pid_snapshot env)); auto.
  - split; [|split].
    + count_run.
      destruct (OllamaServer.pid_truthy (pid_snapshot env));
        destruct (snd (env_probe env (probes w))); simpl; lia.
    + intros h Hin. apply in_app_or in Hin. destruct Hin as [Hin|Hin];
        [destruct (Hn h Hin)|].
      apply in_app_or in Hin. destruct Hin as [Hin|Hin].
      * repeat (destruct Hin as [Hin|Hin]; [discriminate Hin|]). destruct Hin.
      * apply in_app_or in Hin. destruct Hin as [Hin|Hin].
        -- apply (proj2 (proj2 (proj2 (proj2
                    (count_cleanup_events _ _))))) in Hin.
           exact (Hown h _ Hin eq_refl).
        -- apply in_app_or in Hin. destruct Hin as [Hin|Hin].
           ++ repeat (destruct Hin as [Hin|Hin]; [discriminate Hin|]).
              destruct Hin.
           ++ apply (proj2 (proj2 (proj2 (proj2
                       (count_stop_events _))))) in Hin.
              exact (Hown' h _ Hin eq_refl).
    + intros E. count_run. rewrite ?E.
      destruct (OllamaServer.pid_truthy (pid_snapshot env)); auto.
Qed.

Lemma main_terminates_only_own_process_witness :
  snd (env_probe env_server_up (probes world0)) = true /\
  count_events is_terminate
    (events_since world0 (snd (main env_server_up world0))) = 0%nat.
Proof.
  split; [reflexivity|].
  exact (proj2 (proj2 (proj2 (main_terminates_only_own_process
                                env_server_up world0)) eq_refl)).
Defined.

(** When the model call raises, the error leaves the entry point, no
    message is printed or copied, and the last [server.stop()] is not
    reached: a server spawned by this run is terminated only if the
    process snapshot was truthy, and otherwise stays recorded in
    [self.proc], still running. *)
Theorem main_inference_failure (env : Env) (w : World) (e : exn) :
  fst (OllamaServer.start env (fresh_server w)) = Done tt ->
  truthy (strip (env_input env)) = true ->
  env_llm env (fst (preprocess_diff (env_input env) None)) = inl e ->
  let evs := events_since w (snd (main env w)) in
  let spawned := negb (snd (env_probe env (probes w))) in
  fst (main env w) = Raised e /\
  count_events is_output evs = 0%nat /\
  count_events is_terminate evs =
    (if OllamaServer.pid_truthy (pid_snapshot env) && spawned
     then 1 else 0)%nat /\
  proc (snd (main env w)) =
    (if OllamaServer.pid_truthy (pid_snapshot env) || negb spawned
     then None else Some (env_popen env)).
Proof.
  intros Hstart Hd Hl. cbv zeta.
  destruct (main_events env w)
    as (sev & Hs & Ht & Ho & Hi & Hn &
        [(Hne & _)
        |[(_ & B & _)
         |[(_ & _ & e' & L & Hr & T & P)
          |(_ & _ & content & L & _)]]]);
    try congruence.
  rewrite Hl in L. injection L as <-.
  split; [exact Hr|]. rewrite (events_since_app _ _ _ T), P.
  split; [count_run; lia|].
  split.
  - count_run.
    destruct (OllamaServer.pid_truthy (pid_snapshot env));
      destruct (snd (env_probe env (probes w))); reflexivity.
  - destruct (OllamaServer.pid_truthy (pid_snapshot env));
      destruct (snd (env_probe env (probes w))); reflexivity.
Qed.

Lemma main_inference_failure_witness :
  fst (main env_model_fails world0) = Raised (InferenceError 7) /\
  proc (snd (main env_model_fails world0)) = Some 4242%N /\
  count_events is_terminate
    (events_since world0 (snd (main env_model_fails world0))) = 0%nat.
Proof.
  destruct (@main_inference_failure env_model_fails world0 (InferenceError 7))
    as (R & _ & T & P); try reflexivity.
  split; [exact R|]. split; [exact P|exact T].
Defined.

(* ================================================================= *)
(** * Further properties of the partition and the filter *)

Lemma py_in_In (k : pystr) (l : list pystr) : py_in k l = true <-> In k l.
Proof.
  unfold py_in. rewrite existsb_exists. split.
  - intros (x & Hx & E). apply pystr_eqb_eq in E. subst x. exact Hx.
  - intros H. exists k. split; [exact H|apply pystr_eqb_refl].
Qed.

Lemma preprocess_diff_eq (D : pystr) (S : option (list pystr)) :
  preprocess_diff D S =
  (join NL (values (filter (kept (distracting S)) (split_diff_by_file D))),
   existsb (fun e => py_in (fst e) (distracting S)) (split_diff_by_file D)).
Proof.
  unfold preprocess_diff. fold (distracting S).
  rewrite preprocess_diff_with_run, filter_items_nodup; [reflexivity|].
  apply split_diff_by_file_keys.
Qed.

(** [preprocess_diff] keeps the segments of the other files in their
    order; it raises its flag exactly when a non-empty name extracted
    from a header of the diff is a distracting file; and with the flag
    down nothing was removed. *)
Theorem preprocess_diff_removes_distracting (D : pystr)
    (S : option (list pystr)) :
  let d := split_diff_by_file D in
  fst (preprocess_diff D S) =
    join NL (values (filter (kept (distracting S)) d)) /\
  (snd (preprocess_diff D S) = true <->
   exists k, k <> [] /\ In k (extracted_paths D) /\ In k (distracting S)) /\
  (snd (preprocess_diff D S) = false ->
   fst (preprocess_diff D S) = join NL (values d)) /\
  (forall k, In k (keys (filter (kept (distracting S)) d)) <->
             In k (keys d) /\ ~ In k (distracting S)).
Proof.
  cbv zeta. rewrite preprocess_diff_eq. simpl fst; simpl snd.
  destruct (split_diff_by_file_keys D) as [_ Hkeys].
  split; [reflexivity|]. split; [|split].
  - rewrite existsb_exists. split.
    + intros ([k v] & Hin & Hk). simpl in Hk. exists k.
      assert (Hkk : In k (keys (split_diff_by_file D)))
        by (apply in_map_iff; exists (k, v); auto).
      apply Hkeys, filter_In in Hkk. destruct Hkk as [He Ht].
      split; [destruct k; [discriminate Ht|discriminate]|].
      split; [exact He|apply py_in_In, Hk].
    + intros (k & Hne & He & Hs).
      assert (Hkk : In k (keys (split_diff_by_file D))).
      { apply Hkeys, filter_In. split; [exact He|].
        destruct k; [congruence|reflexivity]. }
      apply in_map_iff in Hkk. destruct Hkk as ([k' v] & <- & Hin).
      exists (k', v). split; [exact Hin|]. apply py_in_In, Hs.
  - intros Hflag. f_equal. f_equal. apply forallb_filter_id.
    apply forallb_forall. intros e He. unfold kept.
    destruct (py_in (fst e) (distracting S)) eqn:E; [|reflexivity].
    assert (Hex : existsb (fun e => py_in (fst e) (distracting S))
                    (split_diff_by_file D) = true)
      by (apply existsb_exists; exists e; auto).
    congruence.
  - intros k. rewrite keys_filter_kept, filter_In.
    rewrite negb_true_iff, <- not_true_iff_false, py_in_In. reflexivity.
Qed.

Lemma preprocess_diff_removes_distracting_witness :
  let D := lit "diff --git a/a.py b/a.py" ++ NL ++ lit "+1" ++ NL
           ++ lit "diff --git a/uv.lock b/uv.lock" ++ NL ++ lit "+2" in
  snd (preprocess_diff D None) = true /\
  In (lit "uv.lock") (extracted_paths D).
Proof.
  cbv zeta.
  destruct (preprocess_diff_removes_distracting
              (lit "diff --git a/a.py b/a.py" ++ NL ++ lit "+1" ++ NL
               ++ lit "diff --git a/uv.lock b/uv.lock" ++ NL ++ lit "+2")
              None) as (_ & Hflag & _).
  split.
  - apply Hflag. exists (lit "uv.lock").
    split; [discriminate|]. split; vm_compute; auto.
  - vm_compute. auto.
Defined.

(** The mapping is empty exactly when no header yields a non-empty
    name, in particular for a text without any [diff --git] line; the
    filter then returns the empty text with the flag down, and that
    empty text is the prompt the model gets. *)
Theorem split_empty_without_names (D : pystr) :
  (split_diff_by_file D = [] <-> filter truthy (extracted_paths D) = []) /\
  (headers D = [] -> split_diff_by_file D = []) /\
  (split_diff_by_file D = [] ->
   (forall S, preprocess_diff D S = ([], false)) /\
   forall env w,
     events_since w (snd (generate_commit_message env D w)) =
     EvPgrep :: EvInference [] :: cleanup_events (pid_snapshot env) (proc w)).
Proof.
  destruct (split_diff_by_file_keys D) as [_ Hkeys].
  assert (Hiff : split_diff_by_file D = [] <->
                 filter truthy (extracted_paths D) = []).
  { split; intros E.
    - destruct (filter truthy (extracted_paths D)) as [|k l] eqn:F;
        [reflexivity|].
      assert (Hin : In k (keys (split_diff_by_file D)))
        by (apply Hkeys; rewrite ?F; left; reflexivity).
      rewrite E in Hin. destruct Hin.
    - destruct (split_diff_by_file D) as [|[k v] d] eqn:F; [reflexivity|].
      assert (Hin : In k (filter truthy (extracted_paths D)))
        by (apply Hkeys; left; reflexivity).
      rewrite E in Hin. destruct Hin. }
  split; [exact Hiff|]. split.
  - intros Hh. apply Hiff. unfold extracted_paths. rewrite Hh. reflexivity.
  - intros E.
    assert (Hpre : forall S, preprocess_diff D S = ([], false)).
    { intros S. rewrite preprocess_diff_eq, E. reflexivity. }
    split; [exact Hpre|]. intros env w. apply events_since_app.
    rewrite generate_commit_message_eq. simpl. rewrite Hpre. reflexivity.
Qed.

Lemma split_empty_without_names_witness :
  let D := lit "not a diff" ++ NL ++ lit "at all" in
  headers D = [] /\ preprocess_diff D None = ([], false).
Proof.
  cbv zeta. split; [reflexivity|].
  destruct (split_empty_without_names
              (lit "not a diff" ++ NL ++ lit "at all")) as (_ & Hh & He).
  apply (He (Hh eq_refl)).
Defined.

Lemma startswith_app (p h r : pystr) :
  startswith p h = true -> startswith p (h ++ r) = true.
Proof.
  revert h. induction p as [|a p IH]; intros [|b h] H; simpl in *;
    try reflexivity; try discriminate.
  apply andb_prop in H. destruct H as [H1 H2].
  rewrite H1, (IH _ H2). reflexivity.
Qed.

Lemma join_starts_with_head (sep l : pystr) (ls : list pystr) :
  exists r, join sep (l :: ls) = l ++ r.
Proof.
  destruct ls as [|l' ls].
  - exists []. simpl. rewrite app_nil_r. reflexivity.
  - eexists. apply join_cons_cons.
Qed.

Lemma saves_chunks (cs : list (pystr * list pystr)) :
  forall cur o seg,
    In (o, seg) (saves cur cs) ->
    exists c, In c cs /\ seg = chunk_lines c /\
              forall k, header_name (fst c) = Some k -> o = Some k.
Proof.
  induction cs as [|[h b] cs IH]; intros cur o seg; simpl; [tauto|].
  intros [E|Hin].
  - injection E as <- <-. exists (h, b). split; [left; reflexivity|].
    split; [reflexivity|]. simpl. intros k Hk. unfold next_file.
    rewrite Hk. reflexivity.
  - destruct (IH _ _ _ Hin) as (c & Hc & Hs & Hk).
    exists c. split; [right; exact Hc|]. auto.
Qed.

(** A property of the values that holds of every saved list of lines
    holds of every entry. *)
Lemma fold_save_as_Forall (P : pystr * pystr -> Prop)
    (ss : list (option pystr * list pystr)) :
  (forall f seg, In (Some f, seg) ss -> f <> [] ->
                 P (f, join NL seg)) ->
  forall d, Forall P d -> Forall P (fold_left save_as ss d).
Proof.
  induction ss as [|[o seg] ss IH]; intros Hss d Hd; [exact Hd|].
  simpl. apply IH.
  - intros f seg' Hin. apply Hss. right. exact Hin.
  - unfold save_as, save_current. simpl.
    destruct o as [f|]; [|exact Hd].
    destruct (truthy f && negb (Nat.eqb (length seg) 0)) eqn:E; [|exact Hd].
    apply Forall_setitem; [exact Hd|]. apply Hss; [left; reflexivity|].
    apply andb_prop in E. destruct E as [E _].
    destruct f; [discriminate E|discriminate].
Qed.

Lemma chunk_lines_in (ls : list pystr) (c : pystr * list pystr) (l : pystr) :
  In c (snd (chunks ls)) -> In l (chunk_lines c) -> In l ls.
Proof.
  intros Hc Hl. rewrite (chunks_concat ls). apply in_or_app. right.
  apply in_concat. exists (chunk_lines c). split; [|exact Hl].
  apply in_map, Hc.
Qed.

(** Every value of the mapping is one header line of the diff
    followed by content lines of the diff, joined by line feeds: it
    starts with ["diff --git"], holds no second header line, and sits
    under a non-empty key. *)
Theorem split_values_are_segments (D k v : pystr) :
  In (k, v) (split_diff_by_file D) ->
  k <> [] /\
  startswith diff_git v = true /\
  exists h body,
    v = join NL (h :: body) /\
    In h (headers D) /\
    Forall (fun l => is_header l = false /\ In l (splitlines D)) body.
Proof.
  intros Hin.
  assert (Hk : k <> []).
  { destruct (split_diff_by_file_keys D) as [_ Hkeys].
    assert (Hkk : In k (keys (split_diff_by_file D)))
      by (apply in_map_iff; exists (k, v); auto).
    apply Hkeys, filter_In in Hkk. destruct Hkk as [_ Ht].
    destruct k; [discriminate Ht|discriminate]. }
  split; [exact Hk|].
  set (P := fun e : pystr * pystr =>
              exists h body,
                snd e = join NL (h :: body) /\
                In h (headers D) /\
                Forall (fun l => is_header l = false /\ In l (splitlines D))
                       body).
  assert (HP : Forall P (split_diff_by_file D)).
  { unfold split_diff_by_file. rewrite split_diff_lines_saves.
    apply fold_save_as_Forall; [|constructor].
    intros f seg Hs _. apply saves_chunks in Hs.
    destruct Hs as ([h b] & Hc & -> & _).
    destruct (chunks_shape (splitlines D)) as [_ Hshape].
    rewrite Forall_forall in Hshape. destruct (Hshape _ Hc) as [Hh Hb].
    simpl in Hh, Hb. exists h, b. split; [reflexivity|]. split.
    - unfold headers. apply filter_In. split; [|exact Hh].
      eapply chunk_lines_in; [exact Hc|]. left. reflexivity.
    - rewrite Forall_forall in *. intros l Hl. split; [apply Hb, Hl|].
      eapply chunk_lines_in; [exact Hc|]. right. exact Hl. }
  rewrite Forall_forall in HP. destruct (HP _ Hin) as (h & body & Hv & Hh & Hb).
  simpl snd in Hv. split; [|exists h, body; auto].
  destruct (join_starts_with_head NL h body) as (r & Hr).
  rewrite Hv, Hr. apply startswith_app. unfold headers in Hh. apply filter_In in Hh.
  apply Hh.
Qed.

Lemma split_values_are_segments_witness :
  let D := lit "intro" ++ NL ++ lit "diff --git a/x b/x" ++ NL ++ lit "+1" in
  In (lit "x", lit "diff --git a/x b/x" ++ NL ++ lit "+1")
     (split_diff_by_file D) /\
  startswith diff_git (lit "diff --git a/x b/x" ++ NL ++ lit "+1") = true.
Proof.
  cbv zeta.
  assert (Hin : In (lit "x", lit "diff --git a/x b/x" ++ NL ++ lit "+1")
                  (split_diff_by_file
                     (lit "intro" ++ NL ++ lit "diff --git a/x b/x" ++ NL
                      ++ lit "+1"))) by (left; reflexivity).
  split; [exact Hin|].
  exact (proj1 (proj2 (split_values_are_segments _ _ _ Hin))).
Defined.

(** Lines before the first header are dropped: a text and the same
    text without its header-free opening lines give the same
    mapping. *)
Theorem split_ignores_preamble (D D' : pystr) (pre : list pystr) :
  splitlines D = pre ++ splitlines D' ->
  Forall (fun l => is_header l = false) pre ->
  split_diff_by_file D = split_diff_by_file D' /\
  forall S, preprocess_diff D S = preprocess_diff D' S.
Proof.
  intros HD Hpre.
  assert (E : split_diff_by_file D = split_diff_by_file D').
  { unfold split_diff_by_file, split_diff_lines. rewrite HD, fold_left_app.
    rewrite (fold_split_step_content Hpre). simpl.
    apply split_pending_irrelevant. }
  split; [exact E|]. intros S. rewrite !preprocess_diff_eq, E. reflexivity.
Qed.

Lemma split_ignores_preamble_witness :
  split_diff_by_file
    (lit "commit 1f2e" ++ NL ++ NL ++ lit "diff --git a/x b/x" ++ NL ++ lit "+1") =
  split_diff_by_file (lit "diff --git a/x b/x" ++ NL ++ lit "+1").
Proof.
  apply (@split_ignores_preamble _ _ [lit "commit 1f2e"; []]).
  - reflexivity.
  - repeat constructor.
Defined.

(** ** The order of the keys *)

Lemma push_new_in (l : list pystr) (k : pystr) :
  In k l -> push_new l k = l.
Proof.
  intros H. unfold push_new.
  destruct (in_dec (list_eq_dec N.eq_dec) k l); [reflexivity|contradiction].
Qed.

Lemma in_push_new (l : list pystr) (k : pystr) : In k (push_new l k).
Proof.
  unfold push_new. destruct (in_dec (list_eq_dec N.eq_dec) k l); [assumption|].
  apply in_or_app. right. left. reflexivity.
Qed.

Lemma keys_save_as (d : dict pystr) (s : option pystr * list pystr) :
  keys (save_as d s) = fold_left push_new (stored_name s) (keys d).
Proof.
  unfold save_as, save_current, stored_name. simpl.
  destruct (fst s) as [f|]; [|reflexivity].
  destruct (truthy f && negb (Nat.eqb (length (snd s)) 0)); [|reflexivity].
  simpl. apply keys_setitem.
Qed.

Lemma keys_fold_save_as (ss : list (option pystr * list pystr)) :
  forall d,
    keys (fold_left save_as ss d) =
    fold_left push_new (flat_map stored_name ss) (keys d).
Proof.
  induction ss as [|s ss IH]; intros d; [reflexivity|].
  simpl. rewrite IH, keys_save_as, fold_left_app. reflexivity.
Qed.

Lemma stored_name_chunk (o : option pystr) (h : pystr) (b : list pystr) :
  stored_name (o, h :: b) =
  match o with
  | Some f => if truthy f then [f] else []
  | None => []
  end.
Proof.
  unfold stored_name. simpl. destruct o as [f|]; [|reflexivity].
  rewrite andb_true_r. reflexivity.
Qed.

(** The names stored for the chunks are pushed in the order of the
    names the headers yield: a chunk saved under an inherited name
    pushes a name that is there already. *)
Lemma stored_names_of_saves (cs : list (pystr * list pystr)) :
  forall cur acc,
    match cur with
    | None => True
    | Some f => f = [] \/ In f acc
    end ->
    fold_left push_new (flat_map stored_name (saves cur cs)) acc =
    fold_left push_new
      (filter truthy
         (flat_map (fun h => match header_name h with
                             | Some f => [f]
                             | None => []
                             end) (map fst cs))) acc.
Proof.
  induction cs as [|[h b] cs IH]; intros cur acc Hcur; [reflexivity|].
  change (saves cur ((h, b) :: cs))
    with ((next_file cur h, h :: b) :: saves (next_file cur h) cs).
  change (flat_map stored_name
            ((next_file cur h, h :: b) :: saves (next_file cur h) cs))
    with (stored_name (next_file cur h, h :: b)
            ++ flat_map stored_name (saves (next_file cur h) cs)).
  rewrite stored_name_chunk, fold_left_app.
  simpl map. simpl flat_map. rewrite filter_app, fold_left_app.
  unfold next_file.
  destruct (header_name h) as [f|] eqn:Eh.
  - destruct f as [|c f]; simpl.
    + apply IH. left. reflexivity.
    + apply IH. right. apply in_push_new.
  - simpl. destruct cur as [f|]; [|simpl; apply IH; exact I].
    destruct Hcur as [->|Hin].
    + simpl. apply IH. left. reflexivity.
    + destruct (truthy f); simpl.
      * rewrite (push_new_in _ _ Hin). apply IH. right. exact Hin.
      * apply IH. right. exact Hin.
Qed.

Lemma fold_push_new_distinct (l : list pystr) :
  forall acc, NoDup (acc ++ l) -> fold_left push_new l acc = acc ++ l.
Proof.
  induction l as [|k l IH]; intros acc Hnd; simpl.
  - rewrite app_nil_r. reflexivity.
  - unfold push_new at 2.
    destruct (in_dec (list_eq_dec N.eq_dec) k acc) as [Hin|Hout].
    + apply NoDup_remove_2 in Hnd. exfalso. apply Hnd, in_or_app. auto.
    + rewrite IH; rewrite <- app_assoc; [reflexivity|exact Hnd].
Qed.

(** The keys are the non-empty names the headers yield, each once, in
    the order in which the names first appear in the text, whether or
    not a name comes again and whatever the other headers look like;
    when these names are pairwise distinct the keys are just their
    list. *)
Theorem split_keys_first_appearance (D : pystr) :
  keys (split_diff_by_file D) =
    first_seen (filter truthy (extracted_paths D)) /\
  (NoDup (filter truthy (extracted_paths D)) ->
   keys (split_diff_by_file D) = filter truthy (extracted_paths D)).
Proof.
  assert (E : keys (split_diff_by_file D) =
              first_seen (filter truthy (extracted_paths D))).
  { unfold split_diff_by_file. rewrite split_diff_lines_saves.
    rewrite keys_fold_save_as, stored_names_of_saves by exact I.
    unfold first_seen, extracted_paths, headers.
    rewrite chunks_headers. reflexivity. }
  split; [exact E|]. intros Hnd. rewrite E. unfold first_seen.
  apply (fold_push_new_distinct _ []). exact Hnd.
Qed.

Lemma split_keys_first_appearance_witness :
  let D := lit "diff --git a/b.py b/b.py" ++ NL ++ lit "+1" ++ NL
           ++ lit "diff --git a/a.py b/a.py" ++ NL ++ lit "+2" ++ NL
           ++ lit "diff --git a/b.py b/b.py" ++ NL ++ lit "+3" in
  keys (split_diff_by_file D) = [lit "b.py"; lit "a.py"].
Proof.
  cbv zeta. rewrite (proj1 (split_keys_first_appearance _)). reflexivity.
Defined.

(** ** The second pass never finds a distracting file *)

Lemma splitlines_join_incl (L : list pystr) :
  Forall no_linebreak L -> incl (splitlines (join NL L)) L.
Proof.
  induction 1 as [|l L Hl HL IH]; [intros x []|].
  destruct L as [|l' L].
  - simpl join. destruct l as [|c l].
    + intros x [].
    + rewrite (splitlines_single Hl) by discriminate. apply incl_refl.
  - rewrite join_cons_cons.
    change (l ++ NL ++ join NL (l' :: L))
      with (l ++ LF :: join NL (l' :: L)).
    rewrite (splitlines_line _ Hl). intros x [<-|Hx].
    + left. reflexivity.
    + right. apply IH, Hx.
Qed.

(** Every entry of the first pass comes with the chunk it was saved
    from. *)
Lemma first_pass_entries (ls : list pystr) :
  Forall no_linebreak ls ->
  exists kcs,
    split_diff_lines ls = map saved_entry kcs /\
    Forall entry_of_chunk kcs.
Proof.
  intros Hlb.
  set (P := fun e : pystr * pystr =>
              exists c, entry_of_chunk (fst e, c) /\
                        snd e = join NL (chunk_lines c)).
  assert (HP : Forall P (split_diff_lines ls)).
  { rewrite split_diff_lines_saves.
    apply fold_save_as_Forall; [|constructor].
    intros f seg Hs _. apply saves_chunks in Hs.
    destruct Hs as (c & Hc & -> & Hk).
    destruct (chunks_shape ls) as [_ Hshape].
    rewrite Forall_forall in Hshape. destruct (Hshape _ Hc) as [Hh Hb].
    exists c. split; [|reflexivity]. unfold entry_of_chunk. simpl.
    split; [exact Hh|]. split; [exact Hb|]. split.
    - rewrite Forall_forall in *. intros l Hl. apply Hlb.
      eapply chunk_lines_in; eassumption.
    - intros k E. specialize (Hk k E). congruence. }
  induction HP as [|[k v] d HPk _ (kcs & E & Hk)].
  - exists []. split; [reflexivity|constructor].
  - destruct HPk as (c & Hc & Hv).
    exists ((k, c) :: kcs). simpl in Hv, Hc. split.
    + simpl. rewrite E. unfold saved_entry at 1. simpl. rewrite Hv.
      reflexivity.
    + constructor; assumption.
Qed.

(** A header line among the lines of saved chunks is the header of one
    of the chunks. *)
Lemma header_of_saved_chunks (kcs : list (pystr * (pystr * list pystr)))
    (h : pystr) :
  Forall entry_of_chunk kcs ->
  In h (concat (map (fun kc => chunk_lines (snd kc)) kcs)) ->
  is_header h = true ->
  exists kc, In kc kcs /\ h = fst (snd kc).
Proof.
  intros Hok Hin Hh. apply in_concat in Hin.
  destruct Hin as (seg & Hseg & Hl). apply in_map_iff in Hseg.
  destruct Hseg as (kc & <- & Hkc). exists kc. split; [exact Hkc|].
  rewrite Forall_forall in Hok. destruct (Hok _ Hkc) as (_ & Hb & _).
  destruct Hl as [E|Hl]; [symmetry; exact E|].
  rewrite Forall_forall in Hb. rewrite (Hb _ Hl) in Hh. discriminate Hh.
Qed.

(** A header line of the filtered text that yields a name yields the
    key of a segment the filter kept. *)
Lemma filtered_text_headers (D : pystr) (S : option (list pystr))
    (h k : pystr) :
  In h (headers (fst (preprocess_diff D S))) ->
  header_name h = Some k ->
  In k (keys (filter (kept (distracting S)) (split_diff_by_file D))).
Proof.
  rewrite (preprocess_diff_eq D S). simpl fst.
  set (S' := distracting S).
  destruct (@first_pass_entries (splitlines D) (splitlines_no_linebreak D))
    as (kcs & E & Hok).
  fold (split_diff_by_file D) in E.
  set (kcs2 := filter (fun kc => kept S' (saved_entry kc)) kcs).
  assert (E2 : filter (kept S') (split_diff_by_file D) = map saved_entry kcs2).
  { rewrite E. apply filter_map_swap. }
  assert (Hok2 : Forall entry_of_chunk kcs2).
  { rewrite Forall_forall in *. intros kc Hkc. apply Hok.
    apply filter_In in Hkc. apply Hkc. }
  set (L := concat (map (fun kc => chunk_lines (snd kc)) kcs2)).
  assert (EF : join NL (values (filter (kept S') (split_diff_by_file D))) =
               join NL L).
  { rewrite E2. unfold values. rewrite map_map.
    change (map (fun x => snd (saved_entry x)) kcs2)
      with (map (fun kc => join NL (chunk_lines (snd kc))) kcs2).
    rewrite <- (map_map (fun kc => chunk_lines (snd kc)) (join NL)).
    apply join_concat. apply Forall_map, Forall_forall.
    intros kc _. discriminate. }
  rewrite EF.
  assert (HL : Forall no_linebreak L).
  { unfold L. rewrite Forall_concat, Forall_map.
    eapply Forall_impl; [|exact Hok2]. intros kc Hkc. apply Hkc. }
  intros Hh Hn. unfold headers in Hh. apply filter_In in Hh.
  destruct Hh as [Hin Hh]. apply (splitlines_join_incl HL) in Hin.
  destruct (header_of_saved_chunks _ Hok2 Hin Hh) as (kc & Hkc & ->).
  rewrite Forall_forall in Hok2. destruct (Hok2 _ Hkc) as (_ & _ & _ & Hname).
  rewrite E2. unfold keys. rewrite map_map.
  apply in_map_iff. exists kc. split; [|exact Hkc].
  simpl. symmetry. apply Hname, Hn.
Qed.

(** Filtering the filtered text again never reports an omission, and
    the second pass finds no file that the first pass had not kept:
    every key it extracts is a key kept by the first pass. *)
Theorem preprocess_diff_second_pass_quiet (D : pystr)
    (S : option (list pystr)) :
  let F := fst (preprocess_diff D S) in
  snd (preprocess_diff F S) = false /\
  incl (keys (split_diff_by_file F))
       (keys (filter (kept (distracting S)) (split_diff_by_file D))) /\
  forall k, In k (keys (split_diff_by_file F)) -> ~ In k (distracting S).
Proof.
  cbv zeta.
  assert (Hkey : incl (keys (split_diff_by_file (fst (preprocess_diff D S))))
                      (keys (filter (kept (distracting S))
                               (split_diff_by_file D)))).
  { intros k Hk.
    destruct (split_diff_by_file_keys (fst (preprocess_diff D S)))
      as [_ Hkeys].
    apply Hkeys, filter_In in Hk. destruct Hk as [Hk _].
    apply in_extracted_paths in Hk. destruct Hk as (h & Hh & Hn).
    exact (filtered_text_headers D S h Hh Hn). }
  assert (Hquiet : forall k,
             In k (keys (split_diff_by_file (fst (preprocess_diff D S)))) ->
             py_in k (distracting S) = false).
  { intros k Hk. apply Hkey in Hk. rewrite keys_filter_kept in Hk.
    apply filter_In in Hk. destruct Hk as [_ Hk].
    apply negb_true_iff in Hk. exact Hk. }
  split; [|split].
  - rewrite preprocess_diff_eq. simpl snd.
    destruct (existsb _ _) eqn:X; [|reflexivity].
    apply existsb_exists in X. destruct X as ([k v] & Hin & Hk).
    simpl in Hk. rewrite Hquiet in Hk; [discriminate Hk|].
    apply in_map_iff. exists (k, v). auto.
  - exact Hkey.
  - intros k Hk Hin. apply py_in_In in Hin.
    rewrite (Hquiet k Hk) in Hin. discriminate Hin.
Qed.

(** The distracting files do not reach the model: the prompt of the
    one inference call of [generate_commit_message] is the filtered
    text, and none of its header lines yields ["pyproject.toml"] or
    ["uv.lock"], or any name that is not a key of the mapping. *)
Theorem prompt_has_no_distracting_header (env : Env) (D : pystr) (w : World) :
  let p := fst (preprocess_diff D None) in
  let evs := events_since w (snd (generate_commit_message env D w)) in
  count_events is_inference evs = 1%nat /\
  In (EvInference p) evs /\
  forall h k,
    In h (headers p) -> header_name h = Some k ->
    k <> lit "pyproject.toml" /\ k <> lit "uv.lock" /\
    In k (keys (split_diff_by_file D)).
Proof.
  cbv zeta.
  assert (T : events_since w (snd (generate_commit_message env D w)) =
              EvPgrep :: EvInference (fst (preprocess_diff D None))
                :: cleanup_events (pid_snapshot env) (proc w)).
  { apply events_since_app. rewrite generate_commit_message_eq. reflexivity. }
  rewrite T. split; [|split].
  - change (EvPgrep :: EvInference (fst (preprocess_diff D None))
              :: cleanup_events (pid_snapshot env) (proc w))
      with ([EvPgrep; EvInference (fst (preprocess_diff D None))]
              ++ cleanup_events (pid_snapshot env) (proc w)).
    count_run. reflexivity.
  - right. left. reflexivity.
  - intros h k Hh Hn.
    pose proof (filtered_text_headers D None h Hh Hn) as Hk.
    rewrite keys_filter_kept in Hk. apply filter_In in Hk.
    destruct Hk as [Hkeys Hk]. apply negb_true_iff in Hk.
    split; [|split; [|exact Hkeys]]; intros ->; discriminate Hk.
Qed.

Lemma prompt_has_no_distracting_header_witness :
  let D := lit "diff --git a/uv.lock b/uv.lock" ++ NL ++ lit "+1" ++ NL
           ++ lit "diff --git a/b.py b/b.py" ++ NL ++ lit "+2" in
  headers (fst (preprocess_diff D None)) = [lit "diff --git a/b.py b/b.py"] /\
  lit "b.py" <> lit "uv.lock".
Proof.
  cbv zeta. split; [vm_compute; reflexivity|].
  destruct (prompt_has_no_distracting_header env_server_up
              (lit "diff --git a/uv.lock b/uv.lock" ++ NL ++ lit "+1" ++ NL
               ++ lit "diff --git a/b.py b/b.py" ++ NL ++ lit "+2") world0)
    as (_ & _ & H).
  assert (Hh : In (lit "diff --git a/b.py b/b.py")
                 (headers (fst (preprocess_diff
                    (lit "diff --git a/uv.lock b/uv.lock" ++ NL ++ lit "+1"
                     ++ NL ++ lit "diff --git a/b.py b/b.py" ++ NL
                     ++ lit "+2") None))))
    by (vm_compute; auto).
  assert (Hn : header_name (lit "diff --git a/b.py b/b.py") = Some (lit "b.py"))
    by (vm_compute; reflexivity).
  exact (proj1 (proj2 (H _ _ Hh Hn))).
Defined.

(* ================================================================= *)
(** * Further properties of the response clean-up *)

Lemma re_match_chars (r : list re_item) :
  forall p s,
    re_match (map (fun c => ReChar (ignorecase_literal c)) p ++ r) s =
    match strip_literal_ci p s with
    | Some t => re_match r t
    | None => None
    end.
Proof.
  induction p as [|c p IH]; intros s; [reflexivity|].
  simpl. destruct s as [|x s]; [reflexivity|].
  destruct (ignorecase_literal c x); [apply IH|reflexivity].
Qed.

Lemma star_literal_only_star (y : N) :
  ignorecase_literal 42 y = true -> y = 42%N.
Proof.
  unfold ignorecase_literal.
  change (ascii_swapcase 42) with 42%N.
  change (ignorecase_extra 42) with (@nil N). simpl.
  rewrite !orb_false_r, orb_diag. apply N.eqb_eq.
Qed.

Lemma space_is_no_star (x : N) :
  is_space x = true -> ignorecase_literal 42 x = false.
Proof.
  intros Hs. destruct (ignorecase_literal 42 x) eqn:E; [|reflexivity].
  apply star_literal_only_star in E. subst x. discriminate Hs.
Qed.

(** A greedy star whose continuation cannot start on a character of
    its class: backtracking never helps, the star takes the whole
    run. *)
Lemma re_match_star_skip (r : list re_item) :
  (forall x s, is_space x = true -> re_match r (x :: s) = None) ->
  forall s, re_match (ReStar is_space :: r) s = re_match r (lstrip s).
Proof.
  intros Hr. induction s as [|x s IH]; [reflexivity|].
  rewrite re_match_star_cons. simpl lstrip.
  destruct (is_space x) eqn:E; [|reflexivity].
  rewrite IH. destruct (re_match r (lstrip s)) eqn:M; [reflexivity|].
  apply Hr, E.
Qed.

Lemma re_match_commit_prefix (s : pystr) :
  re_match commit_prefix_pattern s =
  match strip_literal_ci commit_message_prefix (lstrip s) with
  | Some tail => Some (lstrip tail)
  | None => None
  end.
Proof.
  unfold commit_prefix_pattern. rewrite re_match_star_skip.
  - rewrite re_match_chars.
    destruct (strip_literal_ci commit_message_prefix (lstrip s));
      [apply re_match_trailing_space|reflexivity].
  - intros x s' Hx. rewrite re_match_chars.
    change commit_message_prefix
      with (42%N :: tl commit_message_prefix).
    simpl strip_literal_ci. rewrite (space_is_no_star _ Hx). reflexivity.
Qed.

Lemma lstrip_suffix (s : pystr) : exists ws, s = ws ++ lstrip s.
Proof.
  induction s as [|c s (ws & IH)]; [exists []; reflexivity|].
  simpl. destruct (is_space c).
  - exists (c :: ws). simpl. rewrite <- IH. reflexivity.
  - exists []. reflexivity.
Qed.

Lemma strip_literal_ci_split (p : pystr) :
  forall s t,
    strip_literal_ci p s = Some t ->
    exists m, s = m ++ t /\
              Forall2 (fun c y => ignorecase_literal c y = true) p m.
Proof.
  induction p as [|c p IH]; intros s t H; simpl in H.
  - injection H as <-. exists []. split; [reflexivity|constructor].
  - destruct s as [|x s]; [discriminate H|].
    destruct (ignorecase_literal c x) eqn:E; [|discriminate H].
    destruct (IH _ _ H) as (m & -> & Hm).
    exists (x :: m). split; [reflexivity|]. constructor; assumption.
Qed.

Lemma lstrip_keeps_tail (a : pystr) :
  exists a', lstrip (a ++ documentation_tail) = a' ++ documentation_tail.
Proof.
  induction a as [|c a IH]; [exists []; reflexivity|].
  simpl. destruct (is_space c); [exact IH|].
  exists (c :: a). reflexivity.
Qed.

(** The literal ends in an asterisk and the note has none: the
    literal cannot reach into the note. *)
Lemma strip_literal_keeps_tail (a t : pystr) :
  strip_literal_ci commit_message_prefix (a ++ documentation_tail) = Some t ->
  exists a', t = a' ++ documentation_tail.
Proof.
  intros H. apply strip_literal_ci_split in H. destruct H as (m & E & Hm).
  change commit_message_prefix
    with (removelast commit_message_prefix ++ [42%N]) in Hm.
  apply Forall2_app_inv_l in Hm.
  destruct Hm as (m0 & m1 & _ & H1 & ->).
  inversion H1 as [|? y ? ? Hy Hnil]; subst. inversion Hnil; subst.
  apply star_literal_only_star in Hy. subst y.
  apply app_eq_app in E. destruct E as (l & [[-> ->]|[Hml Ht]]).
  - exists l. reflexivity.
  - destruct l as [|z l].
    + exists []. rewrite Ht. reflexivity.
    + exfalso.
      destruct (@exists_last _ (z :: l)) as (l0 & z' & El); [discriminate|].
      rewrite El, app_assoc in Hml. apply app_inj_tail in Hml.
      destruct Hml as [_ <-].
      assert (Hin : In 42%N documentation_tail).
      { rewrite Ht, El. apply in_or_app. left. apply in_or_app. right.
        left. reflexivity. }
      revert Hin. vm_compute. intros Hin.
      repeat (destruct Hin as [Hin|Hin]; [discriminate Hin|]). exact Hin.
Qed.

(** The clean-up as a function on strings: leading whitespace, the
    literal in any case, and the whitespace after it are removed when
    the literal is there and nothing is touched otherwise.  The result
    is always the end of the response with its note, and with the note
    it always ends in ["and updated documentation accordingly"]. *)
Theorem finish_message_spec (note : bool) (response : pystr) :
  let s := response ++ (if note then documentation_note else []) in
  finish_message note response =
    match strip_literal_ci commit_message_prefix (lstrip s) with
    | Some tail => lstrip tail
    | None => s
    end /\
  (exists removed, s = removed ++ finish_message note response) /\
  (note = true ->
   exists body, finish_message note response = body ++ documentation_tail).
Proof.
  cbv zeta.
  assert (E : finish_message note response =
              match strip_literal_ci commit_message_prefix
                      (lstrip (response ++
                               (if note then documentation_note else [])))
              with
              | Some tail => lstrip tail
              | None => response ++ (if note then documentation_note else [])
              end).
  { unfold finish_message, re_sub_anchored.
    destruct note; rewrite ?app_nil_r; rewrite re_match_commit_prefix;
      destruct (strip_literal_ci _ _); reflexivity. }
  split; [exact E|]. rewrite E. split.
  - destruct (lstrip_suffix (response ++
                             (if note then documentation_note else [])))
      as (ws & Hws).
    destruct (strip_literal_ci _ _) as [tail|] eqn:H.
    + apply strip_literal_ci_split in H. destruct H as (m & Hm & _).
      destruct (lstrip_suffix tail) as (ws2 & Hws2).
      exists (ws ++ m ++ ws2). rewrite Hws at 1. rewrite Hm.
      rewrite Hws2 at 1. rewrite <- !app_assoc. reflexivity.
    + exists []. reflexivity.
  - intros ->. cbv iota.
    assert (Hs : response ++ documentation_note =
                 (response ++ [32%N]) ++ documentation_tail)
      by (rewrite <- app_assoc; reflexivity).
    rewrite Hs.
    destruct (lstrip_keeps_tail (response ++ [32%N])) as (a & Ha).
    rewrite Ha. clear E Hs.
    destruct (strip_literal_ci commit_message_prefix
                (a ++ documentation_tail)) as [tail|] eqn:H.
    + apply strip_literal_keeps_tail in H. destruct H as (a' & ->).
      apply lstrip_keeps_tail.
    + exists (response ++ [32%N]). reflexivity.
Qed.

Lemma finish_message_spec_witness :
  exists body,
    finish_message true (lit "  **commit message:**") =
    body ++ documentation_tail.
Proof.
  exact (proj2 (proj2 (finish_message_spec true (lit "  **commit message:**")))
           eq_refl).
Defined.

Lemma finish_message_eats_blank_of_note :
  finish_message true (lit "  **commit message:**") = documentation_tail /\
  finish_message false (lit "  no prefix") = lit "  no prefix".
Proof. vm_compute. split; reflexivity. Qed.

(* ================================================================= *)
(** * [HelperLLM.invoke] *)

Lemma llm_generate_eq (env : Env) (prompt : pystr) (w : World) :
  llm_generate env prompt w =
  (match env_llm env prompt with
   | inl e => Raised e
   | inr content => Done content
   end, add_events [EvInference prompt] w).
Proof.
  unfold llm_generate, bind, emit, raise, ret, add_events.
  destruct (env_llm env prompt); reflexivity.
Qed.

(** [invoke] on a dictionary looks at the keys ["text"] and ["query"]
    only: a truthy ["text"] is the prompt whatever ["query"] is; a
    missing, [None] or empty ["text"] falls back to ["query"]; with
    both missing or falsy the prompt is the empty string and nothing
    is raised for the missing keys.  In every case the model is
    called exactly once. *)
Theorem invoke_falls_back (env : Env) (d : dict pyval) (w : World) :
  let text := dict_get (lit "text") d in
  let query := dict_get (lit "query") d in
  events_since w (snd (invoke env (InputDict d) w)) =
    [EvInference (invoke_prompt (InputDict d))] /\
  (pyval_truthy text = true ->
   invoke_prompt (InputDict d) = py_str text) /\
  (pyval_truthy text = false -> pyval_truthy query = true ->
   invoke_prompt (InputDict d) = py_str query) /\
  (pyval_truthy text = false -> pyval_truthy query = false ->
   invoke_prompt (InputDict d) = []) /\
  (forall d',
     dict_get (lit "text") d' = text -> dict_get (lit "query") d' = query ->
     invoke env (InputDict d') w = invoke env (InputDict d) w).
Proof.
  cbv zeta. split; [|split; [|split; [|split]]].
  - apply events_since_app. unfold invoke. rewrite llm_generate_eq.
    reflexivity.
  - intros Ht. unfold invoke_prompt, py_or. rewrite Ht, Ht.
    destruct (dict_get (lit "text") d); reflexivity.
  - intros Ht Hq. unfold invoke_prompt, py_or. rewrite Ht, Hq.
    destruct (dict_get (lit "query") d); reflexivity.
  - intros Ht Hq. unfold invoke_prompt, py_or. rewrite Ht, Hq. reflexivity.
  - intros d' Et Eq. unfold invoke, invoke_prompt. rewrite Et, Eq.
    reflexivity.
Qed.

Lemma invoke_falls_back_witness :
  invoke_prompt (InputDict [(lit "text", PyStrVal []);
                            (lit "query", PyStrVal (lit "diff"))]) =
    lit "diff" /\
  invoke_prompt (InputDict [(lit "other", PyOther true (lit "7"))]) = [].
Proof.
  destruct (invoke_falls_back env_server_up
              [(lit "text", PyStrVal []); (lit "query", PyStrVal (lit "diff"))]
              world0) as (_ & _ & Hq & _).
  destruct (invoke_falls_back env_server_up
              [(lit "other", PyOther true (lit "7"))] world0)
    as (_ & _ & _ & Hn & _).
  split; [apply Hq; reflexivity|apply Hn; reflexivity].
Defined.

(* ================================================================= *)
(** * Instances *)

Lemma stop_twice_terminates_once_witness :
  let w := {| proc := Some 9%N; now := 0; probes := 0; sleeps := 0;
              trace := [] |} in
  events_since w (snd (OllamaServer.stop (snd (OllamaServer.stop w)))) =
    [EvStopCalled; EvTerminate 9%N; EvWait 9%N; EvStopCalled] /\
  In (EvWait 9%N)
     (events_since w (snd (OllamaServer.stop (snd (OllamaServer.stop w))))) /\
  proc w = Some 9%N.
Proof.
  cbv zeta.
  assert (Hin : In (EvWait 9%N)
            (events_since
               {| proc := Some 9%N; now := 0; probes := 0; sleeps := 0;
                  trace := [] |}
               (snd (OllamaServer.stop
                       (snd (OllamaServer.stop
                               {| proc := Some 9%N; now := 0; probes := 0;
                                  sleeps := 0; trace := [] |}))))))
    by (vm_compute; auto).
  split; [reflexivity|]. split; [exact Hin|].
  apply (proj2 (proj2 (proj2 (proj2 (proj2 (proj2 (proj2 (proj2 (proj2
           (stop_twice_terminates_once
              {| proc := Some 9%N; now := 0; probes := 0; sleeps := 0;
                 trace := [] |})))))))))).
  right. exact Hin.
Defined.

Lemma preprocess_diff_second_pass_quiet_witness :
  let D := lit "diff --git a/keep b/keep" ++ NL ++ lit "+1" ++ NL
           ++ lit "diff --git" ++ NL ++ lit "+2" ++ NL
           ++ lit "diff --git a/uv.lock b/uv.lock" ++ NL ++ NL in
  snd (preprocess_diff (fst (preprocess_diff D None)) None) = false /\
  (In (lit "uv.lock") (keys (split_diff_by_file (fst (preprocess_diff D None))))
   -> False).
Proof.
  cbv zeta.
  destruct (preprocess_diff_second_pass_quiet
              (lit "diff --git a/keep b/keep" ++ NL ++ lit "+1" ++ NL
               ++ lit "diff --git" ++ NL ++ lit "+2" ++ NL
               ++ lit "diff --git a/uv.lock b/uv.lock" ++ NL ++ NL) None)
    as (Hflag & _ & Hk).
  split; [exact Hflag|]. intros Hin. apply (Hk _ Hin).
  vm_compute. auto.
Defined.
